(** * web_rosbag_rosout_analyzer: the rosout pipeline, embedded and verified

    A shallow embedding of [src/rosbagUtils.ts] (loading, filtering and
    exporting rosout records), of [getStatistics] and the handlers of the
    filter panel in [src/App.tsx] and of the record shapes of
    [src/types.ts], followed by the properties the specification states
    about them and by further properties of the code.

    Conventions of the embedding.
    - A JavaScript [number] that the code computes with as a real quantity
      (a timestamp, a time bound) is a binary64 float ([PrimFloat.float]).
      The integer fields of a rosout payload ([level], [line]) are [Z].
    - A JavaScript string is a [string]: a sequence of code units, here the
      code units below 256.
    - [undefined] is [None]; an optional field is an [option].
    - A [Set] is a [gset].  An object used as a dictionary is a [JSObject],
      which keeps the creation order of its keys, because the order in
      which [Object.entries] lists them is observable.
    - A function that may throw returns in the monad [Exn]. *)

From Stdlib Require Import ZArith NArith List String Ascii Bool Lia.
From Stdlib Require Import Floats.PrimFloat Floats.SpecFloat Floats.FloatOps.
From Stdlib Require Import Decimal DecimalString DecimalN.
From Stdlib Require Import Sorting.Sorted Sorting.Permutation.
From stdpp Require Import base gmap strings list.

Local Open Scope string_scope.
Local Open Scope Z_scope.
Local Open Scope list_scope.

#[local] Arguments String.append : simpl nomatch.

(* ===================================================================== *)
(** * The JavaScript host *)
(* ===================================================================== *)

Module JS.

(** ** Exceptions *)

(** The values the code throws or lets through.  The two [Error]s that
    [loadRosbagMessages] constructs are told apart by their message: the
    reindexing guidance, which quotes the file name, and the inventory of
    the topics of the bag ([topic], [type] of each connection). *)
Inductive Error : Type :=
| SyntaxError   (* new RegExp on a malformed pattern *)
| RangeError    (* Date.prototype.toISOString on an invalid date *)
| UnindexedContainerError (fileName : string)
| NoMatchingChannelsError (available : list (string * option string))
| DecodeError (cause : string).   (* thrown by the bag reader *)

Inductive Exn (A : Type) : Type :=
| Return (a : A)
| Throw (e : Error).
Arguments Return {A} a.
Arguments Throw {A} e.

Definition bind {A B} (c : Exn A) (k : A -> Exn B) : Exn B :=
  match c with
  | Return a => k a
  | Throw e => Throw e
  end.

(** [try { c } catch (e) { h e }] *)
Definition try_catch {A} (c : Exn A) (h : Error -> Exn A) : Exn A :=
  match c with
  | Return a => Return a
  | Throw e => h e
  end.

Declare Scope exn_scope.
Delimit Scope exn_scope with exn.
Notation "'let!' x := c 'in' k" := (bind c (fun x => k))
  (at level 10, x name, c at level 100, k at level 200) : exn_scope.

(** [Array.prototype.map] and [Array.prototype.filter] with a callback that
    may throw: the first exception ends the traversal. *)
Fixpoint Array_map {A B} (f : A -> Exn B) (l : list A) : Exn (list B) :=
  match l with
  | [] => Return []
  | x :: l' =>
      (let! y := f x in
       let! ys := Array_map f l' in
       Return (y :: ys))%exn
  end.

Fixpoint Array_filter {A} (f : A -> Exn bool) (l : list A) : Exn (list A) :=
  match l with
  | [] => Return []
  | x :: l' =>
      (let! keep := f x in
       let! rest := Array_filter f l' in
       Return (if keep then x :: rest else rest))%exn
  end.

(** ** Strings *)

Definition code (c : ascii) : N := N_of_ascii c.

(** WhiteSpace and LineTerminator code units (below 256), as [trim] sees
    them: TAB, LF, VT, FF, CR, SP and NBSP. *)
Definition isWhiteSpace (c : ascii) : bool :=
  let n := code c in
  ((9 <=? n) && (n <=? 13) || (n =? 32) || (n =? 160))%N.

Fixpoint trimStart (s : string) : string :=
  match s with
  | EmptyString => EmptyString
  | String c s' => if isWhiteSpace c then trimStart s' else s
  end.

Fixpoint trimEnd (s : string) : string :=
  match s with
  | EmptyString => EmptyString
  | String c s' =>
      match trimEnd s' with
      | EmptyString => if isWhiteSpace c then EmptyString else String c EmptyString
      | r => String c r
      end
  end.

Definition trim (s : string) : string := trimEnd (trimStart s).

(** Lower-casing of one code unit: A-Z, and the Latin-1 capitals
    U+00C0-U+00DE except the multiplication sign U+00D7. *)
Definition lowerChar (c : ascii) : ascii :=
  let n := code c in
  if ((65 <=? n) && (n <=? 90) ||
      (192 <=? n) && (n <=? 222) && negb (n =? 215))%N
  then ascii_of_N (n + 32) else c.

Fixpoint toLowerCase (s : string) : string :=
  match s with
  | EmptyString => EmptyString
  | String c s' => String (lowerChar c) (toLowerCase s')
  end.

(** [s.includes(sub)] *)
Fixpoint includes (s sub : string) : bool :=
  String.prefix sub s ||
  match s with
  | EmptyString => false
  | String _ s' => includes s' sub
  end.

(** Truthiness of a string: every string but the empty one. *)
Definition truthy (s : string) : bool :=
  match s with EmptyString => false | _ => true end.

(** [a || b] on an optional string and on an optional integer. *)
Definition or_string (a : option string) (b : string) : string :=
  match a with
  | Some s => if truthy s then s else b
  | None => b
  end.

Definition or_Z (a : option Z) (b : Z) : Z :=
  match a with
  | Some z => if (z =? 0)%Z then b else z
  | None => b
  end.

(** [parts.join(sep)] *)
Fixpoint join (sep : string) (parts : list string) : string :=
  match parts with
  | [] => EmptyString
  | [p] => p
  | p :: rest => p +:+ sep +:+ join sep rest
  end.

(** [s.padStart(width, fill)] with a one-character [fill]. *)
Definition padStart (s : string) (width : nat) (fill : ascii) : string :=
  string_of_list_ascii (repeat fill (width - String.length s)) +:+ s.

(** [s.replace(from, to)] with one-character strings: the first
    occurrence only. *)
Fixpoint replaceFirst (s : string) (from to : ascii) : string :=
  match s with
  | EmptyString => EmptyString
  | String c s' =>
      if Ascii.eqb c from then String to s' else String c (replaceFirst s' from to)
  end.

(** [s.replace(/c/g, by)]: every occurrence of the character [c]. *)
Fixpoint replaceAll (s : string) (c : ascii) (by_ : string) : string :=
  match s with
  | EmptyString => EmptyString
  | String d s' =>
      if Ascii.eqb d c then by_ +:+ replaceAll s' c by_
      else String d (replaceAll s' c by_)
  end.

(** [s.includes(c)] with a one-character string. *)
Fixpoint includesChar (s : string) (c : ascii) : bool :=
  match s with
  | EmptyString => false
  | String d s' => Ascii.eqb d c || includesChar s' c
  end.

(** The characters the code names by an escape, and the quote. *)
Definition LF : ascii := "010"%char.
Definition QUOTE : ascii := "034"%char.

(** ** Numbers *)

(** A decimal numeral: sign, integer part, digits after the point (none
    when [Nil]) and exponent.  It is the text of a number, in the form
    [Number.prototype.toString] and the JSON grammar share. *)
Record Numeral : Type := {
  num_negative : bool;
  num_integer : N;
  num_fraction : Decimal.uint;
  num_exponent : option Z
}.

Definition digits_of_N (n : N) : string :=
  NilZero.string_of_uint (N.to_uint n).

Definition fractionText (f : Decimal.uint) : string :=
  match f with
  | Nil => EmptyString
  | _ => "." +:+ NilEmpty.string_of_uint f
  end.

Definition exponentText (e : option Z) : string :=
  match e with
  | None => EmptyString
  | Some e =>
      "e" +:+ (if e <? 0 then "-" else "+") +:+ digits_of_N (Z.abs_N e)
  end.

Definition Numeral_toString (d : Numeral) : string :=
  (if num_negative d then "-" else EmptyString)
  +:+ digits_of_N (num_integer d)
  +:+ fractionText (num_fraction d)
  +:+ exponentText (num_exponent d).

Definition Numeral_of_Z (z : Z) : Numeral :=
  {| num_negative := z <? 0; num_integer := Z.abs_N z;
     num_fraction := Nil; num_exponent := None |}.

(** [String(z)] for an integer [z]: its decimal numeral.  This is what
    JavaScript prints for the safe integers, which a binary64 holds
    exactly; beyond them [Number::toString] prints the shortest digits
    that read back as the same float, and from 10^21 on an exponent. *)
Definition String_of_Z (z : Z) : string :=
  Numeral_toString (Numeral_of_Z z).

(** [Number.MAX_SAFE_INTEGER] and [Number.isSafeInteger] on an integer. *)
Definition MAX_SAFE_INTEGER : Z := 2 ^ 53 - 1.

Definition isSafeInteger (z : Z) : bool := Z.abs z <=? MAX_SAFE_INTEGER.

(** [Number::toString] picks, for a finite number other than zero, the
    shortest numeral that reads back as the same float.  The choice of the
    digits is the host's. *)
Class NumberPrinter : Type := { Number_shortest : float -> Numeral }.

Definition Number_toString `{NumberPrinter} (x : float) : string :=
  match Prim2SF x with
  | S754_nan => "NaN"
  | S754_infinity negative => if negative then "-Infinity" else "Infinity"
  | S754_zero _ => "0"
  | S754_finite _ _ _ => Numeral_toString (Number_shortest x)
  end.

(** [x.toFixed(6)] (Number.prototype.toFixed): the integer [n] nearest to
    [x * 10^6], the larger one of two, printed with a point before its
    last six digits; a magnitude of 10^21 or more is printed as
    [Number::toString] prints it. *)
Definition toFixed6 `{NumberPrinter} (x : float) : string :=
  match Prim2SF x with
  | S754_finite negative m e =>
      if (0 <=? e) && (10 ^ 21 <=? Zpos m * 2 ^ e) then Number_toString x
      else
        let scaled := Zpos m * 1000000 in
        let n :=
          if 0 <=? e then scaled * 2 ^ e
          else (2 * scaled + 2 ^ (- e)) / 2 ^ (- e + 1) in
        let digits := padStart (String_of_Z n) 7 "0" in
        let k := (String.length digits - 6)%nat in
        (if negative then "-" else EmptyString)
        +:+ String.substring 0 k digits +:+ "."
        +:+ String.substring k 6 digits
  | S754_zero _ => "0.000000"
  | _ => Number_toString x
  end.

(** ** Regular expressions

    The regular-expression engine belongs to the host.  What the code uses
    of it: [new RegExp(pattern, 'i')], which throws a [SyntaxError] on a
    pattern that does not compile, and [regex.test(text)], which without
    the [g] and [y] flags keeps no state between calls. *)
Class RegExpEngine : Type := {
  RegExp : Type;
  RegExp_compile_i : string -> option RegExp;
  RegExp_test : RegExp -> string -> bool
}.

Definition RegExp_new_i `{RegExpEngine} (pattern : string) : Exn RegExp :=
  match RegExp_compile_i pattern with
  | Some re => Return re
  | None => Throw SyntaxError
  end.

(** ** Dates *)

(** The time value of [new Date(ms)] (TimeClip): the milliseconds since
    the epoch, truncated to an integer; [None] is the invalid date, whose
    time value is NaN: [ms] is not finite, or beyond 8.64e15 in
    magnitude. *)
Definition Date_new (ms : float) : option Z :=
  if PrimFloat.ltb 8.64e15%float (PrimFloat.abs ms) then None
  else
    match Prim2SF ms with
    | S754_zero _ => Some 0
    | S754_finite negative m e =>
        let magnitude :=
          if 0 <=? e then Zpos m * 2 ^ e else Zpos m / 2 ^ (- e) in
        Some (if negative then - magnitude else magnitude)
    | _ => None
    end.

(** The fields of a time value in the proleptic Gregorian calendar. *)
Record DateFields : Type := {
  fullYear : Z;
  month : Z;        (* 0 is January *)
  date : Z;         (* day of the month, from 1 *)
  hours : Z;
  minutes : Z;
  seconds : Z;
  milliseconds : Z
}.

Definition msPerDay : Z := 86400000.

Definition fieldsOfTime (t : Z) : DateFields :=
  let days := t / msPerDay in
  let inDay := t mod msPerDay in
  (* the civil date of a day number, counting years from 1 March *)
  let z := days + 719468 in
  let era := z / 146097 in
  let doe := z mod 146097 in
  let yoe := (doe - doe / 1460 + doe / 36524 - doe / 146096) / 365 in
  let doy := doe - (365 * yoe + yoe / 4 - yoe / 100) in
  let mp := (5 * doy + 2) / 153 in
  let d := doy - (153 * mp + 2) / 5 + 1 in
  let m := if mp <? 10 then mp + 3 else mp - 9 in
  let y := yoe + era * 400 + (if m <=? 2 then 1 else 0) in
  {| fullYear := y; month := m - 1; date := d;
     hours := inDay / 3600000;
     minutes := (inDay / 60000) mod 60;
     seconds := (inDay / 1000) mod 60;
     milliseconds := inDay mod 1000 |}.

Definition pad0 (width : nat) (z : Z) : string :=
  padStart (String_of_Z z) width "0".

(** [date.toISOString()]: throws a [RangeError] on the invalid date. *)
Definition Date_toISOString (d : option Z) : Exn string :=
  match d with
  | None => Throw RangeError
  | Some t =>
      let f := fieldsOfTime t in
      let year :=
        if (0 <=? fullYear f) && (fullYear f <=? 9999) then pad0 4 (fullYear f)
        else (if fullYear f <? 0 then "-" else "+") +:+ pad0 6 (Z.abs (fullYear f)) in
      Return (year +:+ "-" +:+ pad0 2 (month f + 1) +:+ "-" +:+ pad0 2 (date f)
              +:+ "T" +:+ pad0 2 (hours f) +:+ ":" +:+ pad0 2 (minutes f)
              +:+ ":" +:+ pad0 2 (seconds f) +:+ "." +:+ pad0 3 (milliseconds f)
              +:+ "Z")
  end.

(** The offset of local time from UTC at a time value, in milliseconds:
    the time zone of the observer, which the host knows. *)
Class TimeZone : Type := { LocalTZA : Z -> Z }.

(** A getter of local time ([getFullYear], [getMonth], ...) returns NaN on
    the invalid date: [None]. *)
Definition Date_getLocal `{TimeZone} (d : option Z) (field : DateFields -> Z)
  : option Z :=
  match d with
  | Some t => Some (field (fieldsOfTime (t + LocalTZA t)))
  | None => None
  end.

(** [String(x)] of what a getter returned, and [x + 1]. *)
Definition String_of_number (x : option Z) : string :=
  match x with
  | Some z => String_of_Z z
  | None => "NaN"
  end.

Definition plus1 (x : option Z) : option Z :=
  match x with
  | Some z => Some (z + 1)
  | None => None
  end.

(** ** Arrays *)

(** [array.sort(compare)].  The sort is stable (ECMAScript 2019): an
    element goes before the elements it does not compare greater than and
    that followed it. *)
Fixpoint sort_insert {A} (compare : A -> A -> Z) (x : A) (sorted : list A)
  : list A :=
  match sorted with
  | [] => [x]
  | y :: rest =>
      if compare x y <=? 0 then x :: y :: rest
      else y :: sort_insert compare x rest
  end.

Definition Array_sort {A} (compare : A -> A -> Z) (l : list A) : list A :=
  fold_right (sort_insert compare) [] l.

(** ** Objects used as dictionaries

    The own properties of an object, in the order of their creation.
    Writing to a key that exists keeps its place. *)
Definition JSObject (V : Type) : Type := list (string * V).

Fixpoint obj_get {V} (o : JSObject V) (key : string) : option V :=
  match o with
  | [] => None
  | (k, v) :: o' => if String.eqb k key then Some v else obj_get o' key
  end.

Fixpoint obj_set {V} (o : JSObject V) (key : string) (v : V) : JSObject V :=
  match o with
  | [] => [(key, v)]
  | (k, w) :: o' =>
      if String.eqb k key then (k, v) :: o' else (k, w) :: obj_set o' key v
  end.

(** An array index is a key that is the canonical numeral of an integer
    between 0 and 2^32 - 2. *)
Definition arrayIndex (key : string) : option N :=
  match NilEmpty.uint_of_string key with
  | Some d =>
      let n := N.of_uint d in
      if String.eqb (NilZero.string_of_uint (N.to_uint n)) key
         && (n <? 4294967295)%N
      then Some n else None
  | None => None
  end.

Definition isArrayIndex (key : string) : bool :=
  match arrayIndex key with Some _ => true | None => false end.

Definition indexValue (key : string) : Z :=
  match arrayIndex key with Some n => Z.of_N n | None => 0 end.

(** The order in which [Object.entries], [Object.keys] and [for-in] list
    the own string keys (OrdinaryOwnPropertyKeys): the array indices in
    ascending numeric order first, then the other keys in the order of
    their creation. *)
Definition ownKeyOrder {V} (o : list (string * V)) : list (string * V) :=
  Array_sort (fun a b => indexValue (fst a) - indexValue (fst b))
    (List.filter (fun e => isArrayIndex (fst e)) o)
  ++ List.filter (fun e => negb (isArrayIndex (fst e))) o.

Definition Object_entries {V} (o : JSObject V) : list (string * V) :=
  ownKeyOrder o.

(** The names every object inherits from [Object.prototype].  Reading one
    of them on an object that has no own property of the name yields a
    function or an object, not [undefined]. *)
Definition Object_prototype_names : list string :=
  [ "constructor"; "hasOwnProperty"; "isPrototypeOf"; "propertyIsEnumerable";
    "toLocaleString"; "toString"; "valueOf"; "__proto__";
    "__defineGetter__"; "__defineSetter__";
    "__lookupGetter__"; "__lookupSetter__" ].

Definition isInherited (key : string) : bool :=
  existsb (String.eqb key) Object_prototype_names.

(** ** JSON *)

#[local] Set Warnings "-register-all".
Inductive JSON : Type :=
| JNull
| JBool (b : bool)
| JNumber (d : Numeral)
| JString (s : string)
| JArray (items : list JSON)
| JObject (members : list (string * JSON)).

(** The value [JSON.stringify] prints for a number: [null] for NaN and the
    infinities, the numeral of [Number::toString] otherwise. *)
Definition JSON_of_number `{NumberPrinter} (x : float) : JSON :=
  match Prim2SF x with
  | S754_nan | S754_infinity _ => JNull
  | S754_zero _ => JNumber (Numeral_of_Z 0)
  | S754_finite _ _ _ => JNumber (Number_shortest x)
  end.

Definition hexDigit (n : N) : ascii :=
  if (n <? 10)%N then ascii_of_N (48 + n) else ascii_of_N (87 + n).

(** QuoteJSONString, one code unit. *)
Definition escapeJSONChar (c : ascii) : string :=
  let n := code c in
  if (n =? 34)%N then String "\" (String QUOTE EmptyString)
  else if (n =? 92)%N then "\\"
  else if (n =? 8)%N then "\b"
  else if (n =? 9)%N then "\t"
  else if (n =? 10)%N then "\n"
  else if (n =? 12)%N then "\f"
  else if (n =? 13)%N then "\r"
  else if (n <? 32)%N then
    "\u00" +:+ String (hexDigit (n / 16)) (String (hexDigit (n mod 16)) EmptyString)
  else String c EmptyString.

Fixpoint escapeJSON (s : string) : string :=
  match s with
  | EmptyString => EmptyString
  | String c s' => escapeJSONChar c +:+ escapeJSON s'
  end.

Definition quoteJSON (s : string) : string :=
  String QUOTE (escapeJSON s +:+ String QUOTE EmptyString).

Definition NEWLINE : string := String LF EmptyString.

(** SerializeJSONProperty with a gap of two spaces; [indent] is the
    indentation of the enclosing value. *)
Fixpoint JSON_serialize (indent : string) (v : JSON) {struct v} : string :=
  match v with
  | JNull => "null"
  | JBool b => if b then "true" else "false"
  | JNumber d => Numeral_toString d
  | JString s => quoteJSON s
  | JArray [] => "[]"
  | JArray items =>
      let inner := indent +:+ "  " in
      "[" +:+ NEWLINE +:+ inner
      +:+ join ("," +:+ NEWLINE +:+ inner)
            (List.map (JSON_serialize inner) items)
      +:+ NEWLINE +:+ indent +:+ "]"
  | JObject [] => "{}"
  | JObject members =>
      let inner := indent +:+ "  " in
      "{" +:+ NEWLINE +:+ inner
      +:+ join ("," +:+ NEWLINE +:+ inner)
            (List.map
               (fun kv => quoteJSON (fst kv) +:+ ": "
                          +:+ JSON_serialize inner (snd kv))
               members)
      +:+ NEWLINE +:+ indent +:+ "}"
  end.

(** [JSON.stringify(value, null, 2)] *)
Definition JSON_stringify (v : JSON) : string := JSON_serialize EmptyString v.

(** *** JSON.parse *)

Definition isJSONSpace (c : ascii) : bool :=
  let n := code c in ((n =? 9) || (n =? 10) || (n =? 13) || (n =? 32))%N.

Fixpoint skipWS (s : string) : string :=
  match s with
  | String c s' => if isJSONSpace c then skipWS s' else s
  | EmptyString => EmptyString
  end.

(** What follows the prefix [p] in [s], if [s] starts with it. *)
Fixpoint stripPrefix (p s : string) : option string :=
  match p with
  | EmptyString => Some s
  | String a p' =>
      match s with
      | String b s' => if Ascii.eqb a b then stripPrefix p' s' else None
      | EmptyString => None
      end
  end.

Definition hexValue (c : ascii) : option N :=
  let n := code c in
  if ((48 <=? n) && (n <=? 57))%N then Some (n - 48)%N
  else if ((97 <=? n) && (n <=? 102))%N then Some (n - 87)%N
  else if ((65 <=? n) && (n <=? 70))%N then Some (n - 55)%N
  else None.

(** The characters of a string literal, after its opening quote.  An
    escape that names a code unit of 256 or more has no counterpart among
    the strings of the embedding: the parse stops ([None]), as it does on
    a text that is not JSON. *)
Fixpoint parseChars (s : string) : option (string * string) :=
  match s with
  | EmptyString => None
  | String c s1 =>
      let continue (d : ascii) (rest : option (string * string)) :=
        match rest with
        | Some (str, r) => Some (String d str, r)
        | None => None
        end in
      if (code c =? 34)%N then Some (EmptyString, s1)
      else if (code c =? 92)%N then
        match s1 with
        | String e s2 =>
            let n := code e in
            if (n =? 34)%N then continue QUOTE (parseChars s2)
            else if (n =? 92)%N then continue "\"%char (parseChars s2)
            else if (n =? 47)%N then continue "/"%char (parseChars s2)
            else if (n =? 98)%N then continue "008"%char (parseChars s2)
            else if (n =? 102)%N then continue "012"%char (parseChars s2)
            else if (n =? 110)%N then continue "010"%char (parseChars s2)
            else if (n =? 114)%N then continue "013"%char (parseChars s2)
            else if (n =? 116)%N then continue "009"%char (parseChars s2)
            else if (n =? 117)%N then
              match s2 with
              | String h1 (String h2 (String h3 (String h4 s6))) =>
                  match hexValue h1, hexValue h2, hexValue h3, hexValue h4 with
                  | Some a, Some b, Some c', Some d =>
                      if ((a =? 0) && (b =? 0))%N
                      then continue (ascii_of_N (16 * c' + d)) (parseChars s6)
                      else None
                  | _, _, _, _ => None
                  end
              | _ => None
              end
            else None
        | EmptyString => None
        end
      else if (code c <? 32)%N then None
      else continue c (parseChars s1)
  end.

Definition digitOf (c : ascii) : option (Decimal.uint -> Decimal.uint) :=
  let n := code c in
  if (n =? 48)%N then Some D0 else if (n =? 49)%N then Some D1
  else if (n =? 50)%N then Some D2 else if (n =? 51)%N then Some D3
  else if (n =? 52)%N then Some D4 else if (n =? 53)%N then Some D5
  else if (n =? 54)%N then Some D6 else if (n =? 55)%N then Some D7
  else if (n =? 56)%N then Some D8 else if (n =? 57)%N then Some D9
  else None.

(** The longest run of digits at the head of a text, and what follows. *)
Fixpoint spanDigits (s : string) : Decimal.uint * string :=
  match s with
  | EmptyString => (Nil, EmptyString)
  | String c s' =>
      match digitOf c with
      | Some D => let '(d, rest) := spanDigits s' in (D d, rest)
      | None => (Nil, s)
      end
  end.

Definition isNil (d : Decimal.uint) : bool :=
  match d with Nil => true | _ => false end.

(** The parts of a number of the JSON grammar, [-]? int frac? exp?: each
    returns what it read and what follows. *)
Definition parseSign (s : string) : bool * string :=
  match s with
  | String c s' => if (code c =? 45)%N then (true, s') else (false, s)
  | EmptyString => (false, s)
  end.

Definition parseFraction (s : string) : option (Decimal.uint * string) :=
  match s with
  | String c s' =>
      if (code c =? 46)%N then
        let '(f, rest) := spanDigits s' in
        if isNil f then None else Some (f, rest)
      else Some (Nil, s)
  | EmptyString => Some (Nil, s)
  end.

Definition parseExponent (s : string) : option (option Z * string) :=
  match s with
  | String c s' =>
      if ((code c =? 101) || (code c =? 69))%N then
        let '(minus, s1) :=
          match s' with
          | String g s'' =>
              if (code g =? 45)%N then (true, s'')
              else if (code g =? 43)%N then (false, s'')
              else (false, s')
          | EmptyString => (false, s')
          end in
        let '(e, rest) := spanDigits s1 in
        if isNil e then None
        else
          let magnitude := Z.of_N (N.of_uint e) in
          Some (Some (if minus then - magnitude else magnitude), rest)
      else Some (None, s)
  | EmptyString => Some (None, s)
  end.

(** A number; its integer part is [0] or has no leading zero: it is the
    canonical numeral of its value. *)
Definition parseNumber (s : string) : option (Numeral * string) :=
  let '(negative, s1) := parseSign s in
  let '(int, s2) := spanDigits s1 in
  if String.eqb (digits_of_N (N.of_uint int)) (NilEmpty.string_of_uint int)
  then
    match parseFraction s2 with
    | Some (f, s3) =>
        match parseExponent s3 with
        | Some (e, rest) =>
            Some ({| num_negative := negative; num_integer := N.of_uint int;
                     num_fraction := f; num_exponent := e |}, rest)
        | None => None
        end
    | None => None
    end
  else None.

(** A digit stands at the head of the text. *)
Definition digitAhead (s : string) : bool :=
  match s with
  | String c _ => match digitOf c with Some _ => true | None => false end
  | EmptyString => false
  end.

(** The object [JSON.parse] builds from the members it reads, in the
    order [Object.entries] lists them: a repeated key keeps its first place
    and its last value. *)
Definition objectOfMembers (members : list (string * JSON))
  : list (string * JSON) :=
  ownKeyOrder
    (fold_left (fun o kv => obj_set o (fst kv) (snd kv)) members []).

(** A value, the elements of an array after its bracket and the members
    of an object after its brace.  [fuel] bounds the nesting and the
    number of elements read. *)
Fixpoint parseValue (fuel : nat) (s : string) : option (JSON * string) :=
  match fuel with
  | O => None
  | S fuel' =>
      match skipWS s with
      | EmptyString => None
      | String c s1 =>
          let n := code c in
          if (n =? 123)%N then
            match skipWS s1 with
            | String d s2 =>
                if (code d =? 125)%N then Some (JObject [], s2)
                else
                  match parseMembers fuel' s1 with
                  | Some (ms, rest) => Some (JObject (objectOfMembers ms), rest)
                  | None => None
                  end
            | EmptyString => None
            end
          else if (n =? 91)%N then
            match skipWS s1 with
            | String d s2 =>
                if (code d =? 93)%N then Some (JArray [], s2)
                else
                  match parseElements fuel' s1 with
                  | Some (vs, rest) => Some (JArray vs, rest)
                  | None => None
                  end
            | EmptyString => None
            end
          else if (n =? 34)%N then
            match parseChars s1 with
            | Some (str, rest) => Some (JString str, rest)
            | None => None
            end
          else
            match stripPrefix "null" (String c s1),
                  stripPrefix "true" (String c s1),
                  stripPrefix "false" (String c s1) with
            | Some rest, _, _ => Some (JNull, rest)
            | _, Some rest, _ => Some (JBool true, rest)
            | _, _, Some rest => Some (JBool false, rest)
            | None, None, None =>
                match parseNumber (String c s1) with
                | Some (d, rest) => Some (JNumber d, rest)
                | None => None
                end
            end
      end
  end
with parseElements (fuel : nat) (s : string) : option (list JSON * string) :=
  match fuel with
  | O => None
  | S fuel' =>
      match parseValue fuel' s with
      | Some (v, s1) =>
          match skipWS s1 with
          | String c s2 =>
              if (code c =? 44)%N then
                match parseElements fuel' s2 with
                | Some (vs, rest) => Some (v :: vs, rest)
                | None => None
                end
              else if (code c =? 93)%N then Some ([v], s2)
              else None
          | EmptyString => None
          end
      | None => None
      end
  end
with parseMembers (fuel : nat) (s : string)
  : option (list (string * JSON) * string) :=
  match fuel with
  | O => None
  | S fuel' =>
      match skipWS s with
      | String q s1 =>
          if (code q =? 34)%N then
            match parseChars s1 with
            | Some (key, s2) =>
                match skipWS s2 with
                | String colon s3 =>
                    if (code colon =? 58)%N then
                      match parseValue fuel' s3 with
                      | Some (v, s4) =>
                          match skipWS s4 with
                          | String c s5 =>
                              if (code c =? 44)%N then
                                match parseMembers fuel' s5 with
                                | Some (ms, rest) => Some ((key, v) :: ms, rest)
                                | None => None
                                end
                              else if (code c =? 125)%N then Some ([(key, v)], s5)
                              else None
                          | EmptyString => None
                          end
                      | None => None
                      end
                    else None
                | EmptyString => None
                end
            | None => None
            end
          else None
      | EmptyString => None
      end
  end.

(** [JSON.parse(text)]; [None] is the [SyntaxError]. *)
Definition JSON_parse (text : string) : option JSON :=
  match parseValue (S (String.length text)) text with
  | Some (v, rest) =>
      match skipWS rest with
      | EmptyString => Some v
      | _ => None
      end
  | None => None
  end.

(** *** What [JSON.parse] reads back unchanged *)

(** The number of values the parser has to read for [v], [v] included and
    the elements of an array counted twice: enough fuel for it. *)
Fixpoint weight (v : JSON) : nat :=
  match v with
  | JArray items => S (list_sum (List.map (fun x => S (weight x)) items))
  | JObject members =>
      S (list_sum (List.map (fun kv => S (weight (snd kv))) members))
  | _ => 1%nat
  end.

(** The values whose objects have distinct keys, none of them an array
    index: the objects whose entries are listed in the order they were
    written in. *)
Fixpoint plainJSON (v : JSON) : bool :=
  match v with
  | JArray items => forallb plainJSON items
  | JObject members =>
      bool_decide (NoDup (List.map fst members))
      && forallb (fun kv => negb (isArrayIndex (fst kv)) && plainJSON (snd kv))
           members
  | _ => true
  end.

(** A text made of spaces and line feeds. *)
Fixpoint blank (s : string) : bool :=
  match s with
  | EmptyString => true
  | String c s' => isJSONSpace c && blank s'
  end.

(** What may follow a value in a serialised text: nothing, a comma or a
    line feed. *)
Definition delimited (rest : string) : bool :=
  match rest with
  | EmptyString => true
  | String c _ => ((code c =? 44) || (code c =? 10))%N
  end.

(** ** More of [String.prototype] *)

(** [s.split(sep)] with a one-character separator: the pieces between the
    separators, one more than there are separators. *)
Fixpoint String_split (s : string) (sep : ascii) : list string :=
  match s with
  | EmptyString => [EmptyString]
  | String c s' =>
      if Ascii.eqb c sep then EmptyString :: String_split s' sep
      else
        match String_split s' sep with
        | piece :: pieces => String c piece :: pieces
        | [] => [String c EmptyString]
        end
  end.

(** A string made of white space only. *)
Fixpoint allWhiteSpace (s : string) : bool :=
  match s with
  | EmptyString => true
  | String c s' => isWhiteSpace c && allWhiteSpace s'
  end.

End JS.

(* ===================================================================== *)
(** * src/types.ts *)
(* ===================================================================== *)

Module types.

(** [severity] and [line] are integers: the loader copies them from the
    [level] (an int8) and the [line] (a uint32) of a [rosgraph_msgs/Log]
    message.  What the code prints of them is what JavaScript prints as
    long as they are safe integers. *)
Record RosoutMessage : Type := {
  timestamp : float;
  node : string;
  severity : Z;
  message : string;
  file : option string;
  line : option Z;
  function : option string;
  topics : option (list string)
}.

(** [SEVERITY_NAMES: Record<number, string>], lines 21-27: the table the
    interface reads. *)
Definition SEVERITY_NAMES : gmap Z string :=
  {[ 1 := "DEBUG"; 2 := "INFO"; 4 := "WARN"; 8 := "ERROR"; 16 := "FATAL" ]}.

End types.

(* ===================================================================== *)
(** * The bag reader ([@foxglove/rosbag]), as the code uses it *)
(* ===================================================================== *)

Module rosbag.
Import JS.

Record BagHeader : Type := {
  indexPosition : Z;
  connectionCount : Z;
  chunkCount : Z
}.

Record Connection : Type := {
  conn : Z;
  topic : string;
  type : option string
}.

Record Time : Type := { sec : float; nsec : float }.

(** A deserialised message, read by the code as [any]: each field the code
    looks at may be missing. *)
Record Payload : Type := {
  level : option Z;
  msg : option string;
  name : option string;
  file : option string;
  line : option Z;
  function : option string;
  topics : option (list string)
}.

(** What [readMessages] hands to its callback; [message] is [None] when it
    is not an object. *)
Record ReadResult : Type := {
  result_topic : string;
  result_timestamp : Time;
  result_message : option Payload
}.

(** An opened bag: its header, its connections in the order of the [Map],
    and, for the topics asked for, the results [readMessages] delivers to
    the callback one after the other, with the error that ends the
    iteration early if one does (a chunk that fails to decompress or to
    parse). *)
Record Bag : Type := {
  header : option BagHeader;
  connections : list (Z * Connection);
  readMessages : list string -> list ReadResult * option Error
}.

(** A file and what the reader makes of it.  [Bag_open] stands for the
    statements up to [await bag.open()]: reading the file into memory,
    loading the two decompressors, constructing the [Bag] and opening it.
    Each of them may throw. *)
Record File : Type := { file_name : string; file_bytes : list Byte.byte }.

Class Reader : Type := { Bag_open : File -> Exn Bag }.

(** The calls the code makes on the reader, in the order it makes them. *)
Inductive ReaderCall : Type :=
| CallOpen
| CallConnections                        (* iterating [bag.connections] *)
| CallReadMessages (topics : list string).

End rosbag.

(* ===================================================================== *)
(** * src/rosbagUtils.ts *)
(* ===================================================================== *)

Module rosbagUtils.
Import JS types.

(** ** loadRosbagMessages *)

(** What the function resolves to. *)
Record Loaded : Type := {
  messages : list RosoutMessage;
  uniqueNodes : gset string
}.

(** The test of line 62. *)
Definition isUnindexed (bag : rosbag.Bag) : bool :=
  match rosbag.header bag with
  | Some h =>
      (rosbag.indexPosition h =? 0) && (rosbag.connectionCount h =? 0)
      && (rosbag.chunkCount h =? 0)
  | None => false
  end.

(** The test of line 78. *)
Definition isRosoutConnection (c : rosbag.Connection) : bool :=
  includes (rosbag.topic c) "rosout"
  || bool_decide (rosbag.type c = Some "rosgraph_msgs/Log").

(** The loop of lines 75-82. *)
Definition findRosoutTopics (bag : rosbag.Bag) : list string :=
  List.map (fun '(_, c) => rosbag.topic c)
    (List.filter (fun '(_, c) => isRosoutConnection c) (rosbag.connections bag)).

(** The callback of [readMessages], lines 115-140, on the two collections
    it updates. *)
Definition onResult (acc : Loaded) (result : rosbag.ReadResult) : Loaded :=
  match rosbag.result_message result with
  | Some msg =>
      match rosbag.level msg, rosbag.msg msg with
      | Some level, Some text =>
          let stamp := rosbag.result_timestamp result in
          let rosoutMsg := {|
            timestamp :=
              PrimFloat.add (rosbag.sec stamp)
                (PrimFloat.div (rosbag.nsec stamp) 1e9%float);
            node := or_string (rosbag.name msg) "unknown";
            severity := level;
            message := text;
            file := Some (or_string (rosbag.file msg) EmptyString);
            line := Some (or_Z (rosbag.line msg) 0);
            function := Some (or_string (rosbag.function msg) EmptyString);
            topics := Some (match rosbag.topics msg with
                            | Some ts => ts
                            | None => []
                            end)
          |} in
          {| messages := messages acc ++ [rosoutMsg];
             uniqueNodes :=
               match rosbag.name msg with
               | Some n => if truthy n then uniqueNodes acc ∪ {[ n ]}
                           else uniqueNodes acc
               | None => uniqueNodes acc
               end |}
      | _, _ => acc
      end
  | None => acc
  end.

(** [loadRosbagMessages], with the calls made on the reader.  The [catch]
    of line 146 logs and rethrows: what is thrown inside is what the caller
    sees. *)
Definition loadRosbagMessages `{rosbag.Reader} (file : rosbag.File)
  : list rosbag.ReaderCall * Exn Loaded :=
  match rosbag.Bag_open file with
  | Throw e => ([rosbag.CallOpen], Throw e)
  | Return bag =>
      if isUnindexed bag then
        ([rosbag.CallOpen],
         Throw (UnindexedContainerError (rosbag.file_name file)))
      else
        let rosoutTopics := findRosoutTopics bag in
        if (length rosoutTopics =? 0)%nat then
          ([rosbag.CallOpen; rosbag.CallConnections; rosbag.CallConnections],
           Throw (NoMatchingChannelsError
                    (List.map (fun '(_, c) => (rosbag.topic c, rosbag.type c))
                       (rosbag.connections bag))))
        else
          let '(results, failure) := rosbag.readMessages bag rosoutTopics in
          let acc :=
            fold_left onResult results
              {| messages := []; uniqueNodes := ∅ |} in
          ([rosbag.CallOpen; rosbag.CallConnections;
            rosbag.CallReadMessages rosoutTopics],
           match failure with
           | Some e => Throw e
           | None => Return acc
           end)
  end.

(** ** filterMessages *)

(** The [filters] argument of [filterMessages].  An entry of
    [messageKeywords] may be [null] or [undefined] at run time (the code
    reads it through [k ?? '']): it is an [option]. *)
Record Filters : Type := {
  nodeNames : option (gset string);
  severityLevels : option (gset Z);
  messageKeywords : option (list (option string));
  messageRegex : option string;
  filterMode : option string;
  useRegex : option bool;
  startTime : option float;
  endTime : option float
}.

(** [filters.useRegex] as a condition. *)
Definition useRegex_truthy (filters : Filters) : bool :=
  match useRegex filters with Some b => b | None => false end.

(** The condition of line 182,
    [filters.useRegex && filters.messageRegex && filters.messageRegex.trim()]:
    the pattern when it holds. *)
Definition regexBranch (filters : Filters) : option string :=
  if useRegex_truthy filters then
    match messageRegex filters with
    | Some pattern =>
        if truthy pattern && truthy (trim pattern) then Some pattern else None
    | None => None
    end
  else None.

(** The condition of line 190,
    [!filters.useRegex && filters.messageKeywords &&
     filters.messageKeywords.length > 0]: the keyword array when it holds. *)
Definition keywordBranch (filters : Filters) : option (list (option string)) :=
  if negb (useRegex_truthy filters) then
    match messageKeywords filters with
    | Some ks => if (0 <? length ks)%nat then Some ks else None
    | None => None
    end
  else None.

(** The normalised keyword list of lines 192-195: trim, drop the empty
    entries, lower-case. *)
Definition normalizeKeywords (ks : list (option string)) : list string :=
  List.map toLowerCase
    (List.filter (fun k => (0 <? String.length k)%nat)
       (List.map
          (fun k => trim (match k with Some s => s | None => EmptyString end))
          ks)).

(** The severity and node conditions pushed by lines 172-179. *)
Definition severityCondition (filters : Filters) (msg : RosoutMessage)
  : list bool :=
  match severityLevels filters with
  | Some levels =>
      if (0 <? size levels)%nat
      then [bool_decide (severity msg ∈ levels)] else []
  | None => []
  end.

Definition nodeCondition (filters : Filters) (msg : RosoutMessage)
  : list bool :=
  match nodeNames filters with
  | Some names =>
      if (0 <? size names)%nat
      then [bool_decide (node msg ∈ names)] else []
  | None => []
  end.

(** The message condition pushed by lines 182-203.  A pattern that does
    not compile throws inside the [try]; the [catch] pushes nothing. *)
Definition messageCondition `{RegExpEngine}
    (filters : Filters) (msg : RosoutMessage) : Exn (list bool) :=
  match regexBranch filters with
  | Some pattern =>
      try_catch
        (let! regex := RegExp_new_i pattern in
         Return [RegExp_test regex (message msg)])%exn
        (fun _ => Return [])
  | None =>
      match keywordBranch filters with
      | Some ks =>
          let keywords := normalizeKeywords ks in
          if (0 <? length keywords)%nat then
            let messageLower := toLowerCase (message msg) in
            let hasKeyword :=
              existsb (fun keyword => includes messageLower keyword) keywords in
            Return [hasKeyword]
          else Return []
      | None => Return []
      end
  end.

(** The two early returns of lines 206-211. *)
Definition beforeStart (filters : Filters) (msg : RosoutMessage) : bool :=
  match startTime filters with
  | Some t0 => PrimFloat.ltb (timestamp msg) t0
  | None => false
  end.

Definition afterEnd (filters : Filters) (msg : RosoutMessage) : bool :=
  match endTime filters with
  | Some t1 => PrimFloat.ltb t1 (timestamp msg)
  | None => false
  end.

(** The array [conditions] when line 205 is reached: the pushes of lines
    173, 178 and 185 or 201, in this order. *)
Definition conditionsOf `{RegExpEngine}
    (filters : Filters) (msg : RosoutMessage) : Exn (list bool) :=
  (let! fromMessage := messageCondition filters msg in
   Return (severityCondition filters msg ++ nodeCondition filters msg
           ++ fromMessage))%exn.

(** The callback of [messages.filter], lines 168-224. *)
Definition keepMessage `{RegExpEngine}
    (filters : Filters) (msg : RosoutMessage) : Exn bool :=
  (let! conditions := conditionsOf filters msg in
   if beforeStart filters msg then Return false
   else if afterEnd filters msg then Return false
   else if (length conditions =? 0)%nat then Return true
   else if bool_decide (filterMode filters = Some "AND")
        then Return (forallb (fun c => c) conditions)
        else Return (existsb (fun c => c) conditions))%exn.

(** What the callback answers, read as a boolean. *)
Definition keeps `{RegExpEngine} (filters : Filters) (msg : RosoutMessage)
  : bool :=
  match keepMessage filters msg with
  | Return b => b
  | Throw _ => false
  end.

Definition filterMessages `{RegExpEngine}
    (messages : list RosoutMessage) (filters : Filters)
  : Exn (list RosoutMessage) :=
  Array_filter (keepMessage filters) messages.

(** ** The exports *)

Inductive Timezone : Type := tz_local | tz_utc.

(** The [SEVERITY_NAMES] of [rosbagUtils.ts], lines 227-233: a constant of
    the module, not the one [types.ts] exports. *)
Definition SEVERITY_NAMES : gmap Z string :=
  {[ 1 := "DEBUG"; 2 := "INFO"; 4 := "WARN"; 8 := "ERROR"; 16 := "FATAL" ]}.

(** [SEVERITY_NAMES[severity]] when it is truthy. *)
Definition severityName (severity : Z) : option string :=
  match SEVERITY_NAMES !! severity with
  | Some n => if truthy n then Some n else None
  | None => None
  end.

(** [SEVERITY_NAMES[severity] || String(severity)]; the numeral is what
    JavaScript prints for a safe integer. *)
Definition severityText (severity : Z) : string :=
  match severityName severity with
  | Some n => n
  | None => String_of_Z severity
  end.

(** [formatTimestamp], lines 235-248. *)
Definition formatTimestamp `{TimeZone} (timestamp : float) (timezone : Timezone)
  : Exn string :=
  let date := Date_new (PrimFloat.mul timestamp 1000%float) in
  match timezone with
  | tz_utc =>
      (let! iso := Date_toISOString date in
       Return (String.substring 0 23 (replaceFirst iso "T" " ") +:+ " UTC"))%exn
  | tz_local =>
      let year := Date_getLocal date fullYear in
      let month :=
        padStart (String_of_number (plus1 (Date_getLocal date month))) 2 "0" in
      let day :=
        padStart (String_of_number (Date_getLocal date JS.date)) 2 "0" in
      let hours :=
        padStart (String_of_number (Date_getLocal date hours)) 2 "0" in
      let minutes :=
        padStart (String_of_number (Date_getLocal date minutes)) 2 "0" in
      let seconds :=
        padStart (String_of_number (Date_getLocal date seconds)) 2 "0" in
      let ms :=
        padStart (String_of_number (Date_getLocal date milliseconds)) 3 "0" in
      Return (String_of_number year +:+ "-" +:+ month +:+ "-" +:+ day +:+ " "
              +:+ hours +:+ ":" +:+ minutes +:+ ":" +:+ seconds +:+ "." +:+ ms)
  end.

(** [escapeCSV], lines 250-255. *)
Definition escapeCSV (value : string) : string :=
  if includesChar value "," || includesChar value QUOTE
     || includesChar value LF
  then String QUOTE
         (replaceAll value QUOTE (String QUOTE (String QUOTE EmptyString))
          +:+ String QUOTE EmptyString)
  else value.

Definition orEmpty (ts : option (list string)) : list string :=
  match ts with Some l => l | None => [] end.

(** One row of [exportToCSV], lines 259-269. *)
Definition csvRow `{TimeZone} `{NumberPrinter}
    (timezone : Timezone) (msg : RosoutMessage) : Exn (list string) :=
  (let! time := formatTimestamp (timestamp msg) timezone in
   Return [ toFixed6 (timestamp msg);
            time;
            escapeCSV (node msg);
            severityText (severity msg);
            escapeCSV (message msg);
            escapeCSV (or_string (file msg) EmptyString);
            String_of_Z (or_Z (line msg) 0);
            escapeCSV (or_string (function msg) EmptyString);
            escapeCSV (join ";" (orEmpty (topics msg))) ])%exn.

Definition csvHeaders : list string :=
  ["Timestamp"; "Time"; "Node"; "Severity"; "Message"; "File"; "Line";
   "Function"; "Topics"].

(** [exportToCSV], lines 257-271. *)
Definition exportToCSV `{TimeZone} `{NumberPrinter}
    (messages : list RosoutMessage) (timezone : Timezone) : Exn string :=
  (let! rows := Array_map (csvRow timezone) messages in
   Return (join NEWLINE
             (join "," csvHeaders :: List.map (fun row => join "," row) rows)))%exn.

(** One object of [exportToJSON], lines 274-284, as [JSON.stringify] sees
    it: its keys in the order of the literal. *)
Definition jsonRecord `{TimeZone} `{NumberPrinter}
    (timezone : Timezone) (msg : RosoutMessage) : Exn JSON :=
  (let! time := formatTimestamp (timestamp msg) timezone in
   Return (JObject
     [ ("timestamp", JSON_of_number (timestamp msg));
       ("time", JString time);
       ("node", JString (node msg));
       ("severity", match severityName (severity msg) with
                    | Some n => JString n
                    | None => JNumber (Numeral_of_Z (severity msg))
                    end);
       ("message", JString (message msg));
       ("file", JString (or_string (file msg) EmptyString));
       ("line", JNumber (Numeral_of_Z (or_Z (line msg) 0)));
       ("function", JString (or_string (function msg) EmptyString));
       ("topics", JArray (List.map JString (orEmpty (topics msg)))) ]))%exn.

(** [exportToJSON], lines 273-286. *)
Definition exportToJSON `{TimeZone} `{NumberPrinter}
    (messages : list RosoutMessage) (timezone : Timezone) : Exn string :=
  (let! exportData := Array_map (jsonRecord timezone) messages in
   Return (JSON_stringify (JArray exportData)))%exn.

(** One line of [exportToTXT], lines 289-296. *)
Definition txtLine `{TimeZone}
    (timezone : Timezone) (msg : RosoutMessage) : Exn string :=
  (let! time := formatTimestamp (timestamp msg) timezone in
   let severity := severityText (severity msg) in
   let location :=
     match file msg with
     | Some f =>
         if truthy f then f +:+ ":" +:+ String_of_Z (or_Z (line msg) 0)
         else EmptyString
     | None => EmptyString
     end in
   let line :=
     "[" +:+ time +:+ "] [" +:+ severity +:+ "] [" +:+ node msg +:+ "]: "
     +:+ message msg in
   Return (if truthy location then line +:+ " (" +:+ location +:+ ")"
           else line))%exn.

(** [exportToTXT], lines 288-297. *)
Definition exportToTXT `{TimeZone}
    (messages : list RosoutMessage) (timezone : Timezone) : Exn string :=
  (let! lines := Array_map (txtLine timezone) messages in
   Return (join NEWLINE lines))%exn.

(** What the callback of [readMessages] maintains: the node of a record is
    in the set unless it is the sentinel, and the set holds nodes of
    records only. *)
Definition nodesAccountedFor (acc : Loaded) : Prop :=
  (forall r, In r (messages acc) ->
             node r ∈ uniqueNodes acc \/ node r = "unknown") /\
  (forall n, n ∈ uniqueNodes acc ->
             exists r, In r (messages acc) /\ node r = n).

(** The timestamp of a record is a time value of [Date]: finite and, in
    milliseconds, at most 8.64e15 in magnitude. *)
Definition hasValidTime (msg : RosoutMessage) : bool :=
  match Date_new (PrimFloat.mul (timestamp msg) 1000%float) with
  | Some _ => true
  | None => false
  end.

(** The severities that have a name. *)
Definition knownSeverities : list Z := [1; 2; 4; 8; 16].

(** What holds of the records the loader makes from a bag of
    [rosgraph_msgs/Log] messages, the records the exports receive: the
    timestamp, [sec + nsec / 1e9] of the two uint32 of a bag time, is a
    time value of [Date]; the severity and the line, an int8 and a uint32,
    are safe integers. *)
Definition asLoaded (msg : RosoutMessage) : bool :=
  hasValidTime msg
  && isSafeInteger (severity msg)
  && isSafeInteger (default 0 (line msg)).

(** Copies of a filter with one field replaced. *)
Definition withFilterMode (mode : option string) (f : Filters) : Filters :=
  {| nodeNames := nodeNames f; severityLevels := severityLevels f;
     messageKeywords := messageKeywords f; messageRegex := messageRegex f;
     filterMode := mode; useRegex := useRegex f;
     startTime := startTime f; endTime := endTime f |}.

Definition withoutMessageRegex (f : Filters) : Filters :=
  {| nodeNames := nodeNames f; severityLevels := severityLevels f;
     messageKeywords := messageKeywords f; messageRegex := None;
     filterMode := filterMode f; useRegex := useRegex f;
     startTime := startTime f; endTime := endTime f |}.

Definition withoutMessageKeywords (f : Filters) : Filters :=
  {| nodeNames := nodeNames f; severityLevels := severityLevels f;
     messageKeywords := None; messageRegex := messageRegex f;
     filterMode := filterMode f; useRegex := useRegex f;
     startTime := startTime f; endTime := endTime f |}.

(** ** Notions the further properties are stated with *)

(** The record the callback of [readMessages] pushes for a result, lines
    121-135; [None] when it pushes none. *)
Definition recordOf (result : rosbag.ReadResult) : option RosoutMessage :=
  match rosbag.result_message result with
  | Some msg =>
      match rosbag.level msg, rosbag.msg msg with
      | Some level, Some text =>
          let stamp := rosbag.result_timestamp result in
          Some {|
            timestamp :=
              PrimFloat.add (rosbag.sec stamp)
                (PrimFloat.div (rosbag.nsec stamp) 1e9%float);
            node := or_string (rosbag.name msg) "unknown";
            severity := level;
            message := text;
            file := Some (or_string (rosbag.file msg) EmptyString);
            line := Some (or_Z (rosbag.line msg) 0);
            function := Some (or_string (rosbag.function msg) EmptyString);
            topics := Some (match rosbag.topics msg with
                            | Some ts => ts
                            | None => []
                            end)
          |}
      | _, _ => None
      end
  | None => None
  end.

(** More copies of a filter with one field replaced. *)
Definition withSeverityLevels (levels : option (gset Z)) (f : Filters)
  : Filters :=
  {| nodeNames := nodeNames f; severityLevels := levels;
     messageKeywords := messageKeywords f; messageRegex := messageRegex f;
     filterMode := filterMode f; useRegex := useRegex f;
     startTime := startTime f; endTime := endTime f |}.

Definition withNodeNames (names : option (gset string)) (f : Filters)
  : Filters :=
  {| nodeNames := names; severityLevels := severityLevels f;
     messageKeywords := messageKeywords f; messageRegex := messageRegex f;
     filterMode := filterMode f; useRegex := useRegex f;
     startTime := startTime f; endTime := endTime f |}.

Definition withMessageKeywords (ks : option (list (option string)))
    (f : Filters) : Filters :=
  {| nodeNames := nodeNames f; severityLevels := severityLevels f;
     messageKeywords := ks; messageRegex := messageRegex f;
     filterMode := filterMode f; useRegex := useRegex f;
     startTime := startTime f; endTime := endTime f |}.

Definition withMessageRegex (pattern : option string) (f : Filters)
  : Filters :=
  {| nodeNames := nodeNames f; severityLevels := severityLevels f;
     messageKeywords := messageKeywords f; messageRegex := pattern;
     filterMode := filterMode f; useRegex := useRegex f;
     startTime := startTime f; endTime := endTime f |}.

(** The nine values of a CSV row before escaping, lines 260-268. *)
Definition csvValues `{TimeZone} `{NumberPrinter}
    (time : string) (msg : RosoutMessage) : list string :=
  [ toFixed6 (timestamp msg);
    time;
    node msg;
    severityText (severity msg);
    message msg;
    default EmptyString (file msg);
    String_of_Z (default 0 (line msg));
    default EmptyString (function msg);
    join ";" (default [] (topics msg)) ].

(** A text without comma, quote and line feed: one [escapeCSV] leaves as
    it is. *)
Fixpoint plainText (s : string) : bool :=
  match s with
  | EmptyString => true
  | String c s' =>
      negb (Ascii.eqb c "," || Ascii.eqb c QUOTE || Ascii.eqb c LF)
      && plainText s'
  end.

End rosbagUtils.

(* ===================================================================== *)
(** * A reader of CSV text *)
(* ===================================================================== *)

(** The reader the CSV export is written for (RFC 4180): fields are
    separated by commas and records by line feeds; a field that starts
    with a quote runs to the next quote that is not doubled, and a doubled
    quote in it stands for one quote. *)
Module CSV.
Import JS.

(** The characters of a quoted field after its opening quote, and what
    follows its closing quote. *)
Fixpoint readQuoted (s : string) : option (string * string) :=
  match s with
  | EmptyString => None
  | String c s1 =>
      let continue (d : ascii) (rest : option (string * string)) :=
        match rest with
        | Some (field, r) => Some (String d field, r)
        | None => None
        end in
      if Ascii.eqb c QUOTE then
        match s1 with
        | String d s2 =>
            if Ascii.eqb d QUOTE then continue QUOTE (readQuoted s2)
            else Some (EmptyString, s1)
        | EmptyString => Some (EmptyString, s1)
        end
      else continue c (readQuoted s1)
  end.

(** A field without quotes: up to the next comma or line feed. *)
Fixpoint readRaw (s : string) : string * string :=
  match s with
  | EmptyString => (EmptyString, EmptyString)
  | String c s1 =>
      if Ascii.eqb c "," || Ascii.eqb c LF then (EmptyString, s)
      else let '(field, rest) := readRaw s1 in (String c field, rest)
  end.

Definition readField (s : string) : option (string * string) :=
  match s with
  | String c s1 => if Ascii.eqb c QUOTE then readQuoted s1 else Some (readRaw s)
  | EmptyString => Some (EmptyString, EmptyString)
  end.

(** The records of a text; [fuel] bounds the number of fields read. *)
Fixpoint readRecords (fuel : nat) (s : string) : option (list (list string)) :=
  match fuel with
  | O => None
  | S fuel' =>
      match readField s with
      | Some (field, rest) =>
          match rest with
          | EmptyString => Some [[field]]
          | String c rest' =>
              if Ascii.eqb c "," then
                match readRecords fuel' rest' with
                | Some (row :: rows) => Some ((field :: row) :: rows)
                | _ => None
                end
              else if Ascii.eqb c LF then
                match readRecords fuel' rest' with
                | Some rows => Some ([field] :: rows)
                | None => None
                end
              else None
          end
      | None => None
      end
  end.

Definition parse (text : string) : option (list (list string)) :=
  readRecords (S (String.length text)) text.

(** The text of records: what [exportToCSV] writes for rows of escaped
    fields. *)
Definition rowText (escape : string -> string) (row : list string) : string :=
  join "," (List.map escape row).

Definition recordsText (escape : string -> string) (rows : list (list string))
  : string :=
  join NEWLINE (List.map (rowText escape) rows).

End CSV.

(* ===================================================================== *)
(** * src/App.tsx *)
(* ===================================================================== *)

Module App.
Import JS types.

Record Statistics : Type := {
  severityCount : JSObject Z;
  topNodes : list (string * Z)
}.

(** [counts[key] = (counts[key] || 0) + 1].  The counts are numbers as
    long as the read finds an own property or nothing.  On a key that
    [Object.prototype] defines and the object does not, the read finds a
    function or an object, the sum is a string, and the count is no number
    any more: the embedding stops there ([None]). *)
Definition increment (counts : JSObject Z) (key : string)
  : option (JSObject Z) :=
  match obj_get counts key with
  | Some n => Some (obj_set counts key (or_Z (Some n) 0 + 1))
  | None =>
      if isInherited key then None
      else Some (obj_set counts key (or_Z None 0 + 1))
  end.

(** The body of the [forEach] of lines 127-130, on the two dictionaries.
    The key of [severityCount] is the property key of the number
    [msg.severity]: its numeral, for a safe integer. *)
Definition countMessage (acc : option (JSObject Z * JSObject Z))
    (msg : RosoutMessage) : option (JSObject Z * JSObject Z) :=
  match acc with
  | Some (severityCount, nodeCount) =>
      match increment severityCount (String_of_Z (severity msg)) with
      | Some severityCount' =>
          match increment nodeCount (node msg) with
          | Some nodeCount' => Some (severityCount', nodeCount')
          | None => None
          end
      | None => None
      end
  | None => None
  end.

(** [getStatistics], lines 123-137, of the records in [filteredMessages]. *)
Definition getStatistics (filteredMessages : list RosoutMessage)
  : option Statistics :=
  match fold_left countMessage filteredMessages (Some ([], [])) with
  | Some (severityCount, nodeCount) =>
      let topNodes :=
        firstn 5
          (Array_sort (fun '(_, a) '(_, b) => b - a)
             (Object_entries nodeCount)) in
      Some {| severityCount := severityCount; topNodes := topNodes |}
  | None => None
  end.

(** The order of first occurrence: each name once, where it first stands. *)
Fixpoint firstSeen (names : list string) : list string :=
  match names with
  | [] => []
  | n :: rest =>
      n :: List.filter (fun m => negb (String.eqb m n)) (firstSeen rest)
  end.

(** How often a name occurs. *)
Definition occurrences (names : list string) (n : string) : Z :=
  Z.of_nat (length (List.filter (String.eqb n) names)).

(** The names of a list with their numbers of occurrences, in the order
    of first occurrence. *)
Definition counted (names : list string) : list (string * Z) :=
  List.map (fun n => (n, occurrences names n)) (firstSeen names).

(** One dictionary of [countMessage], over the keys it is given. *)
Definition countKeys (keys : list string) (start : option (JSObject Z))
  : option (JSObject Z) :=
  fold_left
    (fun acc key => match acc with
                    | Some counts => increment counts key
                    | None => None
                    end)
    keys start.

End App.

(* ===================================================================== *)
(** * src/App.tsx: the handlers of the filter panel *)
(* ===================================================================== *)

Module AppState.
Import JS types.

Inductive FilterMode : Type := OR | AND.

Definition modeName (mode : FilterMode) : string :=
  match mode with OR => "OR" | AND => "AND" end.

(** The state the filter panel keeps (lines 22-27). *)
Record FilterState : Type := {
  selectedNodes : gset string;
  selectedSeverities : gset Z;
  keywords : string;
  regexPattern : string;
  useRegex : bool;
  filterMode : FilterMode
}.

(** [toggleNode] and [toggleSeverity], lines 103-121: the set handed to
    the setter. *)
Definition toggleNode (selected : gset string) (node : string) : gset string :=
  if bool_decide (node ∈ selected) then selected ∖ {[ node ]}
  else selected ∪ {[ node ]}.

Definition toggleSeverity (selected : gset Z) (severity : Z) : gset Z :=
  if bool_decide (severity ∈ selected) then selected ∖ {[ severity ]}
  else selected ∪ {[ severity ]}.

(** The filter [applyFilters] builds from the state, lines 65-72. *)
Definition filtersOf (st : FilterState) : rosbagUtils.Filters :=
  {| rosbagUtils.nodeNames :=
       if (0 <? size (selectedNodes st))%nat then Some (selectedNodes st)
       else None;
     rosbagUtils.severityLevels :=
       if (0 <? size (selectedSeverities st))%nat
       then Some (selectedSeverities st) else None;
     rosbagUtils.messageKeywords :=
       if truthy (keywords st)
       then Some (List.map (fun k => Some (trim k))
                    (String_split (keywords st) ","))
       else None;
     rosbagUtils.messageRegex :=
       if useRegex st then Some (regexPattern st) else None;
     rosbagUtils.filterMode := Some (modeName (filterMode st));
     rosbagUtils.useRegex := Some (useRegex st);
     rosbagUtils.startTime := None;
     rosbagUtils.endTime := None |}.

(** [applyFilters], lines 64-74: the list handed to
    [setFilteredMessages]. *)
Definition applyFilters `{RegExpEngine}
    (messages : list RosoutMessage) (st : FilterState)
  : Exn (list RosoutMessage) :=
  rosbagUtils.filterMessages messages (filtersOf st).

(** The handler of the button that clears the filters: the state it sets
    and the list it hands to [setFilteredMessages].  It leaves the mode
    and the regex switch as they are. *)
Definition clearFilters (messages : list RosoutMessage) (st : FilterState)
  : FilterState * list RosoutMessage :=
  ({| selectedNodes := ∅; selectedSeverities := ∅;
      keywords := EmptyString; regexPattern := EmptyString;
      useRegex := useRegex st; filterMode := filterMode st |},
   messages).

(** A copy of the state with other keywords. *)
Definition withKeywords (text : string) (st : FilterState) : FilterState :=
  {| selectedNodes := selectedNodes st;
     selectedSeverities := selectedSeverities st;
     keywords := text; regexPattern := regexPattern st;
     useRegex := useRegex st; filterMode := filterMode st |}.

(** [formatTime], lines 141-155, with the time zone of the state. *)
Definition formatTime `{TimeZone}
    (timezone : rosbagUtils.Timezone) (timestamp : float) : Exn string :=
  let date := Date_new (PrimFloat.mul timestamp 1000%float) in
  match timezone with
  | rosbagUtils.tz_utc =>
      (let! iso := Date_toISOString date in
       Return (String.substring 0 23 (replaceFirst iso "T" " ") +:+ " UTC"))%exn
  | rosbagUtils.tz_local =>
      let year := Date_getLocal date fullYear in
      let month :=
        padStart (String_of_number (plus1 (Date_getLocal date month))) 2 "0" in
      let day :=
        padStart (String_of_number (Date_getLocal date JS.date)) 2 "0" in
      let hours :=
        padStart (String_of_number (Date_getLocal date hours)) 2 "0" in
      let minutes :=
        padStart (String_of_number (Date_getLocal date minutes)) 2 "0" in
      let seconds :=
        padStart (String_of_number (Date_getLocal date seconds)) 2 "0" in
      let ms :=
        padStart (String_of_number (Date_getLocal date milliseconds)) 3 "0" in
      Return (String_of_number year +:+ "-" +:+ month +:+ "-" +:+ day +:+ " "
              +:+ hours +:+ ":" +:+ minutes +:+ ":" +:+ seconds +:+ "." +:+ ms)
  end.

(** The cell of the column [Level] of the message table, line 516:
    [{SEVERITY_NAMES[msg.severity]}], which renders nothing ([None]) when
    the severity has no name. *)
Definition levelCell (severity : Z) : option string :=
  types.SEVERITY_NAMES !! severity.

(** The rows of the message table, line 506, and the condition under
    which the note below the table is shown, line 527. *)
Definition tableRows (filteredMessages : list RosoutMessage)
  : list RosoutMessage :=
  firstn 100 filteredMessages.

Definition showsCountNote (filteredMessages : list RosoutMessage) : bool :=
  (100 <? length filteredMessages)%nat.

(** The rows of the panel [By Severity], line 397: the entries of
    [stats.severityCount]. *)
Definition severityRows (stats : App.Statistics) : list (string * Z) :=
  Object_entries (App.severityCount stats).

End AppState.

(* ===================================================================== *)
(** * A reference host, for running the embedding on concrete inputs *)
(* ===================================================================== *)

Module Reference.
Import JS.

(** The characters with a meaning of their own in a pattern. *)
Definition isSyntaxCharacter (c : ascii) : bool :=
  existsb (fun d => (code c =? code d)%N)
    (list_ascii_of_string "^$\.*+?()[]{}|/").

(** An engine for the patterns without syntax characters, which match
    themselves: it refuses every other pattern, among them the malformed
    ones (an unclosed group or class, a quantifier with nothing to
    repeat). *)
#[export] Instance literalEngine : RegExpEngine := {|
  RegExp := string;
  RegExp_compile_i pattern :=
    if existsb isSyntaxCharacter (list_ascii_of_string pattern)
    then None else Some (toLowerCase pattern);
  RegExp_test re text := includes (toLowerCase text) re
|}.

(** A time zone at a fixed offset from UTC, and the one of Tokyo. *)
Definition fixedOffset (offset : Z) : TimeZone := {| LocalTZA := fun _ => offset |}.

Definition tokyo : TimeZone := fixedOffset (9 * 3600000).

Fixpoint padZeros (n : nat) (d : Decimal.uint) : Decimal.uint :=
  match n with
  | O => d
  | S n' => D0 (padZeros n' d)
  end.

(** A printer that writes the exact value of a finite float in positional
    notation: what [Number::toString] prints for the timestamps used
    below, which have a few binary places (1000.5, 1002.25). *)
Definition exactDigits : NumberPrinter := {|
  Number_shortest x :=
    match Prim2SF x with
    | S754_finite negative m e =>
        if 0 <=? e then
          {| num_negative := negative; num_integer := Z.to_N (Zpos m * 2 ^ e);
             num_fraction := Nil; num_exponent := None |}
        else
          let k := Z.to_nat (- e) in
          let scaled := Z.to_N (Zpos m * 5 ^ (- e)) in
          let unit := (10 ^ N.of_nat k)%N in
          let r := N.to_uint (scaled mod unit) in
          let padded := padZeros (k - Decimal.nb_digits r) r in
          {| num_negative := negative; num_integer := (scaled / unit)%N;
             num_fraction := Decimal.rev (Decimal.nzhead (Decimal.rev padded));
             num_exponent := None |}
    | _ => Numeral_of_Z 0
    end
|}.

(** Records and filters to run the functions on. *)
Import types rosbagUtils.

Definition connFailed : RosoutMessage :=
  {| timestamp := 1000.5%float; node := "a"; severity := 8;
     message := "conn failed"; file := None; line := None;
     function := None; topics := None |}.

Definition allFine : RosoutMessage :=
  {| timestamp := 1001%float; node := "b"; severity := 2; message := "ok";
     file := Some "talker.cpp"; line := Some 42; function := Some "main";
     topics := Some ["/rosout"; "/chatter"] |}.

Definition level99 : RosoutMessage :=
  {| timestamp := 1002.25%float; node := "1"; severity := 99;
     message := "level 99"; file := None; line := None;
     function := None; topics := None |}.

Definition noFilter : Filters :=
  {| nodeNames := None; severityLevels := None; messageKeywords := None;
     messageRegex := None; filterMode := None; useRegex := None;
     startTime := None; endTime := None |}.

(** An unclosed group as the pattern, with the regex mode on. *)
Definition badRegex : Filters :=
  {| nodeNames := None; severityLevels := Some {[ 2 ]};
     messageKeywords := None; messageRegex := Some "(";
     filterMode := Some "AND"; useRegex := Some true;
     startTime := None; endTime := None |}.

(** What the interface passes for the keyword input [","]. *)
Definition blankKeywords : Filters :=
  {| nodeNames := None; severityLevels := Some {[ 2 ]};
     messageKeywords := Some [Some EmptyString; Some EmptyString];
     messageRegex := None; filterMode := Some "AND"; useRegex := Some false;
     startTime := None; endTime := None |}.

(** Errors only, from the time 1000.75 on. *)
Definition errorsLater : Filters :=
  {| nodeNames := None; severityLevels := Some {[ 8 ]};
     messageKeywords := None; messageRegex := None;
     filterMode := Some "OR"; useRegex := None;
     startTime := Some 1000.75%float; endTime := None |}.

(** A bag with one rosout connection and two messages, the second one
    without a name. *)
Definition talkerPayload : rosbag.Payload :=
  {| rosbag.level := Some 2; rosbag.msg := Some "hello";
     rosbag.name := Some "/talker"; rosbag.file := Some "talker.cpp";
     rosbag.line := Some 42; rosbag.function := Some "main";
     rosbag.topics := Some ["/rosout"] |}.

Definition namelessPayload : rosbag.Payload :=
  {| rosbag.level := Some 4; rosbag.msg := Some "who is this";
     rosbag.name := None; rosbag.file := None; rosbag.line := None;
     rosbag.function := None; rosbag.topics := None |}.

Definition rosoutBag : rosbag.Bag :=
  {| rosbag.header :=
       Some {| rosbag.indexPosition := 4117; rosbag.connectionCount := 1;
               rosbag.chunkCount := 1 |};
     rosbag.connections :=
       [(0, {| rosbag.conn := 0; rosbag.topic := "/rosout";
               rosbag.type := Some "rosgraph_msgs/Log" |})];
     rosbag.readMessages := fun _ =>
       ([ {| rosbag.result_topic := "/rosout";
             rosbag.result_timestamp :=
               {| rosbag.sec := 1000%float; rosbag.nsec := 500000000%float |};
             rosbag.result_message := Some talkerPayload |};
          {| rosbag.result_topic := "/rosout";
             rosbag.result_timestamp :=
               {| rosbag.sec := 1001%float; rosbag.nsec := 0%float |};
             rosbag.result_message := Some namelessPayload |} ],
        None) |}.

(** A bag written without an index. *)
Definition unindexedBag : rosbag.Bag :=
  {| rosbag.header :=
       Some {| rosbag.indexPosition := 0; rosbag.connectionCount := 0;
               rosbag.chunkCount := 0 |};
     rosbag.connections := [];
     rosbag.readMessages := fun _ => ([], None) |}.

Definition bagFile (name : string) : rosbag.File :=
  {| rosbag.file_name := name; rosbag.file_bytes := [] |}.

(** A reader that knows these two bags by the name of their file. *)
Definition twoBags : rosbag.Reader :=
  {| rosbag.Bag_open f :=
       if String.eqb (rosbag.file_name f) "unindexed.bag"
       then Return unindexedBag else Return rosoutBag |}.

(** A bag whose second message has the level 99 and the largest time a
    bag can hold, and a reader that opens it whatever the file. *)
Definition level99Payload : rosbag.Payload :=
  {| rosbag.level := Some 99; rosbag.msg := Some "level 99";
     rosbag.name := Some "/odd"; rosbag.file := None; rosbag.line := None;
     rosbag.function := None; rosbag.topics := None |}.

Definition level99Bag : rosbag.Bag :=
  {| rosbag.header :=
       Some {| rosbag.indexPosition := 4117; rosbag.connectionCount := 1;
               rosbag.chunkCount := 1 |};
     rosbag.connections :=
       [(0, {| rosbag.conn := 0; rosbag.topic := "/rosout";
               rosbag.type := Some "rosgraph_msgs/Log" |})];
     rosbag.readMessages := fun _ =>
       ([ {| rosbag.result_topic := "/rosout";
             rosbag.result_timestamp :=
               {| rosbag.sec := 1000%float; rosbag.nsec := 500000000%float |};
             rosbag.result_message := Some talkerPayload |};
          {| rosbag.result_topic := "/rosout";
             rosbag.result_timestamp :=
               {| rosbag.sec := 4294967295%float;
                  rosbag.nsec := 4294967295%float |};
             rosbag.result_message := Some level99Payload |} ],
        None) |}.

Definition level99Reader : rosbag.Reader :=
  {| rosbag.Bag_open _ := Return level99Bag |}.

(** A record whose node holds a quote and whose message holds a comma
    and a line feed; and [connFailed] with its absent fields set to what
    the loader writes for them. *)
Definition quotedRecord : RosoutMessage :=
  {| timestamp := 1003%float; node := String QUOTE "cam" +:+ String QUOTE EmptyString;
     severity := 4;
     message := "lost, retrying" +:+ String LF "gave up";
     file := Some "cam.cpp"; line := Some 7; function := None;
     topics := Some ["/rosout"] |}.

Definition connFailedLoaded : RosoutMessage :=
  {| timestamp := 1000.5%float; node := "a"; severity := 8;
     message := "conn failed"; file := Some EmptyString; line := Some 0;
     function := Some EmptyString; topics := Some [] |}.

(** Errors of node [a] that mention a failure, under ['AND']. *)
Definition errorsOfA : Filters :=
  {| nodeNames := Some {[ "a" ]}; severityLevels := Some {[ 8 ]};
     messageKeywords := Some [Some "FAILED"]; messageRegex := None;
     filterMode := Some "AND"; useRegex := Some false;
     startTime := None; endTime := None |}.

(** A bag of camera images only, and a bag whose second chunk does not
    decompress. *)
Definition cameraBag : rosbag.Bag :=
  {| rosbag.header :=
       Some {| rosbag.indexPosition := 9000; rosbag.connectionCount := 1;
               rosbag.chunkCount := 3 |};
     rosbag.connections :=
       [(0, {| rosbag.conn := 0; rosbag.topic := "/camera/image";
               rosbag.type := Some "sensor_msgs/Image" |})];
     rosbag.readMessages := fun _ => ([], None) |}.

Definition brokenBag : rosbag.Bag :=
  {| rosbag.header :=
       Some {| rosbag.indexPosition := 4117; rosbag.connectionCount := 1;
               rosbag.chunkCount := 2 |};
     rosbag.connections :=
       [(0, {| rosbag.conn := 0; rosbag.topic := "/rosout_agg";
               rosbag.type := None |})];
     rosbag.readMessages := fun _ =>
       ([ {| rosbag.result_topic := "/rosout_agg";
             rosbag.result_timestamp :=
               {| rosbag.sec := 1000%float; rosbag.nsec := 500000000%float |};
             rosbag.result_message := Some talkerPayload |} ],
        Some (DecodeError "bz2")) |}.

(** A reader that knows more bags, and no file named [missing.bag]. *)
Definition moreBags : rosbag.Reader :=
  {| rosbag.Bag_open f :=
       if String.eqb (rosbag.file_name f) "camera.bag" then Return cameraBag
       else if String.eqb (rosbag.file_name f) "broken.bag"
       then Return brokenBag
       else if String.eqb (rosbag.file_name f) "missing.bag"
       then Throw (DecodeError "not a bag")
       else Return rosoutBag |}.

(** A state of the filter panel. *)
Definition warningsOfTalker : AppState.FilterState :=
  {| AppState.selectedNodes := {[ "/talker" ]};
     AppState.selectedSeverities := {[ 4 ]};
     AppState.keywords := "hello"; AppState.regexPattern := "(";
     AppState.useRegex := false; AppState.filterMode := AppState.AND |}.

End Reference.

(* ===================================================================== *)
(** * Properties *)
(* ===================================================================== *)

Import JS types rosbagUtils App.

(** ** The exception monad *)

Lemma Array_filter_pure {A} (f : A -> Exn bool) (g : A -> bool) (l : list A) :
  (forall x, f x = Return (g x)) ->
  Array_filter f l = Return (List.filter g l).
Proof.
  intros Hfg. induction l as [|x l IH]; simpl; [reflexivity|].
  rewrite Hfg, IH. simpl. destruct (g x); reflexivity.
Qed.

(** ** filterMessages *)

Section Filter.
Context `{engine : RegExpEngine}.

Lemma messageCondition_total (filters : Filters) (msg : RosoutMessage) :
  exists cs, messageCondition filters msg = Return cs.
Proof.
  unfold messageCondition.
  destruct (regexBranch filters) as [pattern|].
  - unfold RegExp_new_i. destruct (RegExp_compile_i pattern); simpl; eauto.
  - destruct (keywordBranch filters) as [ks|]; [|eauto].
    destruct (0 <? length (normalizeKeywords ks))%nat; eauto.
Qed.

Lemma conditionsOf_total (filters : Filters) (msg : RosoutMessage) :
  exists cs, conditionsOf filters msg = Return cs.
Proof.
  unfold conditionsOf.
  destruct (messageCondition_total filters msg) as [cs ->]. simpl. eauto.
Qed.

Lemma keepMessage_keeps (filters : Filters) (msg : RosoutMessage) :
  keepMessage filters msg = Return (keeps filters msg).
Proof.
  unfold keeps, keepMessage.
  destruct (conditionsOf_total filters msg) as [cs ->]. simpl.
  destruct (beforeStart filters msg); [reflexivity|].
  destruct (afterEnd filters msg); [reflexivity|].
  destruct (length cs =? 0)%nat; [reflexivity|].
  destruct (bool_decide _); reflexivity.
Qed.

Lemma filterMessages_filter (messages : list RosoutMessage) (filters : Filters) :
  filterMessages messages filters = Return (List.filter (keeps filters) messages).
Proof. apply Array_filter_pure, keepMessage_keeps. Qed.

Lemma conditionsOf_withFilterMode mode (filters : Filters) (msg : RosoutMessage) :
  conditionsOf (withFilterMode mode filters) msg = conditionsOf filters msg.
Proof. reflexivity. Qed.

Lemma forallb_existsb_nonempty (cs : list bool) :
  cs <> [] -> forallb (fun c => c) cs = true -> existsb (fun c => c) cs = true.
Proof.
  destruct cs as [|c cs]; [congruence|]. simpl. intros _ Hall.
  apply andb_true_iff in Hall as [-> _]. reflexivity.
Qed.

Lemma keeps_AND_OR (filters : Filters) (msg : RosoutMessage) :
  keeps (withFilterMode (Some "AND") filters) msg = true ->
  keeps (withFilterMode (Some "OR") filters) msg = true.
Proof.
  unfold keeps, keepMessage. rewrite !conditionsOf_withFilterMode.
  destruct (conditionsOf_total filters msg) as [cs ->]. simpl.
  unfold beforeStart, afterEnd. simpl.
  destruct (match startTime filters with Some _ => _ | None => _ end); [easy|].
  destruct (match endTime filters with Some _ => _ | None => _ end); [easy|].
  destruct (length cs =? 0)%nat eqn:Hlen; [easy|].
  apply Nat.eqb_neq in Hlen.
  apply forallb_existsb_nonempty. intros ->. apply Hlen. reflexivity.
Qed.

Lemma filter_sublist {A} (p q : A -> bool) (l : list A) :
  (forall x, p x = true -> q x = true) ->
  sublist (List.filter p l) (List.filter q l).
Proof.
  intros Hpq. induction l as [|x l IH]; simpl; [constructor|].
  destruct (p x) eqn:Hp.
  - rewrite (Hpq x Hp). by constructor.
  - destruct (q x); [by constructor | exact IH].
Qed.

Lemma normalizeKeywords_blank (ks : list (option string)) :
  Forall (fun k => trim (match k with Some s => s | None => EmptyString end)
                   = EmptyString) ks ->
  normalizeKeywords ks = [].
Proof.
  unfold normalizeKeywords. intros Hblank.
  induction Hblank as [|k ks Hk _ IH]; [reflexivity|].
  simpl. rewrite Hk. simpl. exact IH.
Qed.

Lemma messageCondition_bad_regex (filters : Filters) (msg : RosoutMessage) pattern :
  messageRegex filters = Some pattern ->
  RegExp_compile_i pattern = None ->
  messageCondition filters msg
  = messageCondition (withoutMessageRegex filters) msg.
Proof.
  intros Hre Hbad. unfold messageCondition, regexBranch, keywordBranch.
  unfold useRegex_truthy. simpl. rewrite Hre.
  destruct (useRegex filters) as [[|]|]; simpl; try reflexivity.
  destruct (truthy pattern && truthy (trim pattern)); simpl; [|reflexivity].
  unfold RegExp_new_i. rewrite Hbad. reflexivity.
Qed.

Lemma messageCondition_blank_keywords (filters : Filters) (msg : RosoutMessage) ks :
  messageKeywords filters = Some ks ->
  normalizeKeywords ks = [] ->
  messageCondition filters msg
  = messageCondition (withoutMessageKeywords filters) msg.
Proof.
  intros Hks Hblank. unfold messageCondition, regexBranch, keywordBranch.
  unfold useRegex_truthy. simpl. rewrite Hks.
  destruct (useRegex filters) as [[|]|]; simpl; try reflexivity;
    destruct (0 <? length ks)%nat; simpl; try reflexivity;
    rewrite Hblank; reflexivity.
Qed.

Lemma filterMessages_ext (messages : list RosoutMessage) (f g : Filters) :
  (forall msg, keepMessage f msg = keepMessage g msg) ->
  filterMessages messages f = filterMessages messages g.
Proof.
  intros Hfg. unfold filterMessages.
  induction messages as [|m ms IH]; simpl; [reflexivity|].
  rewrite Hfg, IH. reflexivity.
Qed.

(** C1.  [filterMessages] returns on every record list and every filter:
    it never throws.  A pattern that does not compile contributes no
    condition: the result is the one of the filter without [messageRegex].
    A keyword list whose entries are all empty once trimmed contributes
    no condition either: the result is the one of the filter without
    [messageKeywords]. *)
Theorem filterMessages_total_degrades
    (messages : list RosoutMessage) (filters : Filters) :
  (exists out, filterMessages messages filters = Return out) /\
  (forall pattern,
      messageRegex filters = Some pattern ->
      RegExp_compile_i pattern = None ->
      filterMessages messages filters
      = filterMessages messages (withoutMessageRegex filters)) /\
  (forall ks,
      messageKeywords filters = Some ks ->
      Forall (fun k => trim (match k with Some s => s | None => EmptyString end)
                       = EmptyString) ks ->
      filterMessages messages filters
      = filterMessages messages (withoutMessageKeywords filters)).
Proof.
  split; [|split].
  - rewrite filterMessages_filter. eauto.
  - intros pattern Hre Hbad. apply filterMessages_ext. intros msg.
    unfold keepMessage, conditionsOf.
    rewrite (messageCondition_bad_regex filters msg pattern Hre Hbad).
    reflexivity.
  - intros ks Hks Hblank. apply filterMessages_ext. intros msg.
    unfold keepMessage, conditionsOf.
    rewrite (messageCondition_blank_keywords filters msg ks Hks
               (normalizeKeywords_blank ks Hblank)).
    reflexivity.
Qed.

(** C2.  With no node names, no severity levels, no keywords, no pattern
    and no time bounds, [filterMessages] returns the records it was given,
    all of them and in their order. *)
Theorem filterMessages_empty_filters
    (messages : list RosoutMessage) (filters : Filters) :
  (nodeNames filters = None \/ nodeNames filters = Some ∅) ->
  (severityLevels filters = None \/ severityLevels filters = Some ∅) ->
  (messageKeywords filters = None \/ messageKeywords filters = Some []) ->
  (messageRegex filters = None \/ messageRegex filters = Some EmptyString) ->
  startTime filters = None ->
  endTime filters = None ->
  filterMessages messages filters = Return messages.
Proof.
  intros Hnodes Hsev Hkw Hre Hstart Hend.
  assert (Hkeep : forall msg, keepMessage filters msg = Return true).
  { intros msg.
    unfold keepMessage, conditionsOf, messageCondition, regexBranch,
      keywordBranch, severityCondition, nodeCondition, beforeStart, afterEnd.
    rewrite Hstart, Hend.
    destruct Hnodes as [-> | ->], Hsev as [-> | ->], Hkw as [-> | ->],
      Hre as [-> | ->]; destruct (useRegex_truthy filters); reflexivity. }
  unfold filterMessages.
  induction messages as [|m ms IH]; simpl; [reflexivity|].
  rewrite Hkeep, IH. reflexivity.
Qed.

(** C3.  Two filters that differ in [filterMode] only: every record kept
    under ['AND'] is kept under ['OR'], and in the same relative order. *)
Theorem filterMessages_AND_within_OR
    (messages : list RosoutMessage) (filters : Filters) :
  exists kept_and kept_or,
    filterMessages messages (withFilterMode (Some "AND") filters)
      = Return kept_and /\
    filterMessages messages (withFilterMode (Some "OR") filters)
      = Return kept_or /\
    sublist kept_and kept_or /\
    (forall r, In r kept_and -> In r kept_or).
Proof.
  exists (List.filter (keeps (withFilterMode (Some "AND") filters)) messages),
         (List.filter (keeps (withFilterMode (Some "OR") filters)) messages).
  split; [apply filterMessages_filter|].
  split; [apply filterMessages_filter|].
  split.
  - apply filter_sublist, keeps_AND_OR.
  - intros r Hin. apply filter_In in Hin as [Hin Hk].
    apply filter_In. split; [exact Hin | by apply keeps_AND_OR].
Qed.

(** C4.  A record whose timestamp is below a set [startTime], or above a
    set [endTime], is not in the result, whatever [filterMode] and the
    other fields of the filter are. *)
Theorem filterMessages_time_bounds
    (messages : list RosoutMessage) (filters : Filters) (r : RosoutMessage) :
  (exists t0, startTime filters = Some t0 /\
              PrimFloat.ltb (timestamp r) t0 = true) \/
  (exists t1, endTime filters = Some t1 /\
              PrimFloat.ltb t1 (timestamp r) = true) ->
  exists out, filterMessages messages filters = Return out /\ ~ In r out.
Proof.
  intros Hout. eexists. split; [apply filterMessages_filter|].
  intros Hin. apply filter_In in Hin as [_ Hk].
  unfold keeps, keepMessage in Hk.
  destruct (conditionsOf_total filters r) as [cs Hcs]. rewrite Hcs in Hk.
  simpl in Hk. unfold beforeStart, afterEnd in Hk.
  destruct Hout as [(t0 & H0 & Hlt) | (t1 & H1 & Hlt)].
  - rewrite H0, Hlt in Hk. discriminate.
  - rewrite H1, Hlt in Hk.
    destruct (match startTime filters with Some _ => _ | None => _ end);
      discriminate.
Qed.

(** C10, as the code has it.  When [filterMode] is not ['AND'], a record
    that has at least one condition is kept exactly when it is within the
    time bounds and one of its conditions holds. *)
Theorem filterMessages_default_OR
    (messages : list RosoutMessage) (filters : Filters) :
  filterMode filters <> Some "AND" ->
  exists out,
    filterMessages messages filters = Return out /\
    forall r conditions,
      conditionsOf filters r = Return conditions ->
      conditions <> [] ->
      (In r out <->
       In r messages /\
       beforeStart filters r = false /\ afterEnd filters r = false /\
       Exists (fun c => c = true) conditions).
Proof.
  intros Hmode. eexists. split; [apply filterMessages_filter|].
  intros r cs Hcs Hne. rewrite filter_In.
  assert (Hk : keeps filters r = true <->
               beforeStart filters r = false /\ afterEnd filters r = false /\
               Exists (fun c => c = true) cs).
  { unfold keeps, keepMessage. rewrite Hcs. simpl.
    destruct (beforeStart filters r); [split; [discriminate | intros [? _]; discriminate]|].
    destruct (afterEnd filters r); [split; [discriminate | intros (_ & ? & _); discriminate]|].
    destruct (length cs =? 0)%nat eqn:Hlen.
    { apply Nat.eqb_eq in Hlen. destruct cs; [congruence | discriminate]. }
    rewrite bool_decide_eq_false_2 by exact Hmode.
    rewrite existsb_exists, Exists_exists.
    split.
    - intros (c & Hin & Hc). split; [reflexivity|]. split; [reflexivity|].
      exists c. split; [by apply list_elem_of_In | exact Hc].
    - intros (_ & _ & c & Hin & Hc). exists c.
      split; [by apply list_elem_of_In | exact Hc]. }
  rewrite Hk. reflexivity.
Qed.

End Filter.

(** ** loadRosbagMessages *)

Lemma onResult_recordOf (acc : Loaded) (result : rosbag.ReadResult) :
  messages (onResult acc result)
  = messages acc ++ match recordOf result with Some r => [r] | None => [] end.
Proof.
  unfold onResult, recordOf.
  destruct (rosbag.result_message result) as [payload|];
    [|by rewrite app_nil_r].
  destruct (rosbag.level payload) as [level|]; [|by rewrite app_nil_r].
  destruct (rosbag.msg payload) as [text|]; [|by rewrite app_nil_r].
  reflexivity.
Qed.

Lemma fold_onResult_recordOf (results : list rosbag.ReadResult) :
  forall acc,
    messages (fold_left onResult results acc)
    = messages acc ++ omap recordOf results.
Proof.
  induction results as [|result results IH]; intros acc; simpl.
  - by rewrite app_nil_r.
  - rewrite IH, onResult_recordOf, <- app_assoc. f_equal.
    by destruct (recordOf result).
Qed.

Lemma truthy_nonempty (s : string) : truthy s = true -> s <> EmptyString.
Proof. by destruct s. Qed.

Lemma truthy_iff (s : string) : truthy s = true <-> s <> EmptyString.
Proof. destruct s; simpl; split; (done || discriminate). Qed.

(** What the callback adds to [uniqueNodes] for a result: the name of its
    payload, when the payload gives a record and has a name that is not
    empty. *)
Lemma onResult_uniqueNodes (acc : Loaded) (result : rosbag.ReadResult)
    (n : string) :
  n ∈ uniqueNodes (onResult acc result) <->
  n ∈ uniqueNodes acc \/
  exists payload,
    rosbag.result_message result = Some payload /\
    is_Some (recordOf result) /\
    rosbag.name payload = Some n /\ n <> EmptyString.
Proof.
  unfold onResult, recordOf.
  destruct (rosbag.result_message result) as [payload|];
    [|split; [by left | intros [Hn | (p & [=] & _)]; exact Hn]].
  destruct (rosbag.level payload) as [level|];
    [|split; [by left
             | intros [Hn | (p & _ & [r [=]] & _)]; exact Hn]].
  destruct (rosbag.msg payload) as [text|];
    [|split; [by left
             | intros [Hn | (p & _ & [r [=]] & _)]; exact Hn]].
  cbn [uniqueNodes].
  destruct (rosbag.name payload) as [m|] eqn:Hname.
  - destruct (truthy m) eqn:Hm.
    + rewrite elem_of_union, elem_of_singleton. split.
      * intros [Hn | ->]; [by left | right]. exists payload.
        split; [reflexivity|]. split; [eauto|].
        split; [exact Hname | by apply truthy_iff].
      * intros [Hn | (p & [= <-] & _ & Hp & _)]; [by left | right]. congruence.
    + split; [by left|]. intros [Hn | (p & [= <-] & _ & Hp & Hne)]; [exact Hn|].
      rewrite Hname in Hp. injection Hp as ->.
      apply truthy_iff in Hne. congruence.
  - split; [by left|]. intros [Hn | (p & [= <-] & _ & Hp & _)]; [exact Hn|].
    congruence.
Qed.

Lemma fold_onResult_uniqueNodes (results : list rosbag.ReadResult) :
  forall (acc : Loaded) (n : string),
    n ∈ uniqueNodes (fold_left onResult results acc) <->
    n ∈ uniqueNodes acc \/
    exists result payload,
      In result results /\
      rosbag.result_message result = Some payload /\
      is_Some (recordOf result) /\
      rosbag.name payload = Some n /\ n <> EmptyString.
Proof.
  induction results as [|result results IH]; intros acc n; simpl.
  - split; [by left | intros [Hn | (r & p & [] & _)]; exact Hn].
  - rewrite IH, onResult_uniqueNodes. split.
    + intros [[Hn | (p & Hp)] | (r & p & Hin & Hp)].
      * by left.
      * right. exists result, p. split; [by left | exact Hp].
      * right. exists r, p. split; [by right | exact Hp].
    + intros [Hn | (r & p & [<- | Hin] & Hp)].
      * left. by left.
      * left. right. by exists p.
      * right. by exists r, p.
Qed.

Section Load.
Context `{reader : rosbag.Reader}.

(** C7.  A container whose header reports [indexPosition = 0],
    [connectionCount = 0] and [chunkCount = 0] is refused with the
    unindexed-container error: the only call made on the reader is the one
    that opened the bag, no connection is enumerated, no message is read
    and no record is returned. *)
Theorem loadRosbagMessages_unindexed
    (file : rosbag.File) (bag : rosbag.Bag) (h : rosbag.BagHeader) :
  rosbag.Bag_open file = Return bag ->
  rosbag.header bag = Some h ->
  rosbag.indexPosition h = 0 ->
  rosbag.connectionCount h = 0 ->
  rosbag.chunkCount h = 0 ->
  loadRosbagMessages file
  = ([rosbag.CallOpen],
     Throw (UnindexedContainerError (rosbag.file_name file))).
Proof.
  intros Hopen Hheader Hindex Hconn Hchunk.
  unfold loadRosbagMessages, isUnindexed.
  rewrite Hopen, Hheader, Hindex, Hconn, Hchunk. reflexivity.
Qed.

Lemma onResult_nodesAccountedFor (acc : Loaded) (result : rosbag.ReadResult) :
  nodesAccountedFor acc -> nodesAccountedFor (onResult acc result).
Proof.
  intros [Hrec Hset]. unfold onResult.
  destruct (rosbag.result_message result) as [payload|]; [|by split].
  destruct (rosbag.level payload) as [level|]; [|by split].
  destruct (rosbag.msg payload) as [text|]; [|by split].
  split; simpl.
  - intros r Hin. apply in_app_or in Hin as [Hin | [<- | []]].
    + destruct (Hrec r Hin) as [Hmem | Hunk]; [left | by right].
      destruct (rosbag.name payload) as [n|]; [|exact Hmem].
      destruct (truthy n); [set_solver | exact Hmem].
    + simpl. unfold or_string.
      destruct (rosbag.name payload) as [n|]; [|by right].
      destruct (truthy n); [left; set_solver | by right].
  - intros n Hn.
    assert (Hold : forall extra, n ∈ uniqueNodes acc ->
                   exists r, In r (messages acc ++ extra) /\ node r = n).
    { intros extra Hmem. destruct (Hset n Hmem) as (r & Hin & Hr).
      exists r. split; [apply in_or_app; by left | exact Hr]. }
    destruct (rosbag.name payload) as [m|] eqn:Hname; [|by apply Hold].
    destruct (truthy m) eqn:Htruthy; [|by apply Hold].
    apply elem_of_union in Hn as [Hn | Hn]; [by apply Hold|].
    apply elem_of_singleton in Hn as ->.
    eexists. split; [apply in_or_app; right; left; reflexivity|].
    simpl. unfold or_string. rewrite Htruthy. reflexivity.
Qed.

Lemma fold_onResult_nodesAccountedFor (results : list rosbag.ReadResult) :
  forall acc, nodesAccountedFor acc ->
              nodesAccountedFor (fold_left onResult results acc).
Proof.
  induction results as [|result results IH]; intros acc Hacc; [exact Hacc|].
  simpl. apply IH, onResult_nodesAccountedFor, Hacc.
Qed.

(** C8, as the code has it.  After a successful load, [uniqueNodes] is
    exactly the set of the names, other than the empty one, of the
    payloads that gave a record: nothing is added for a payload without a
    name, whose record carries the sentinel ["unknown"], and the sentinel
    is a member only when a payload is named so.  The node of a record is
    the name of its payload, and then a member of [uniqueNodes], or it is
    the sentinel; and every member of [uniqueNodes] is the node of a
    returned record. *)
Theorem loadRosbagMessages_uniqueNodes
    (file : rosbag.File) (calls : list rosbag.ReaderCall) (loaded : Loaded) :
  loadRosbagMessages file = (calls, Return loaded) ->
  exists bag results,
    rosbag.Bag_open file = Return bag /\
    rosbag.readMessages bag (findRosoutTopics bag) = (results, None) /\
    messages loaded = omap recordOf results /\
    (forall result r,
        In result results -> recordOf result = Some r ->
        exists payload,
          rosbag.result_message result = Some payload /\
          match rosbag.name payload with
          | Some n =>
              if truthy n then node r = n /\ n ∈ uniqueNodes loaded
              else node r = "unknown"
          | None => node r = "unknown"
          end) /\
    (forall n,
        n ∈ uniqueNodes loaded <->
        exists result payload,
          In result results /\
          rosbag.result_message result = Some payload /\
          is_Some (recordOf result) /\
          rosbag.name payload = Some n /\ n <> EmptyString) /\
    (forall r, In r (messages loaded) ->
               node r ∈ uniqueNodes loaded \/ node r = "unknown") /\
    (forall n, n ∈ uniqueNodes loaded ->
               exists r, In r (messages loaded) /\ node r = n).
Proof.
  unfold loadRosbagMessages.
  destruct (rosbag.Bag_open file) as [bag|e]; [|intros [=]].
  destruct (isUnindexed bag); [intros [=]|].
  destruct (length (findRosoutTopics bag) =? 0)%nat; [intros [=]|].
  destruct (rosbag.readMessages bag (findRosoutTopics bag))
    as [results [e|]] eqn:Hread; intros [= _ <-].
  set (start := {| messages := []; uniqueNodes := ∅ |}).
  assert (Hset : forall n,
             n ∈ uniqueNodes (fold_left onResult results start) <->
             exists result payload,
               In result results /\
               rosbag.result_message result = Some payload /\
               is_Some (recordOf result) /\
               rosbag.name payload = Some n /\ n <> EmptyString).
  { intros n. rewrite fold_onResult_uniqueNodes. split.
    - intros [Hn | Hn]; [by apply elem_of_empty in Hn | exact Hn].
    - intros Hn. by right. }
  assert (Haccounted : nodesAccountedFor (fold_left onResult results start)).
  { apply fold_onResult_nodesAccountedFor.
    split; simpl; [intros r [] | intros n Hn; by apply elem_of_empty in Hn]. }
  exists bag, results.
  split; [reflexivity|]. split; [exact Hread|].
  split; [by rewrite fold_onResult_recordOf|].
  split; [|split; [exact Hset | exact Haccounted]].
  intros result r Hin Hrec. unfold recordOf in Hrec.
  destruct (rosbag.result_message result) as [payload|] eqn:Hpayload;
    [|discriminate].
  exists payload. split; [reflexivity|].
  destruct (rosbag.level payload) as [level|] eqn:Hlevel; [|discriminate].
  destruct (rosbag.msg payload) as [text|] eqn:Htext; [|discriminate].
  injection Hrec as <-. cbn [node]. unfold or_string.
  destruct (rosbag.name payload) as [n|] eqn:Hname; [|reflexivity].
  destruct (truthy n) eqn:Hn; [|reflexivity].
  split; [reflexivity|]. apply Hset. exists result, payload.
  split; [exact Hin|]. split; [exact Hpayload|].
  split; [unfold recordOf; rewrite Hpayload, Hlevel, Htext; eauto|].
  split; [exact Hname | by apply truthy_iff].
Qed.

End Load.

(** ** Strings *)

Lemma append_nil_r (s : string) : s +:+ EmptyString = s.
Proof. induction s as [|c s IH]; simpl; [reflexivity | f_equal; exact IH]. Qed.

Lemma append_assoc (a b c : string) : (a +:+ b) +:+ c = a +:+ (b +:+ c).
Proof. induction a as [|x a IH]; simpl; [reflexivity | f_equal; exact IH]. Qed.

Lemma length_append (a b : string) :
  String.length (a +:+ b) = (String.length a + String.length b)%nat.
Proof. induction a as [|x a IH]; simpl; [reflexivity | f_equal; exact IH]. Qed.

(** ** The exports *)

Lemma Array_map_Forall2 {A B} (f : A -> Exn B) (P : A -> B -> Prop) (l : list A) :
  (forall x, In x l -> exists y, f x = Return y /\ P x y) ->
  exists ys, Array_map f l = Return ys /\ Forall2 P l ys.
Proof.
  induction l as [|x l IH]; intros Hf; simpl.
  - exists []. split; [reflexivity | constructor].
  - destruct (Hf x (or_introl eq_refl)) as (y & -> & Hy).
    destruct IH as (ys & -> & Hys).
    { intros x' Hin. apply Hf. by right. }
    exists (y :: ys). split; [reflexivity | by constructor].
Qed.

Lemma digits_of_N_head (n : N) :
  exists c s, digits_of_N n = String c s /\
              In c (list_ascii_of_string "0123456789").
Proof.
  unfold digits_of_N.
  destruct (N.to_uint n) as [|u|u|u|u|u|u|u|u|u|u]; simpl;
    eexists _, _; (split; [reflexivity | tauto]).
Qed.

(** A numeral starts with a digit or with the minus sign. *)
Lemma String_of_Z_head (z : Z) :
  exists c s, String_of_Z z = String c s /\
              In c (list_ascii_of_string "-0123456789").
Proof.
  unfold String_of_Z, Numeral_toString, Numeral_of_Z. simpl.
  destruct (digits_of_N_head (Z.abs_N z)) as (c & s & -> & Hc).
  destruct (z <? 0); simpl.
  - eexists _, _. split; [reflexivity | by left].
  - eexists _, _. split; [reflexivity | by right].
Qed.


Lemma String_of_Z_not_a_name (z : Z) (k : Z) (name : string) :
  SEVERITY_NAMES !! k = Some name -> String_of_Z z <> name.
Proof.
  intros Hname Heq.
  destruct (String_of_Z_head z) as (c & s & Hs & Hc).
  rewrite <- Heq, Hs in Hname. clear Heq Hs.
  unfold SEVERITY_NAMES in Hname.
  repeat (apply lookup_insert_Some in Hname as [[_ Hname] | [_ Hname]];
          [injection Hname as <- _; simpl in Hc; intuition discriminate|]).
  apply lookup_singleton_Some in Hname as [_ Hname].
  injection Hname as <- _. simpl in Hc. intuition discriminate.
Qed.

Lemma isInherited_numeral (z : Z) : isInherited (String_of_Z z) = false.
Proof.
  destruct (String_of_Z_head z) as (c & s & -> & Hc).
  simpl in Hc.
  repeat (destruct Hc as [<- | Hc]; [reflexivity|]). contradiction.
Qed.

Lemma severityName_unknown (z : Z) :
  ~ In z knownSeverities -> severityName z = None.
Proof.
  intros Hz. unfold severityName, SEVERITY_NAMES.
  rewrite !lookup_insert_ne, lookup_singleton_ne; [reflexivity|..];
    intros <-; apply Hz; simpl; tauto.
Qed.

Section Exports.
Context `{zone : TimeZone} `{printer : NumberPrinter}.

Lemma formatTimestamp_local (t : float) :
  exists time, formatTimestamp t tz_local = Return time.
Proof. unfold formatTimestamp. eauto. Qed.

Lemma formatTimestamp_utc (t : float) :
  Date_new (PrimFloat.mul t 1000%float) <> None ->
  exists time, formatTimestamp t tz_utc = Return time.
Proof.
  unfold formatTimestamp. intros Hvalid.
  destruct (Date_new _); [simpl; eauto | congruence].
Qed.

Lemma formatTimestamp_returns (tz : Timezone) (msg : RosoutMessage) :
  tz = tz_local \/ hasValidTime msg = true ->
  exists time, formatTimestamp (timestamp msg) tz = Return time.
Proof.
  destruct tz; [intros _; apply formatTimestamp_local|].
  intros [[=] | Hvalid]. apply formatTimestamp_utc.
  unfold hasValidTime in Hvalid. destruct (Date_new _); congruence.
Qed.

Lemma asLoaded_hasValidTime (msg : RosoutMessage) :
  asLoaded msg = true -> hasValidTime msg = true.
Proof.
  unfold asLoaded. intros Hmsg.
  apply andb_true_iff in Hmsg as [Hmsg _].
  by apply andb_true_iff in Hmsg as [Hmsg _].
Qed.

Lemma asLoaded_formatTimestamp (tz : Timezone) (messages : list RosoutMessage) :
  Forall (fun msg => asLoaded msg = true) messages ->
  forall msg, In msg messages ->
              exists time, formatTimestamp (timestamp msg) tz = Return time.
Proof.
  intros Hloaded msg Hin. apply formatTimestamp_returns. right.
  rewrite List.Forall_forall in Hloaded.
  by apply asLoaded_hasValidTime, Hloaded.
Qed.


End Exports.

(** ** Array.prototype.sort *)

Section Sort.
Context {A : Type} (compare : A -> A -> Z) (key : A -> Z).
Hypothesis compare_key :
  forall x y, (compare x y <=? 0) = (key x <=? key y).

Lemma sort_insert_perm (x : A) (l : list A) :
  Permutation (sort_insert compare x l) (x :: l).
Proof.
  induction l as [|y l IH]; simpl; [reflexivity|].
  destruct (compare x y <=? 0); [reflexivity|].
  rewrite IH. apply perm_swap.
Qed.

Lemma Array_sort_perm (l : list A) : Permutation (Array_sort compare l) l.
Proof.
  induction l as [|x l IH]; simpl; [reflexivity|].
  rewrite sort_insert_perm. by constructor.
Qed.

Lemma sort_insert_sorted (x : A) (l : list A) :
  StronglySorted (fun a b => key a <= key b) l ->
  StronglySorted (fun a b => key a <= key b) (sort_insert compare x l).
Proof.
  induction 1 as [|y l Hl IH Hy]; simpl.
  - repeat constructor.
  - rewrite compare_key. destruct (key x <=? key y) eqn:Hxy.
    + apply Z.leb_le in Hxy. constructor; [by constructor|].
      constructor; [exact Hxy|].
      rewrite List.Forall_forall in Hy |- *. intros z Hz.
      specialize (Hy z Hz). lia.
    + apply Z.leb_gt in Hxy. constructor; [exact IH|].
      rewrite List.Forall_forall in Hy |- *. intros z Hz.
      apply (Permutation_in _ (sort_insert_perm x l)) in Hz as [<- | Hz];
        [lia | by apply Hy].
Qed.

Lemma Array_sort_sorted (l : list A) :
  StronglySorted (fun a b => key a <= key b) (Array_sort compare l).
Proof.
  induction l as [|x l IH]; simpl; [constructor|].
  by apply sort_insert_sorted.
Qed.

(** Stability: the elements of one key keep their order. *)
Lemma sort_insert_stable (x : A) (l : list A) (k : Z) :
  List.filter (fun e => key e =? k) (sort_insert compare x l)
  = List.filter (fun e => key e =? k) (x :: l).
Proof.
  induction l as [|y l IH]; [reflexivity|].
  simpl sort_insert. rewrite compare_key.
  destruct (key x <=? key y) eqn:Hxy; [reflexivity|].
  apply Z.leb_gt in Hxy. simpl in IH |- *. rewrite IH.
  destruct (key x =? k) eqn:Hx, (key y =? k) eqn:Hy; try reflexivity.
  apply Z.eqb_eq in Hx, Hy. lia.
Qed.

Lemma Array_sort_stable (l : list A) (k : Z) :
  List.filter (fun e => key e =? k) (Array_sort compare l)
  = List.filter (fun e => key e =? k) l.
Proof.
  induction l as [|x l IH]; [reflexivity|].
  simpl Array_sort. rewrite sort_insert_stable. simpl. by rewrite IH.
Qed.

End Sort.

(** ** Objects *)

Lemma ownKeyOrder_no_index {V} (o : list (string * V)) :
  Forall (fun e => isArrayIndex (fst e) = false) o -> ownKeyOrder o = o.
Proof.
  intros Hno. unfold ownKeyOrder.
  assert (Hidx : List.filter (fun e => isArrayIndex (fst e)) o = []).
  { induction Hno as [|e o He _ IH]; simpl; [reflexivity|]. by rewrite He. }
  assert (Hrest : List.filter (fun e => negb (isArrayIndex (fst e))) o = o).
  { clear Hidx. induction Hno as [|e o He _ IH]; simpl; [reflexivity|].
    rewrite He. simpl. by rewrite IH. }
  by rewrite Hidx, Hrest.
Qed.

Lemma obj_get_counted (f : string -> Z) (ks : list string) (k : string) :
  obj_get (List.map (fun n => (n, f n)) ks) k
  = if existsb (String.eqb k) ks then Some (f k) else None.
Proof.
  induction ks as [|n ks IH]; simpl; [reflexivity|].
  rewrite (String.eqb_sym k n).
  destruct (String.eqb_spec n k) as [-> | Hne]; [reflexivity | exact IH].
Qed.

Lemma obj_set_absent {V} (o : JSObject V) (k : string) (v : V) :
  existsb (String.eqb k) (List.map fst o) = false ->
  obj_set o k v = o ++ [(k, v)].
Proof.
  induction o as [|[n w] o IH]; simpl; [reflexivity|].
  rewrite (String.eqb_sym k n). intros Habs.
  apply orb_false_iff in Habs as [-> Habs]. by rewrite IH.
Qed.

Lemma obj_set_counted (f : string -> Z) (ks : list string) (k : string) (v : Z) :
  NoDup ks ->
  existsb (String.eqb k) ks = true ->
  obj_set (List.map (fun n => (n, f n)) ks) k v
  = List.map (fun n => (n, if String.eqb n k then v else f n)) ks.
Proof.
  induction 1 as [|n ks Hn Hks IH]; simpl; [discriminate|].
  rewrite (String.eqb_sym k n).
  destruct (String.eqb_spec n k) as [-> | Hne]; simpl.
  - intros _. f_equal. apply map_ext_in. intros m Hm.
    destruct (String.eqb_spec m k) as [-> | _]; [|reflexivity].
    exfalso. apply Hn. by apply list_elem_of_In.
  - intros Hin. by rewrite IH.
Qed.

(** ** getStatistics *)

Lemma existsb_filter_ne (k x : string) (l : list string) :
  existsb (String.eqb k) (List.filter (fun m => negb (String.eqb m x)) l)
  = negb (String.eqb k x) && existsb (String.eqb k) l.
Proof.
  induction l as [|m l IH]; simpl; [by rewrite andb_false_r|].
  destruct (String.eqb_spec m x) as [-> | Hmx]; simpl.
  - rewrite IH. destruct (String.eqb k x); reflexivity.
  - rewrite IH. destruct (String.eqb_spec k m) as [-> | Hkm]; simpl.
    + apply String.eqb_neq in Hmx. by rewrite Hmx.
    + reflexivity.
Qed.

Lemma firstSeen_mem (k : string) (l : list string) :
  existsb (String.eqb k) (firstSeen l) = existsb (String.eqb k) l.
Proof.
  induction l as [|x l IH]; simpl; [reflexivity|].
  rewrite existsb_filter_ne, IH.
  destruct (String.eqb k x); reflexivity.
Qed.

Lemma existsb_eqb_In (k : string) (l : list string) :
  existsb (String.eqb k) l = true <-> In k l.
Proof.
  rewrite existsb_exists. split.
  - intros (m & Hin & Heq). apply String.eqb_eq in Heq. by subst.
  - intros Hin. exists k. split; [exact Hin | apply String.eqb_refl].
Qed.

Lemma NoDup_firstSeen (l : list string) : NoDup (firstSeen l).
Proof.
  apply NoDup_ListNoDup.
  induction l as [|x l IH]; simpl; [constructor|].
  apply List.NoDup_cons.
  - rewrite <- existsb_eqb_In, existsb_filter_ne, String.eqb_refl.
    discriminate.
  - by apply List.NoDup_filter.
Qed.

Lemma firstSeen_snoc (l : list string) (k : string) :
  firstSeen (l ++ [k])
  = firstSeen l ++ (if existsb (String.eqb k) l then [] else [k]).
Proof.
  induction l as [|x l IH]; simpl; [reflexivity|].
  rewrite IH, List.filter_app. f_equal. f_equal.
  destruct (String.eqb_spec k x) as [-> | Hkx]; simpl.
  - destruct (existsb _ l); simpl; [reflexivity|].
    by rewrite String.eqb_refl.
  - destruct (existsb _ l); simpl; [reflexivity|].
    apply String.eqb_neq in Hkx. by rewrite Hkx.
Qed.

Lemma occurrences_snoc (l : list string) (k n : string) :
  occurrences (l ++ [k]) n
  = occurrences l n + (if String.eqb n k then 1 else 0).
Proof.
  unfold occurrences. rewrite List.filter_app, List.length_app. simpl.
  destruct (String.eqb n k); simpl; lia.
Qed.

Lemma occurrences_absent (l : list string) (n : string) :
  existsb (String.eqb n) l = false -> occurrences l n = 0.
Proof.
  unfold occurrences. induction l as [|x l IH]; simpl; [reflexivity|].
  intros Habs. apply orb_false_iff in Habs as [-> Habs]. by apply IH.
Qed.

Lemma occurrences_present (l : list string) (n : string) :
  existsb (String.eqb n) l = true -> 0 < occurrences l n.
Proof.
  unfold occurrences. induction l as [|x l IH]; simpl; [discriminate|].
  destruct (String.eqb n x); simpl; [lia|]. exact IH.
Qed.

Lemma counted_keys (l : list string) :
  List.map fst (counted l) = firstSeen l.
Proof.
  unfold counted. rewrite List.map_map. simpl. apply List.map_id.
Qed.

Lemma increment_counted (l : list string) (k : string) :
  isInherited k = false ->
  increment (counted l) k = Some (counted (l ++ [k])).
Proof.
  intros Hk. unfold increment, counted at 1.
  rewrite obj_get_counted, firstSeen_mem.
  destruct (existsb (String.eqb k) l) eqn:Hin.
  - f_equal. unfold counted.
    rewrite obj_set_counted, firstSeen_snoc, Hin, app_nil_r;
      [|apply NoDup_firstSeen | by rewrite firstSeen_mem].
    apply map_ext. intros n. rewrite occurrences_snoc. f_equal.
    destruct (String.eqb_spec n k) as [-> | _]; [|lia].
    unfold or_Z. pose proof (occurrences_present l k Hin) as Hpos.
    destruct (Z.eqb_spec (occurrences l k) 0); lia.
  - rewrite Hk. f_equal. fold (counted l).
    rewrite obj_set_absent by (by rewrite counted_keys, firstSeen_mem).
    unfold counted. rewrite firstSeen_snoc, Hin, List.map_app. simpl.
    rewrite occurrences_snoc, String.eqb_refl, (occurrences_absent l k Hin).
    f_equal. apply map_ext_in. intros n Hn.
    rewrite occurrences_snoc.
    destruct (String.eqb_spec n k) as [-> | _]; [|f_equal; lia].
    apply existsb_eqb_In in Hn. rewrite firstSeen_mem in Hn. congruence.
Qed.

Lemma countKeys_counted (l : list string) :
  Forall (fun k => isInherited k = false) l ->
  countKeys l (Some []) = Some (counted l).
Proof.
  induction l as [|k l IH] using rev_ind; intros Hl; [reflexivity|].
  apply Forall_app in Hl as [Hl Hk]. apply Forall_inv in Hk.
  unfold countKeys in *. rewrite fold_left_app. simpl.
  rewrite (IH Hl). by apply increment_counted.
Qed.

Lemma countKeys_None (l : list string) : countKeys l None = None.
Proof. induction l as [|k l IH]; [reflexivity | exact IH]. Qed.

Lemma fold_countMessage_None (R : list RosoutMessage) :
  fold_left countMessage R None = None.
Proof. induction R as [|r R IH]; [reflexivity | exact IH]. Qed.

Lemma fold_countMessage (R : list RosoutMessage) :
  forall sc nc,
    fold_left countMessage R (Some (sc, nc))
    = match countKeys (List.map (fun r => String_of_Z (severity r)) R) (Some sc),
            countKeys (List.map node R) (Some nc) with
      | Some sc', Some nc' => Some (sc', nc')
      | _, _ => None
      end.
Proof.
  induction R as [|r R IH]; intros sc nc; [reflexivity|].
  simpl. unfold countKeys in *. simpl.
  destruct (increment sc _) as [sc'|].
  - destruct (increment nc _) as [nc'|]; [apply IH|].
    rewrite fold_countMessage_None.
    fold (countKeys (List.map node R) None). rewrite countKeys_None.
    by destruct (fold_left _ _ (Some sc')).
  - rewrite fold_countMessage_None.
    fold (countKeys (List.map (fun r => String_of_Z (severity r)) R) None).
    by rewrite countKeys_None.
Qed.

Lemma StronglySorted_impl {A} (P Q : A -> A -> Prop) (l : list A) :
  (forall a b, P a b -> Q a b) -> StronglySorted P l -> StronglySorted Q l.
Proof.
  intros HPQ. induction 1 as [|x l Hl IH Hx]; constructor; [exact IH|].
  rewrite List.Forall_forall in Hx |- *. intros y Hy. by apply HPQ, Hx.
Qed.

Lemma Permutation_filter_split {A} (p : A -> bool) (l : list A) :
  Permutation (List.filter p l ++ List.filter (fun x => negb (p x)) l) l.
Proof.
  induction l as [|x l IH]; simpl; [reflexivity|].
  destruct (p x); simpl.
  - by constructor.
  - rewrite <- Permutation_middle. by constructor.
Qed.

Lemma ownKeyOrder_perm {V} (o : list (string * V)) :
  Permutation (ownKeyOrder o) o.
Proof.
  unfold ownKeyOrder. rewrite Array_sort_perm. apply Permutation_filter_split.
Qed.

(** C9, as the code has it.  For records whose node names read no
    inherited property, [topNodes] is the first five entries of a ranking
    of the distinct nodes with their numbers of occurrences, by count
    descending.  Nodes of equal count keep the order in which
    [Object.entries] lists the keys of the count dictionary: the node
    names that are array indices first, in ascending numeric order, then
    the other names in the order of first occurrence.  When no node name
    is an array index, that is the order of first occurrence. *)
Theorem getStatistics_topNodes (R : list RosoutMessage) :
  Forall (fun r => isInherited (node r) = false) R ->
  exists stats ranked indexed,
    getStatistics R = Some stats /\
    topNodes stats = firstn 5 ranked /\
    Permutation ranked (counted (List.map node R)) /\
    NoDup (List.map fst ranked) /\
    StronglySorted (fun a b => snd b <= snd a) ranked /\
    (forall c,
        List.filter (fun e => snd e =? c) ranked
        = List.filter (fun e => snd e =? c)
            (ownKeyOrder (counted (List.map node R)))) /\
    ownKeyOrder (counted (List.map node R))
      = indexed
        ++ List.filter (fun e => negb (isArrayIndex (fst e)))
             (counted (List.map node R)) /\
    Permutation indexed
      (List.filter (fun e => isArrayIndex (fst e)) (counted (List.map node R))) /\
    StronglySorted (fun a b => indexValue (fst a) <= indexValue (fst b)) indexed /\
    (Forall (fun n => isArrayIndex n = false) (List.map node R) ->
     ownKeyOrder (counted (List.map node R)) = counted (List.map node R)).
Proof.
  intros Hnodes.
  set (names := List.map node R).
  set (byCount := fun '((_, a) : string * Z) '((_, b) : string * Z) => b - a).
  assert (Hkey : forall x y : string * Z,
             (byCount x y <=? 0) = (- snd x <=? - snd y)).
  { intros [n a] [m b]. simpl.
    destruct (Z.leb_spec (b - a) 0), (Z.leb_spec (- a) (- b)); lia. }
  assert (Hindex : forall x y : string * Z,
             (indexValue (fst x) - indexValue (fst y) <=? 0)
             = (indexValue (fst x) <=? indexValue (fst y))).
  { intros x y.
    destruct (Z.leb_spec (indexValue (fst x) - indexValue (fst y)) 0),
             (Z.leb_spec (indexValue (fst x)) (indexValue (fst y))); lia. }
  exists {| severityCount :=
              counted (List.map (fun r => String_of_Z (severity r)) R);
            topNodes := firstn 5 (Array_sort byCount (ownKeyOrder (counted names))) |},
         (Array_sort byCount (ownKeyOrder (counted names))),
         (Array_sort (fun a b => indexValue (fst a) - indexValue (fst b))
            (List.filter (fun e => isArrayIndex (fst e)) (counted names))).
  split.
  { unfold getStatistics. rewrite fold_countMessage.
    rewrite !countKeys_counted; [reflexivity|..].
    - rewrite List.Forall_forall in Hnodes |- *. intros n Hn.
      apply in_map_iff in Hn as (r & <- & Hr). by apply Hnodes.
    - rewrite List.Forall_forall. intros k Hk.
      apply in_map_iff in Hk as (r & <- & _). apply isInherited_numeral. }
  split; [reflexivity|].
  split.
  { rewrite (Array_sort_perm byCount). apply ownKeyOrder_perm. }
  split.
  { assert (Hp : Permutation
                   (List.map fst (Array_sort byCount (ownKeyOrder (counted names))))
                   (firstSeen names)).
    { rewrite <- counted_keys. apply Permutation_map.
      rewrite (Array_sort_perm byCount). apply ownKeyOrder_perm. }
    rewrite Hp. apply NoDup_firstSeen. }
  split.
  { apply (StronglySorted_impl (fun a b => - snd a <= - snd b)); [intros; lia|].
    by apply Array_sort_sorted. }
  split.
  { intros c.
    assert (Hext : forall l : list (string * Z),
               List.filter (fun e => snd e =? c) l
               = List.filter (fun e => - snd e =? - c) l).
    { intros l. apply List.filter_ext. intros [n a]. simpl.
      destruct (Z.eqb_spec a c), (Z.eqb_spec (- a) (- c)); lia. }
    rewrite !Hext. by apply Array_sort_stable. }
  split; [reflexivity|].
  split; [apply Array_sort_perm|].
  split.
  { apply (Array_sort_sorted _ (fun e => indexValue (fst e))). exact Hindex. }
  intros Hno. apply ownKeyOrder_no_index.
  rewrite List.Forall_forall in Hno |- *. intros [n c] Hin. simpl.
  apply Hno. apply existsb_eqb_In.
  rewrite <- firstSeen_mem. apply existsb_eqb_In.
  rewrite <- counted_keys. apply in_map_iff. by exists (n, c).
Qed.

(** ** JSON.parse after JSON.stringify *)

Lemma skipWS_blank (lead s : string) :
  blank lead = true -> skipWS (lead +:+ s) = skipWS s.
Proof.
  induction lead as [|c lead IH]; simpl; [reflexivity|].
  intros Hb. apply andb_true_iff in Hb as [-> Hb]. by apply IH.
Qed.

Lemma blank_append (a b : string) :
  blank a = true -> blank b = true -> blank (a +:+ b) = true.
Proof.
  induction a as [|c a IH]; simpl; [done|].
  intros Ha Hb. apply andb_true_iff in Ha as [-> Ha]. by apply IH.
Qed.

(** One character of a string literal reads back as itself. *)
Lemma parseChars_escapeJSONChar (c : ascii) (s : string) :
  parseChars (escapeJSONChar c +:+ s)
  = match parseChars s with
    | Some (str, r) => Some (String c str, r)
    | None => None
    end.
Proof.
  destruct c as [[] [] [] [] [] [] [] []]; reflexivity.
Qed.

Lemma parseChars_escapeJSON (s rest : string) :
  parseChars (escapeJSON s +:+ String QUOTE rest) = Some (s, rest).
Proof.
  induction s as [|c s IH]; [reflexivity|].
  simpl escapeJSON. rewrite append_assoc, parseChars_escapeJSONChar, IH.
  reflexivity.
Qed.

(** *** Numbers *)

Lemma spanDigits_uint (d : Decimal.uint) (rest : string) :
  digitAhead rest = false ->
  spanDigits (NilEmpty.string_of_uint d +:+ rest) = (d, rest).
Proof.
  intros Hrest. induction d as [|d IH|d IH|d IH|d IH|d IH|d IH|d IH|d IH|d IH|d IH];
    simpl; try (rewrite IH; reflexivity).
  destruct rest as [|c rest]; [reflexivity|].
  simpl in Hrest |- *. by destruct (digitOf c).
Qed.

Lemma digits_of_N_NilEmpty (n : N) :
  digits_of_N n = NilEmpty.string_of_uint (N.to_uint n).
Proof.
  unfold digits_of_N, NilZero.string_of_uint.
  destruct (N.to_uint n) eqn:E; try reflexivity.
  destruct n as [|p]; [discriminate|].
  by apply DecimalPos.Unsigned.to_uint_nonnil in E.
Qed.

Lemma isNil_to_uint (n : N) : isNil (N.to_uint n) = false.
Proof.
  destruct n as [|p]; [reflexivity|]. simpl.
  pose proof (DecimalPos.Unsigned.to_uint_nonnil p) as Hp.
  by destruct (Pos.to_uint p).
Qed.

Lemma spanDigits_N (n : N) (rest : string) :
  digitAhead rest = false ->
  spanDigits (digits_of_N n +:+ rest) = (N.to_uint n, rest).
Proof. rewrite digits_of_N_NilEmpty. apply spanDigits_uint. Qed.

Lemma parseExponent_text (e : option Z) (rest : string) :
  delimited rest = true ->
  parseExponent (exponentText e +:+ rest) = Some (e, rest).
Proof.
  intros Hrest.
  assert (Hdigit : digitAhead rest = false).
  { destruct rest as [|c rest]; [reflexivity|]. simpl in Hrest |- *.
    unfold digitOf.
    apply orb_true_iff in Hrest as [H | H]; apply N.eqb_eq in H; by rewrite H. }
  destruct e as [e|]; simpl.
  - destruct (e <? 0) eqn:Hneg; simpl;
      rewrite (spanDigits_N _ _ Hdigit), isNil_to_uint,
        DecimalN.Unsigned.of_to, N2Z.inj_abs_N;
      do 3 f_equal; [apply Z.ltb_lt in Hneg | apply Z.ltb_ge in Hneg]; lia.
  - destruct rest as [|c rest]; [reflexivity|]. simpl in Hrest |- *.
    apply orb_true_iff in Hrest as [H | H]; apply N.eqb_eq in H; by rewrite H.
Qed.

Lemma delimited_head (rest : string) :
  delimited rest = true ->
  rest = EmptyString \/
  exists c s, rest = String c s /\ (c = ","%char \/ c = LF).
Proof.
  destruct rest as [|c rest]; [by left|]. simpl. intros Hc. right.
  exists c, rest. split; [reflexivity|].
  apply orb_true_iff in Hc as [H | H]; apply N.eqb_eq in H;
    [left | right]; apply (f_equal ascii_of_N) in H;
    unfold code in H; by rewrite ascii_N_embedding in H.
Qed.

Lemma exponentText_head (e : option Z) (rest : string) :
  delimited rest = true ->
  exponentText e +:+ rest = EmptyString \/
  exists c s, exponentText e +:+ rest = String c s /\
              (c = "e"%char \/ c = ","%char \/ c = LF).
Proof.
  intros Hrest. destruct e as [e|]; simpl.
  - right. eexists _, _. split; [reflexivity | by left].
  - destruct (delimited_head rest Hrest) as [-> | (c & s & -> & Hc)];
      [by left | right]. exists c, s. split; [reflexivity | tauto].
Qed.

Lemma parseFraction_text (f : Decimal.uint) (e : option Z) (rest : string) :
  delimited rest = true ->
  parseFraction (fractionText f +:+ exponentText e +:+ rest)
  = Some (f, exponentText e +:+ rest).
Proof.
  intros Hrest.
  assert (Hdigit : digitAhead (exponentText e +:+ rest) = false).
  { destruct (exponentText_head e rest Hrest) as [-> | (c & s & -> & Hc)];
      [reflexivity|]. by destruct Hc as [-> | [-> | ->]]. }
  destruct f; simpl;
    try (rewrite (spanDigits_uint _ _ Hdigit); reflexivity).
  destruct (exponentText_head e rest Hrest) as [-> | (c & s & -> & Hc)];
    [reflexivity|]. by destruct Hc as [-> | [-> | ->]].
Qed.

Lemma fractionText_digitAhead (f : Decimal.uint) (e : option Z) (rest : string) :
  delimited rest = true ->
  digitAhead (fractionText f +:+ exponentText e +:+ rest) = false.
Proof.
  intros Hrest. destruct f; try reflexivity. simpl.
  destruct (exponentText_head e rest Hrest) as [-> | (c & s & -> & Hc)];
    [reflexivity|]. by destruct Hc as [-> | [-> | ->]].
Qed.

Lemma parseSign_digits (n : N) (tail : string) :
  parseSign (digits_of_N n +:+ tail) = (false, digits_of_N n +:+ tail).
Proof.
  destruct (digits_of_N_head n) as (c & s & -> & Hc). simpl in Hc |- *.
  repeat (destruct Hc as [<- | Hc]; [reflexivity|]). contradiction.
Qed.

(** A numeral reads back as itself. *)
Lemma parseNumber_text (d : Numeral) (rest : string) :
  delimited rest = true ->
  parseNumber (Numeral_toString d +:+ rest) = Some (d, rest).
Proof.
  intros Hrest. destruct d as [negative int f e].
  unfold Numeral_toString. simpl num_negative. simpl num_integer.
  simpl num_fraction. simpl num_exponent.
  rewrite !append_assoc. unfold parseNumber.
  assert (Hsign :
    parseSign ((if negative then "-" else EmptyString)
               +:+ digits_of_N int +:+ fractionText f +:+ exponentText e +:+ rest)
    = (negative,
       digits_of_N int +:+ fractionText f +:+ exponentText e +:+ rest)).
  { destruct negative; [reflexivity | apply parseSign_digits]. }
  rewrite Hsign.
  rewrite (spanDigits_N _ _ (fractionText_digitAhead f e rest Hrest)).
  rewrite DecimalN.Unsigned.of_to, digits_of_N_NilEmpty, String.eqb_refl.
  rewrite (parseFraction_text f e rest Hrest).
  rewrite (parseExponent_text e rest Hrest).
  reflexivity.
Qed.

(** *** The unfoldings of the parser *)

Lemma parseValue_lead (fuel : nat) (lead s : string) :
  blank lead = true -> parseValue fuel (lead +:+ s) = parseValue fuel s.
Proof.
  intros Hlead. destruct fuel as [|fuel]; [reflexivity|].
  simpl. by rewrite (skipWS_blank lead s Hlead).
Qed.

Lemma parseElements_lead (fuel : nat) (lead s : string) :
  blank lead = true -> parseElements fuel (lead +:+ s) = parseElements fuel s.
Proof.
  intros Hlead. destruct fuel as [|fuel]; [reflexivity|].
  simpl. by rewrite (parseValue_lead fuel lead s Hlead).
Qed.

Lemma parseMembers_lead (fuel : nat) (lead s : string) :
  blank lead = true -> parseMembers fuel (lead +:+ s) = parseMembers fuel s.
Proof.
  intros Hlead. destruct fuel as [|fuel]; [reflexivity|].
  simpl. by rewrite (skipWS_blank lead s Hlead).
Qed.

Lemma parseValue_null (fuel : nat) (rest : string) :
  parseValue (S fuel) ("null" +:+ rest) = Some (JNull, rest).
Proof. reflexivity. Qed.

Lemma parseValue_bool (fuel : nat) (b : bool) (rest : string) :
  parseValue (S fuel) ((if b then "true" else "false") +:+ rest)
  = Some (JBool b, rest).
Proof. destruct b; reflexivity. Qed.

Lemma parseValue_string (fuel : nat) (s rest : string) :
  parseValue (S fuel) (quoteJSON s +:+ rest) = Some (JString s, rest).
Proof.
  unfold quoteJSON.
  change (parseValue (S fuel)
            (String QUOTE ((escapeJSON s +:+ String QUOTE EmptyString) +:+ rest))
          = Some (JString s, rest)).
  rewrite append_assoc.
  change (match parseChars (escapeJSON s +:+ String QUOTE rest) with
          | Some (str, r) => Some (JString str, r)
          | None => None
          end = Some (JString s, rest)).
  by rewrite parseChars_escapeJSON.
Qed.

Lemma Numeral_toString_head (d : Numeral) :
  exists c s, Numeral_toString d = String c s /\
              In c (list_ascii_of_string "-0123456789").
Proof.
  unfold Numeral_toString.
  destruct (digits_of_N_head (num_integer d)) as (c & s & -> & Hc).
  destruct (num_negative d); simpl.
  - eexists _, _. split; [reflexivity | by left].
  - eexists _, _. split; [reflexivity | by right].
Qed.

Lemma parseValue_number_head (fuel : nat) (c : ascii) (s : string) :
  In c (list_ascii_of_string "-0123456789") ->
  parseValue (S fuel) (String c s)
  = match parseNumber (String c s) with
    | Some (d, rest) => Some (JNumber d, rest)
    | None => None
    end.
Proof.
  simpl. intros Hc.
  repeat (destruct Hc as [<- | Hc]; [reflexivity|]). contradiction.
Qed.

Lemma parseValue_number (fuel : nat) (d : Numeral) (rest : string) :
  delimited rest = true ->
  parseValue (S fuel) (Numeral_toString d +:+ rest) = Some (JNumber d, rest).
Proof.
  intros Hrest.
  pose proof (parseNumber_text d rest Hrest) as Hparse.
  destruct (Numeral_toString_head d) as (c & s & Hd & Hc).
  rewrite Hd in Hparse |- *.
  change (String c s +:+ rest) with (String c (s +:+ rest)) in Hparse |- *.
  by rewrite (parseValue_number_head fuel c _ Hc), Hparse.
Qed.

Lemma skipWS_head (c : ascii) (s : string) :
  isJSONSpace c = false -> skipWS (String c s) = String c s.
Proof. intros Hc. simpl. by rewrite Hc. Qed.

Lemma parseElements_comma (fuel : nat) (s tail : string) (v : JSON) :
  parseValue fuel s = Some (v, "," +:+ tail) ->
  parseElements (S fuel) s
  = match parseElements fuel tail with
    | Some (vs, rest) => Some (v :: vs, rest)
    | None => None
    end.
Proof. intros Hv. simpl. rewrite Hv. reflexivity. Qed.

Lemma parseElements_close (fuel : nat) (s lead rest : string) (v : JSON) :
  parseValue fuel s = Some (v, lead +:+ "]" +:+ rest) ->
  blank lead = true ->
  parseElements (S fuel) s = Some ([v], rest).
Proof.
  intros Hv Hlead. simpl. rewrite Hv, (skipWS_blank lead _ Hlead). reflexivity.
Qed.

Lemma parseValue_array_open (fuel : nat) (lead tail : string) (c : ascii) (s : string) :
  tail = String c s ->
  blank lead = true ->
  isJSONSpace c = false ->
  (code c =? 93)%N = false ->
  parseValue (S fuel) ("[" +:+ lead +:+ tail)
  = match parseElements fuel tail with
    | Some (vs, rest) => Some (JArray vs, rest)
    | None => None
    end.
Proof.
  intros -> Hlead Hspace Hclose.
  change (match skipWS (lead +:+ String c s) with
          | String d s2 =>
              if (code d =? 93)%N then Some (JArray [], s2)
              else match parseElements fuel (lead +:+ String c s) with
                   | Some (vs, rest) => Some (JArray vs, rest)
                   | None => None
                   end
          | EmptyString => None
          end
          = match parseElements fuel (String c s) with
            | Some (vs, rest) => Some (JArray vs, rest)
            | None => None
            end).
  rewrite (skipWS_blank lead _ Hlead), (skipWS_head c s Hspace), Hclose.
  by rewrite (parseElements_lead fuel lead _ Hlead).
Qed.

Lemma parseMembers_member (fuel : nat) (key s : string) :
  parseMembers (S fuel) (quoteJSON key +:+ ": " +:+ s)
  = match parseValue fuel s with
    | Some (v, s4) =>
        match skipWS s4 with
        | String c s5 =>
            if (code c =? 44)%N then
              match parseMembers fuel s5 with
              | Some (ms, rest) => Some ((key, v) :: ms, rest)
              | None => None
              end
            else if (code c =? 125)%N then Some ([(key, v)], s5)
            else None
        | EmptyString => None
        end
    | None => None
    end.
Proof.
  unfold quoteJSON.
  change (String QUOTE (escapeJSON key +:+ String QUOTE EmptyString)
          +:+ ": " +:+ s)
    with (String QUOTE ((escapeJSON key +:+ String QUOTE EmptyString)
                        +:+ ": " +:+ s)).
  rewrite append_assoc.
  change (String QUOTE EmptyString +:+ ": " +:+ s)
    with (String QUOTE (String ":" (String " " s))).
  simpl parseMembers. rewrite parseChars_escapeJSON. simpl skipWS.
  cbv iota beta.
  change (code ":" =? 58)%N with true. cbv iota.
  change (String " " s) with (" " +:+ s).
  by rewrite (parseValue_lead fuel " " s eq_refl).
Qed.

Lemma parseMembers_comma (fuel : nat) (key s tail : string) (v : JSON) :
  parseValue fuel s = Some (v, "," +:+ tail) ->
  parseMembers (S fuel) (quoteJSON key +:+ ": " +:+ s)
  = match parseMembers fuel tail with
    | Some (ms, rest) => Some ((key, v) :: ms, rest)
    | None => None
    end.
Proof. intros Hv. rewrite parseMembers_member, Hv. reflexivity. Qed.

Lemma parseMembers_close (fuel : nat) (key s lead rest : string) (v : JSON) :
  parseValue fuel s = Some (v, lead +:+ "}" +:+ rest) ->
  blank lead = true ->
  parseMembers (S fuel) (quoteJSON key +:+ ": " +:+ s) = Some ([(key, v)], rest).
Proof.
  intros Hv Hlead.
  rewrite parseMembers_member, Hv, (skipWS_blank lead _ Hlead). reflexivity.
Qed.

Lemma parseValue_object_open (fuel : nat) (lead key s : string) :
  blank lead = true ->
  parseValue (S fuel) ("{" +:+ lead +:+ quoteJSON key +:+ s)
  = match parseMembers fuel (quoteJSON key +:+ s) with
    | Some (ms, rest) => Some (JObject (objectOfMembers ms), rest)
    | None => None
    end.
Proof.
  intros Hlead.
  change (match skipWS (lead +:+ quoteJSON key +:+ s) with
          | String d s2 =>
              if (code d =? 125)%N then Some (JObject [], s2)
              else match parseMembers fuel (lead +:+ quoteJSON key +:+ s) with
                   | Some (ms, rest) => Some (JObject (objectOfMembers ms), rest)
                   | None => None
                   end
          | EmptyString => None
          end
          = match parseMembers fuel (quoteJSON key +:+ s) with
            | Some (ms, rest) => Some (JObject (objectOfMembers ms), rest)
            | None => None
            end).
  rewrite (skipWS_blank lead _ Hlead).
  by rewrite (parseMembers_lead fuel lead _ Hlead).
Qed.

(** *** Values *)

Lemma weight_pos (v : JSON) : (1 <= weight v)%nat.
Proof. destruct v; simpl; lia. Qed.

Lemma JSON_serialize_head (indent : string) (v : JSON) :
  exists c s, JSON_serialize indent v = String c s /\
              isJSONSpace c = false /\ (code c =? 93)%N = false.
Proof.
  destruct v as [|b|d|str|items|members]; simpl.
  - eexists _, _. split; [reflexivity | by split].
  - destruct b; eexists _, _; (split; [reflexivity | by split]).
  - destruct (Numeral_toString_head d) as (c & s & -> & Hc).
    exists c, s. split; [reflexivity|]. simpl in Hc.
    repeat (destruct Hc as [<- | Hc]; [by split|]). contradiction.
  - eexists _, _. split; [reflexivity | by split].
  - destruct items; eexists _, _; (split; [reflexivity | by split]).
  - destruct members; eexists _, _; (split; [reflexivity | by split]).
Qed.

Lemma join_cons_cons (sep a b : string) (l : list string) :
  join sep (a :: b :: l) = a +:+ sep +:+ join sep (b :: l).
Proof. reflexivity. Qed.

Lemma join_single (sep a : string) : join sep [a] = a.
Proof. reflexivity. Qed.

Lemma join_head (sep a : string) (l : list string) (c : ascii) (s tail : string) :
  a = String c s ->
  exists s', join sep (a :: l) +:+ tail = String c s'.
Proof.
  intros ->. destruct l as [|b l].
  - by eexists.
  - rewrite join_cons_cons. by eexists.
Qed.

Lemma fold_obj_set_fresh {V} (ms acc : list (string * V)) :
  NoDup (List.map fst (acc ++ ms)) ->
  fold_left (fun o kv => obj_set o (fst kv) (snd kv)) ms acc = acc ++ ms.
Proof.
  revert acc. induction ms as [|[k v] ms IH]; intros acc Hnd; simpl.
  - by rewrite app_nil_r.
  - rewrite obj_set_absent.
    + rewrite IH; rewrite <- app_assoc; [reflexivity | exact Hnd].
    + rewrite List.map_app in Hnd. simpl in Hnd.
      apply NoDup_app in Hnd as (_ & Hdisj & _).
      destruct (existsb (String.eqb k) (List.map fst acc)) eqn:Hin;
        [|reflexivity].
      apply existsb_eqb_In, list_elem_of_In in Hin.
      exfalso. apply (Hdisj k Hin). by left.
Qed.

Lemma objectOfMembers_plain (ms : list (string * JSON)) :
  NoDup (List.map fst ms) ->
  Forall (fun kv => isArrayIndex (fst kv) = false) ms ->
  objectOfMembers ms = ms.
Proof.
  intros Hnd Hidx. unfold objectOfMembers.
  rewrite (fold_obj_set_fresh ms []) by exact Hnd.
  by apply ownKeyOrder_no_index.
Qed.

Section RoundTrip.
Variable n : nat.
Hypothesis values :
  forall v indent rest fuel,
    (weight v <= n)%nat -> plainJSON v = true ->
    blank indent = true -> delimited rest = true ->
    (weight v <= fuel)%nat ->
    parseValue fuel (JSON_serialize indent v +:+ rest) = Some (v, rest).

Lemma parseElements_serialize (inner indent rest : string) (items : list JSON) :
  blank inner = true -> blank indent = true ->
  items <> [] ->
  Forall (fun x => (weight x <= n)%nat /\ plainJSON x = true) items ->
  forall fuel,
    (list_sum (List.map (fun x => S (weight x)) items) <= fuel)%nat ->
    parseElements fuel
      (join ("," +:+ NEWLINE +:+ inner) (List.map (JSON_serialize inner) items)
       +:+ NEWLINE +:+ indent +:+ "]" +:+ rest)
    = Some (items, rest).
Proof.
  intros Hinner Hindent Hne Hall.
  induction Hall as [|x items [Hx Hplain] Hall IH]; [congruence|].
  intros fuel Hfuel. simpl in Hfuel.
  destruct fuel as [|fuel]; [lia|].
  destruct items as [|y items].
  - cbn [List.map]. rewrite join_single.
    apply (parseElements_close fuel _ (NEWLINE +:+ indent)).
    + rewrite append_assoc. apply values; try done. lia.
    + by apply blank_append.
  - cbn [List.map]. rewrite join_cons_cons, !append_assoc.
    rewrite (parseElements_comma fuel _
               (NEWLINE +:+ inner
                +:+ join ("," +:+ NEWLINE +:+ inner)
                      (List.map (JSON_serialize inner) (y :: items))
                +:+ NEWLINE +:+ indent +:+ "]" +:+ rest) x).
    + rewrite <- (append_assoc NEWLINE inner).
      rewrite parseElements_lead by (by apply blank_append).
      rewrite IH; [reflexivity | congruence | simpl in Hfuel |- *; lia].
    + apply values; try done. lia.
Qed.

Lemma parseMembers_serialize (inner indent rest : string)
    (members : list (string * JSON)) :
  blank inner = true -> blank indent = true ->
  members <> [] ->
  Forall (fun kv => (weight (snd kv) <= n)%nat /\ plainJSON (snd kv) = true)
         members ->
  forall fuel,
    (list_sum (List.map (fun kv => S (weight (snd kv))) members) <= fuel)%nat ->
    parseMembers fuel
      (join ("," +:+ NEWLINE +:+ inner)
         (List.map (fun kv => quoteJSON (fst kv) +:+ ": "
                              +:+ JSON_serialize inner (snd kv)) members)
       +:+ NEWLINE +:+ indent +:+ "}" +:+ rest)
    = Some (members, rest).
Proof.
  intros Hinner Hindent Hne Hall.
  induction Hall as [|[k v] members [Hv Hplain] Hall IH]; [congruence|].
  intros fuel Hfuel. simpl in Hfuel, Hv, Hplain.
  destruct fuel as [|fuel]; [lia|].
  destruct members as [|m members].
  - cbn [List.map fst snd]. rewrite join_single, !append_assoc.
    apply (parseMembers_close fuel _ _ (NEWLINE +:+ indent)).
    + rewrite append_assoc. apply values; try done. lia.
    + by apply blank_append.
  - cbn [List.map fst snd]. rewrite join_cons_cons, !append_assoc.
    rewrite (parseMembers_comma fuel _ _
               (NEWLINE +:+ inner
                +:+ join ("," +:+ NEWLINE +:+ inner)
                      (List.map (fun kv => quoteJSON (fst kv) +:+ ": "
                                           +:+ JSON_serialize inner (snd kv))
                         (m :: members))
                +:+ NEWLINE +:+ indent +:+ "}" +:+ rest) v).
    + rewrite <- (append_assoc NEWLINE inner).
      rewrite parseMembers_lead by (by apply blank_append).
      rewrite IH; [reflexivity | congruence | simpl in Hfuel |- *; lia].
    + apply values; try done. lia.
Qed.

End RoundTrip.

Lemma JSON_serialize_array (indent : string) (x : JSON) (items : list JSON) :
  JSON_serialize indent (JArray (x :: items))
  = "[" +:+ NEWLINE +:+ (indent +:+ "  ")
    +:+ join ("," +:+ NEWLINE +:+ (indent +:+ "  "))
          (List.map (JSON_serialize (indent +:+ "  ")) (x :: items))
    +:+ NEWLINE +:+ indent +:+ "]".
Proof. reflexivity. Qed.

Lemma JSON_serialize_object (indent : string) (m : string * JSON)
    (members : list (string * JSON)) :
  JSON_serialize indent (JObject (m :: members))
  = "{" +:+ NEWLINE +:+ (indent +:+ "  ")
    +:+ join ("," +:+ NEWLINE +:+ (indent +:+ "  "))
          (List.map (fun kv => quoteJSON (fst kv) +:+ ": "
                               +:+ JSON_serialize (indent +:+ "  ") (snd kv))
             (m :: members))
    +:+ NEWLINE +:+ indent +:+ "}".
Proof. reflexivity. Qed.

Lemma weight_element (x : JSON) (items : list JSON) :
  In x items ->
  (S (weight x) <= list_sum (List.map (fun y => S (weight y)) items))%nat.
Proof.
  induction items as [|y items IH]; [intros []|].
  intros [-> | Hin]; simpl; [lia|]. specialize (IH Hin). lia.
Qed.

Lemma weight_member (m : string * JSON) (members : list (string * JSON)) :
  In m members ->
  (S (weight (snd m))
   <= list_sum (List.map (fun kv => S (weight (snd kv))) members))%nat.
Proof.
  induction members as [|y members IH]; [intros []|].
  intros [-> | Hin]; simpl; [lia|]. specialize (IH Hin). lia.
Qed.

(** What [JSON.stringify] prints for a plain value, [parseValue] reads
    back, given fuel for its weight. *)
Lemma parseValue_serialize (n : nat) :
  forall v indent rest fuel,
    (weight v <= n)%nat -> plainJSON v = true ->
    blank indent = true -> delimited rest = true ->
    (weight v <= fuel)%nat ->
    parseValue fuel (JSON_serialize indent v +:+ rest) = Some (v, rest).
Proof.
  induction n as [|n IHn]; intros v indent rest fuel Hn Hplain Hindent Hrest Hfuel.
  { pose proof (weight_pos v). lia. }
  destruct fuel as [|fuel]; [pose proof (weight_pos v); lia|].
  assert (Hinner : blank (indent +:+ "  ") = true) by (by apply blank_append).
  destruct v as [|b|d|str|items|members].
  - apply parseValue_null.
  - apply parseValue_bool.
  - by apply parseValue_number.
  - apply parseValue_string.
  - destruct items as [|x items]; [reflexivity|].
    rewrite JSON_serialize_array.
    set (inner := indent +:+ "  ") in *.
    rewrite !append_assoc, <- (append_assoc NEWLINE inner).
    destruct (JSON_serialize_head inner x) as (c & s & Hhead & Hspace & Hclose).
    destruct (join_head ("," +:+ NEWLINE +:+ inner) _
                (List.map (JSON_serialize inner) items) c s
                (NEWLINE +:+ indent +:+ "]" +:+ rest) Hhead) as [s' Hs'].
    cbn [List.map].
    rewrite (parseValue_array_open fuel _ _ c s' Hs'
               (blank_append NEWLINE inner eq_refl Hinner) Hspace Hclose).
    change (JSON_serialize inner x :: List.map (JSON_serialize inner) items)
      with (List.map (JSON_serialize inner) (x :: items)).
    rewrite (parseElements_serialize n IHn inner indent rest (x :: items));
      try done.
    + simpl in Hplain. apply andb_true_iff in Hplain as [Hx Hitems].
      rewrite forallb_forall in Hitems.
      rewrite List.Forall_forall. intros y [<- | Hy].
      * split; [simpl in Hn; lia | exact Hx].
      * split; [|by apply Hitems].
        pose proof (weight_element y items Hy). simpl in Hn. lia.
    + simpl in Hfuel |- *. lia.
  - destruct members as [|[k v] members]; [reflexivity|].
    rewrite JSON_serialize_object.
    set (inner := indent +:+ "  ") in *.
    cbn [List.map fst snd].
    simpl in Hplain. apply andb_true_iff in Hplain as [Hnd Hplain].
    apply bool_decide_eq_true in Hnd.
    apply andb_true_iff in Hplain as [Hkv Hplain].
    apply andb_true_iff in Hkv as [Hk Hv]. apply negb_true_iff in Hk.
    rewrite forallb_forall in Hplain.
    assert (Hobject :
      parseMembers fuel
        (join ("," +:+ NEWLINE +:+ inner)
           (List.map (fun kv => quoteJSON (fst kv) +:+ ": "
                                +:+ JSON_serialize inner (snd kv))
              ((k, v) :: members))
         +:+ NEWLINE +:+ indent +:+ "}" +:+ rest)
      = Some ((k, v) :: members, rest)).
    { apply (parseMembers_serialize n IHn); try done.
      - rewrite List.Forall_forall. intros m [<- | Hm]; simpl.
        + split; [simpl in Hn; lia | exact Hv].
        + specialize (Hplain m Hm). apply andb_true_iff in Hplain as [_ Hm'].
          split; [|exact Hm'].
          pose proof (weight_member m members Hm). simpl in Hn. lia.
      - simpl in Hfuel |- *. lia. }
    cbn [List.map fst snd] in Hobject.
    destruct members as [|m members].
    + rewrite join_single in Hobject |- *.
      rewrite !append_assoc in Hobject. rewrite !append_assoc.
      rewrite <- (append_assoc NEWLINE inner).
      rewrite (parseValue_object_open fuel _ k _
                 (blank_append NEWLINE inner eq_refl Hinner)).
      rewrite Hobject, objectOfMembers_plain; [reflexivity | exact Hnd |].
      constructor; [exact Hk | constructor].
    + cbn [List.map fst snd] in Hobject. cbn [List.map fst snd].
      rewrite join_cons_cons in Hobject. rewrite join_cons_cons.
      rewrite !append_assoc in Hobject. rewrite !append_assoc.
      rewrite <- (append_assoc NEWLINE inner).
      rewrite (parseValue_object_open fuel _ k _
                 (blank_append NEWLINE inner eq_refl Hinner)).
      rewrite Hobject, objectOfMembers_plain; [reflexivity | exact Hnd |].
      constructor; [exact Hk|].
      rewrite List.Forall_forall. intros m' Hm'.
      specialize (Hplain m' Hm'). apply andb_true_iff in Hplain as [Hi _].
      by apply negb_true_iff in Hi.
Qed.

(** *** The fuel of [JSON.parse] *)

Lemma length_join {A} (sep : string) (text : A -> string) (cost : A -> nat)
    (items : list A) :
  (1 <= String.length sep)%nat ->
  Forall (fun x => (cost x <= String.length (text x))%nat) items ->
  (list_sum (List.map (fun x => S (cost x)) items)
   <= String.length (join sep (List.map text items)) + 1)%nat.
Proof.
  intros Hsep Hall. induction Hall as [|x items Hx Hall IH]; [simpl; lia|].
  destruct items as [|y items].
  - cbn [List.map list_sum]. rewrite join_single. simpl. lia.
  - cbn [List.map] in IH |- *. rewrite join_cons_cons, !length_append.
    cbn [list_sum] in IH |- *. simpl in IH |- *. lia.
Qed.

Lemma weight_le_length (n : nat) :
  forall v indent,
    (weight v <= n)%nat ->
    (weight v <= String.length (JSON_serialize indent v))%nat.
Proof.
  induction n as [|n IHn]; intros v indent Hn.
  { pose proof (weight_pos v). lia. }
  destruct v as [|b|d|str|items|members].
  - simpl. lia.
  - destruct b; simpl; lia.
  - destruct (Numeral_toString_head d) as (c & s & Hd & _).
    simpl. rewrite Hd. simpl. lia.
  - simpl. lia.
  - destruct items as [|x items]; [simpl; lia|].
    rewrite JSON_serialize_array. set (inner := indent +:+ "  ").
    rewrite !length_append.
    pose proof (length_join ("," +:+ NEWLINE +:+ inner)
                  (JSON_serialize inner) weight (x :: items)) as Hjoin.
    change (weight (JArray (x :: items)))
      with (S (list_sum (List.map (fun y => S (weight y)) (x :: items)))) in *.
    assert (Hall : Forall (fun y => (weight y <= String.length
                                       (JSON_serialize inner y))%nat)
                     (x :: items)).
    { rewrite List.Forall_forall. intros y Hy. apply IHn.
      pose proof (weight_element y (x :: items) Hy). lia. }
    specialize (Hjoin ltac:(simpl; lia) Hall).
    change (String.length "[") with 1%nat.
    change (String.length NEWLINE) with 1%nat.
    change (String.length "]") with 1%nat. lia.
  - destruct members as [|m members]; [simpl; lia|].
    rewrite JSON_serialize_object. set (inner := indent +:+ "  ").
    rewrite !length_append.
    pose proof (length_join ("," +:+ NEWLINE +:+ inner)
                  (fun kv => quoteJSON (fst kv) +:+ ": "
                             +:+ JSON_serialize inner (snd kv))
                  (fun kv => weight (snd kv)) (m :: members)) as Hjoin.
    change (weight (JObject (m :: members)))
      with (S (list_sum (List.map (fun kv => S (weight (snd kv)))
                           (m :: members)))) in *.
    assert (Hall : Forall (fun kv => (weight (snd kv) <= String.length
                             (quoteJSON (fst kv) +:+ ": "
                              +:+ JSON_serialize inner (snd kv)))%nat)
                     (m :: members)).
    { rewrite List.Forall_forall. intros y Hy. rewrite !length_append.
      assert (weight (snd y) <= String.length (JSON_serialize inner (snd y)))%nat.
      { apply IHn. pose proof (weight_member y (m :: members) Hy). lia. }
      lia. }
    specialize (Hjoin ltac:(simpl; lia) Hall).
    change (String.length "{") with 1%nat.
    change (String.length NEWLINE) with 1%nat.
    change (String.length "}") with 1%nat. lia.
Qed.

(** [JSON.parse(JSON.stringify(v, null, 2))] is [v] for a plain value. *)
Lemma JSON_parse_stringify (v : JSON) :
  plainJSON v = true -> JSON_parse (JSON_stringify v) = Some v.
Proof.
  intros Hplain. unfold JSON_parse, JSON_stringify.
  rewrite <- (append_nil_r (JSON_serialize EmptyString v)) at 2.
  rewrite (parseValue_serialize (weight v)); try done.
  pose proof (weight_le_length (weight v) v EmptyString (Nat.le_refl _)). lia.
Qed.

(** ** exportToJSON *)

Lemma Array_map_inv {A B} (f : A -> Exn B) (l : list A) (ys : list B) :
  Array_map f l = Return ys -> Forall2 (fun x y => f x = Return y) l ys.
Proof.
  revert ys. induction l as [|x l IH]; simpl; intros ys.
  - intros [= <-]. constructor.
  - destruct (f x) as [y|e] eqn:Hx; [|discriminate]. simpl.
    destruct (Array_map f l) as [ys'|e]; [|discriminate]. simpl.
    intros [= <-]. constructor; [exact Hx | by apply IH].
Qed.

Lemma plainJSON_strings (ts : list string) :
  forallb plainJSON (List.map JString ts) = true.
Proof. induction ts as [|t ts IH]; [reflexivity | exact IH]. Qed.

Lemma exportKeys_NoDup :
  NoDup ["timestamp"; "time"; "node"; "severity"; "message"; "file"; "line";
         "function"; "topics"].
Proof.
  apply (bool_decide_unpack
           (NoDup ["timestamp"; "time"; "node"; "severity"; "message"; "file";
                   "line"; "function"; "topics"])).
  vm_compute. exact I.
Qed.

Section ExportJSON.
Context `{zone : TimeZone} `{printer : NumberPrinter}.

Lemma jsonRecord_plain (tz : Timezone) (msg : RosoutMessage) (object : JSON) :
  jsonRecord tz msg = Return object -> plainJSON object = true.
Proof.
  unfold jsonRecord.
  destruct (formatTimestamp (timestamp msg) tz) as [time|e]; [|discriminate].
  intros [= <-]. cbn [bind plainJSON List.map fst snd forallb].
  rewrite (bool_decide_eq_true_2 _ exportKeys_NoDup), plainJSON_strings.
  unfold JSON_of_number.
  destruct (Prim2SF (timestamp msg)), (severityName (severity msg)); reflexivity.
Qed.

Lemma or_string_default (o : option string) :
  or_string o EmptyString = default EmptyString o.
Proof. destruct o as [[|c s]|]; reflexivity. Qed.

Lemma or_Z_default (o : option Z) : or_Z o 0 = default 0 o.
Proof.
  destruct o as [z|]; [|reflexivity]. simpl.
  destruct (Z.eqb_spec z 0); congruence.
Qed.


End ExportJSON.

(* ===================================================================== *)
(** * The properties at work on the reference host *)
(* ===================================================================== *)

Module Runs.
Import Reference.

(** The scenario of the specification: errors only, under ['OR']. *)
Example filterMessages_errors_only :
  filterMessages (H := literalEngine) [connFailed; allFine]
    {| nodeNames := None; severityLevels := Some {[ 8 ]};
       messageKeywords := None; messageRegex := None;
       filterMode := Some "OR"; useRegex := None;
       startTime := None; endTime := None |}
  = Return [connFailed].
Proof. reflexivity. Qed.

(** A keyword is looked for without regard to case. *)
Example filterMessages_keyword :
  filterMessages (H := literalEngine) [connFailed; allFine; level99]
    {| nodeNames := None; severityLevels := None;
       messageKeywords := Some [Some " FAILED "; Some EmptyString];
       messageRegex := None; filterMode := None; useRegex := Some false;
       startTime := None; endTime := None |}
  = Return [connFailed].
Proof. reflexivity. Qed.

(** The text export in the time of Tokyo. *)
Example exportToTXT_tokyo :
  exportToTXT (H := tokyo) [allFine; level99] tz_local
  = Return ("[1970-01-01 09:16:41.000] [INFO] [b]: ok (talker.cpp:42)"
            +:+ NEWLINE
            +:+ "[1970-01-01 09:16:42.250] [99] [1]: level 99").
Proof. reflexivity. Qed.

(** The CSV export in UTC. *)
Example exportToCSV_utc :
  exportToCSV (H := tokyo) (H0 := exactDigits) [allFine; level99] tz_utc
  = Return ("Timestamp,Time,Node,Severity,Message,File,Line,Function,Topics"
            +:+ NEWLINE
            +:+ "1001.000000,1970-01-01 00:16:41.000 UTC,b,INFO,ok,talker.cpp,42,main,/rosout;/chatter"
            +:+ NEWLINE
            +:+ "1002.250000,1970-01-01 00:16:42.250 UTC,1,99,level 99,,0,,").
Proof. reflexivity. Qed.

(** C1 on the reference engine: the unclosed group ["("] does not compile,
    and the filter keeps what the severity condition alone keeps; so does
    the filter whose keywords are all blank. *)
Lemma filterMessages_degrades_run :
  RegExp_compile_i (RegExpEngine := literalEngine) "(" = None /\
  filterMessages (H := literalEngine) [connFailed; allFine; level99] badRegex
  = filterMessages (H := literalEngine) [connFailed; allFine; level99]
      (withoutMessageRegex badRegex) /\
  filterMessages (H := literalEngine) [connFailed; allFine; level99]
    blankKeywords
  = filterMessages (H := literalEngine) [connFailed; allFine; level99]
      (withoutMessageKeywords blankKeywords) /\
  filterMessages (H := literalEngine) [connFailed; allFine; level99]
    blankKeywords
  = Return [allFine].
Proof.
  split; [reflexivity|]. split; [|split; [|reflexivity]].
  - apply (proj1 (proj2 (filterMessages_total_degrades
                           (engine := literalEngine)
                           [connFailed; allFine; level99] badRegex)) "(");
      reflexivity.
  - apply (proj2 (proj2 (filterMessages_total_degrades
                           (engine := literalEngine)
                           [connFailed; allFine; level99] blankKeywords))
             [Some EmptyString; Some EmptyString]);
      [reflexivity | repeat constructor].
Defined.

(** C2 on three records. *)
Lemma filterMessages_empty_filters_run :
  filterMessages (H := literalEngine) [connFailed; allFine; level99] noFilter
  = Return [connFailed; allFine; level99].
Proof.
  apply (filterMessages_empty_filters (engine := literalEngine));
    (by left) || reflexivity.
Defined.

(** C4: the record of time 1000.5 is below the start time 1000.75. *)
Lemma filterMessages_time_bounds_run :
  exists out,
    filterMessages (H := literalEngine) [connFailed; allFine] errorsLater
    = Return out /\ ~ In connFailed out.
Proof.
  apply (filterMessages_time_bounds (engine := literalEngine)).
  left. exists 1000.75%float. split; reflexivity.
Defined.

(** C10 as stated fails: under ['OR'] the severity condition of the record
    holds, and the record is not kept, because it is before [startTime]. *)
Lemma filterMessages_OR_cut_by_time :
  filterMode errorsLater = Some "OR" /\
  conditionsOf (H := literalEngine) errorsLater connFailed = Return [true] /\
  filterMessages (H := literalEngine) [connFailed] errorsLater = Return [].
Proof. repeat split; reflexivity. Qed.

(** C10 as amended, on the same filter. *)
Lemma filterMessages_default_OR_run :
  exists out,
    filterMessages (H := literalEngine) [connFailed; allFine] errorsLater
    = Return out /\
    forall r conditions,
      conditionsOf (H := literalEngine) errorsLater r = Return conditions ->
      conditions <> [] ->
      (In r out <->
       In r [connFailed; allFine] /\
       beforeStart errorsLater r = false /\ afterEnd errorsLater r = false /\
       Exists (fun c => c = true) conditions).
Proof.
  apply (filterMessages_default_OR (engine := literalEngine)). discriminate.
Defined.

(** The largest time a bag can hold, two uint32 of all ones, is a time
    value of [Date]. *)
Example largest_bag_time_is_valid :
  Date_new (PrimFloat.mul
              (PrimFloat.add 4294967295%float
                 (PrimFloat.div 4294967295%float 1e9%float))
              1000%float)
  = Some 4294967299294.
Proof. reflexivity. Qed.



(** C7 on the bag without an index. *)
Lemma loadRosbagMessages_unindexed_run :
  loadRosbagMessages (H := twoBags) (bagFile "unindexed.bag")
  = ([rosbag.CallOpen], Throw (UnindexedContainerError "unindexed.bag")).
Proof.
  apply (loadRosbagMessages_unindexed (reader := twoBags)
           (bagFile "unindexed.bag") unindexedBag
           {| rosbag.indexPosition := 0; rosbag.connectionCount := 0;
              rosbag.chunkCount := 0 |}); reflexivity.
Defined.

(** C8 as stated fails: the record of the payload without a name has the
    node ["unknown"], and [uniqueNodes] does not hold it. *)
Lemma loadRosbagMessages_sentinel_not_in_uniqueNodes :
  exists calls loaded r,
    loadRosbagMessages (H := twoBags) (bagFile "rosout.bag")
      = (calls, Return loaded) /\
    In r (messages loaded) /\
    node r = "unknown" /\
    node r ∉ uniqueNodes loaded.
Proof.
  eexists _, _, _. split; [reflexivity|].
  split; [right; left; reflexivity|].
  split; [reflexivity|]. simpl. intros Hin.
  apply elem_of_union in Hin as [Hin | Hin].
  - by apply elem_of_empty in Hin.
  - apply elem_of_singleton in Hin. discriminate Hin.
Qed.

(** C8 as amended, on the same bag. *)
Lemma loadRosbagMessages_uniqueNodes_run :
  exists calls loaded bag results,
    loadRosbagMessages (H := twoBags) (bagFile "rosout.bag")
      = (calls, Return loaded) /\
    rosbag.Bag_open (Reader := twoBags) (bagFile "rosout.bag") = Return bag /\
    rosbag.readMessages bag (findRosoutTopics bag) = (results, None) /\
    messages loaded = omap recordOf results /\
    (forall result r,
        In result results -> recordOf result = Some r ->
        exists payload,
          rosbag.result_message result = Some payload /\
          match rosbag.name payload with
          | Some n =>
              if truthy n then node r = n /\ n ∈ uniqueNodes loaded
              else node r = "unknown"
          | None => node r = "unknown"
          end) /\
    (forall n,
        n ∈ uniqueNodes loaded <->
        exists result payload,
          In result results /\
          rosbag.result_message result = Some payload /\
          is_Some (recordOf result) /\
          rosbag.name payload = Some n /\ n <> EmptyString) /\
    (forall r, In r (messages loaded) ->
               node r ∈ uniqueNodes loaded \/ node r = "unknown") /\
    (forall n, n ∈ uniqueNodes loaded ->
               exists r, In r (messages loaded) /\ node r = n).
Proof.
  eexists _, _.
  destruct (loadRosbagMessages_uniqueNodes (reader := twoBags)
              (bagFile "rosout.bag") _ _ eq_refl)
    as (bag & results & Hrest).
  exists bag, results. split; [reflexivity | exact Hrest].
Defined.

(** C9 as stated fails: of two nodes seen once each, ["b"] first and ["1"]
    second, [topNodes] lists ["1"] first. *)
Lemma getStatistics_index_key_first :
  firstSeen (List.map node [allFine; level99]) = ["b"; "1"] /\
  option_map topNodes (getStatistics [allFine; level99])
  = Some [("1", 1); ("b", 1)].
Proof. split; reflexivity. Qed.

(** C9 as amended, on three records. *)
Lemma getStatistics_topNodes_run :
  exists stats ranked indexed,
    getStatistics [connFailed; allFine; level99] = Some stats /\
    topNodes stats = firstn 5 ranked /\
    Permutation ranked (counted (List.map node [connFailed; allFine; level99])) /\
    NoDup (List.map fst ranked) /\
    StronglySorted (fun a b => snd b <= snd a) ranked /\
    (forall c,
        List.filter (fun e => snd e =? c) ranked
        = List.filter (fun e => snd e =? c)
            (ownKeyOrder (counted (List.map node [connFailed; allFine; level99])))) /\
    ownKeyOrder (counted (List.map node [connFailed; allFine; level99]))
      = indexed
        ++ List.filter (fun e => negb (isArrayIndex (fst e)))
             (counted (List.map node [connFailed; allFine; level99])) /\
    Permutation indexed
      (List.filter (fun e => isArrayIndex (fst e))
         (counted (List.map node [connFailed; allFine; level99]))) /\
    StronglySorted (fun a b => indexValue (fst a) <= indexValue (fst b)) indexed /\
    (Forall (fun n => isArrayIndex n = false)
       (List.map node [connFailed; allFine; level99]) ->
     ownKeyOrder (counted (List.map node [connFailed; allFine; level99]))
     = counted (List.map node [connFailed; allFine; level99])).
Proof.
  apply (getStatistics_topNodes [connFailed; allFine; level99]).
  repeat constructor.
Defined.

End Runs.

(* ===================================================================== *)
(** * Further properties *)
(* ===================================================================== *)

(** ** More on filterMessages *)

Lemma filter_filter_same {A} (p : A -> bool) (l : list A) :
  List.filter p (List.filter p l) = List.filter p l.
Proof.
  induction l as [|x l IH]; simpl; [reflexivity|].
  destruct (p x) eqn:Hp; simpl; [rewrite Hp, IH|]; done.
Qed.

Lemma filter_sublist_self {A} (p : A -> bool) (l : list A) :
  sublist (List.filter p l) l.
Proof.
  induction l as [|x l IH]; simpl; [constructor|].
  destruct (p x); by constructor.
Qed.

Lemma trimStart_allWhiteSpace (s : string) :
  allWhiteSpace s = true -> trimStart s = EmptyString.
Proof.
  induction s as [|c s IH]; simpl; [reflexivity|].
  intros Hs. apply andb_true_iff in Hs as [-> Hs]. by apply IH.
Qed.

Lemma trim_allWhiteSpace (s : string) :
  allWhiteSpace s = true -> trim s = EmptyString.
Proof. intros Hs. unfold trim. by rewrite trimStart_allWhiteSpace. Qed.

Lemma isWhiteSpace_lowerChar (c : ascii) :
  isWhiteSpace (lowerChar c) = isWhiteSpace c.
Proof. destruct c as [[] [] [] [] [] [] [] []]; reflexivity. Qed.

Lemma lowerChar_idempotent (c : ascii) : lowerChar (lowerChar c) = lowerChar c.
Proof. destruct c as [[] [] [] [] [] [] [] []]; reflexivity. Qed.

Lemma toLowerCase_idempotent (s : string) :
  toLowerCase (toLowerCase s) = toLowerCase s.
Proof.
  induction s as [|c s IH]; simpl; [reflexivity|].
  by rewrite lowerChar_idempotent, IH.
Qed.

Lemma toLowerCase_length (s : string) :
  String.length (toLowerCase s) = String.length s.
Proof. induction s as [|c s IH]; simpl; [reflexivity | by rewrite IH]. Qed.

Lemma trimStart_toLowerCase (s : string) :
  trimStart (toLowerCase s) = toLowerCase (trimStart s).
Proof.
  induction s as [|c s IH]; simpl; [reflexivity|].
  rewrite isWhiteSpace_lowerChar. by destruct (isWhiteSpace c).
Qed.

Lemma trimEnd_toLowerCase (s : string) :
  trimEnd (toLowerCase s) = toLowerCase (trimEnd s).
Proof.
  induction s as [|c s IH]; simpl; [reflexivity|].
  rewrite IH, isWhiteSpace_lowerChar.
  destruct (trimEnd s); simpl; [by destruct (isWhiteSpace c) | reflexivity].
Qed.

Lemma trim_toLowerCase (s : string) :
  trim (toLowerCase s) = toLowerCase (trim s).
Proof. unfold trim. by rewrite trimStart_toLowerCase, trimEnd_toLowerCase. Qed.

(** The normalised keywords depend on the keywords through their
    lower-case forms only. *)
Lemma normalizeKeywords_lower (ks : list (option string)) :
  normalizeKeywords ks
  = List.filter (fun k => (0 <? String.length k)%nat)
      (List.map (fun k => trim (toLowerCase (default EmptyString k))) ks).
Proof.
  unfold normalizeKeywords. induction ks as [|k ks IH]; [reflexivity|].
  simpl. rewrite trim_toLowerCase, toLowerCase_length.
  replace (match k with Some s => s | None => EmptyString end)
    with (default EmptyString k) by (by destruct k).
  destruct (0 <? String.length (trim (default EmptyString k)))%nat; simpl;
    by rewrite IH.
Qed.

Section FilterMore.
Context `{engine : RegExpEngine}.

Lemma keeps_within_bounds (filters : Filters) (r : RosoutMessage) :
  keeps filters r = true ->
  beforeStart filters r = false /\ afterEnd filters r = false.
Proof.
  unfold keeps, keepMessage.
  destruct (conditionsOf_total filters r) as [cs ->]. simpl.
  destruct (beforeStart filters r); [discriminate|].
  destruct (afterEnd filters r); [discriminate | done].
Qed.

(** X1.  Filtering what a filter has kept, with the same filter, keeps all
    of it. *)
Theorem filterMessages_idempotent
    (messages : list RosoutMessage) (filters : Filters) :
  exists out,
    filterMessages messages filters = Return out /\
    filterMessages out filters = Return out.
Proof.
  exists (List.filter (keeps filters) messages).
  split; [apply filterMessages_filter|].
  rewrite filterMessages_filter. by rewrite filter_filter_same.
Qed.

(** X2.  The result is a subsequence of the input: no record is added,
    repeated or moved; and every record of the result is within the time
    bounds. *)
Theorem filterMessages_subsequence
    (messages : list RosoutMessage) (filters : Filters) :
  exists out,
    filterMessages messages filters = Return out /\
    sublist out messages /\
    Forall (fun r => beforeStart filters r = false /\ afterEnd filters r = false)
           out.
Proof.
  exists (List.filter (keeps filters) messages).
  split; [apply filterMessages_filter|].
  split; [apply filter_sublist_self|].
  rewrite List.Forall_forall. intros r Hr.
  apply filter_In in Hr as [_ Hk]. by apply keeps_within_bounds.
Qed.

(** X3.  A record is judged on its own: the result for two lists put end
    to end is the two results put end to end. *)
Theorem filterMessages_app
    (first second : list RosoutMessage) (filters : Filters) :
  exists kept_first kept_second,
    filterMessages first filters = Return kept_first /\
    filterMessages second filters = Return kept_second /\
    filterMessages (first ++ second) filters
      = Return (kept_first ++ kept_second).
Proof.
  exists (List.filter (keeps filters) first),
         (List.filter (keeps filters) second).
  rewrite !filterMessages_filter, List.filter_app. done.
Qed.

(** X4.  Under ['AND'], a record that has at least one condition is kept
    exactly when it is within the time bounds and all its conditions
    hold. *)
Theorem filterMessages_AND
    (messages : list RosoutMessage) (filters : Filters) :
  filterMode filters = Some "AND" ->
  exists out,
    filterMessages messages filters = Return out /\
    forall r conditions,
      conditionsOf filters r = Return conditions ->
      conditions <> [] ->
      (In r out <->
       In r messages /\
       beforeStart filters r = false /\ afterEnd filters r = false /\
       Forall (fun c => c = true) conditions).
Proof.
  intros Hmode. eexists. split; [apply filterMessages_filter|].
  intros r cs Hcs Hne. rewrite filter_In.
  assert (Hk : keeps filters r = true <->
               beforeStart filters r = false /\ afterEnd filters r = false /\
               Forall (fun c => c = true) cs).
  { unfold keeps, keepMessage. rewrite Hcs. simpl.
    destruct (beforeStart filters r);
      [split; [discriminate | intros [? _]; discriminate]|].
    destruct (afterEnd filters r);
      [split; [discriminate | intros (_ & ? & _); discriminate]|].
    destruct (length cs =? 0)%nat eqn:Hlen.
    { apply Nat.eqb_eq in Hlen. destruct cs; [congruence | discriminate]. }
    rewrite bool_decide_eq_true_2 by exact Hmode.
    rewrite forallb_forall, List.Forall_forall.
    split; [intros Hall | intros (_ & _ & Hall)]; [repeat split|]; exact Hall. }
  rewrite Hk. reflexivity.
Qed.

(** X5.  A record for which the filter has no condition is kept exactly
    when it is within the time bounds, whatever the mode. *)
Theorem filterMessages_no_condition
    (messages : list RosoutMessage) (filters : Filters) :
  exists out,
    filterMessages messages filters = Return out /\
    forall r,
      conditionsOf filters r = Return [] ->
      (In r out <->
       In r messages /\
       beforeStart filters r = false /\ afterEnd filters r = false).
Proof.
  eexists. split; [apply filterMessages_filter|].
  intros r Hcs. rewrite filter_In.
  assert (Hk : keeps filters r = true <->
               beforeStart filters r = false /\ afterEnd filters r = false).
  { unfold keeps, keepMessage. rewrite Hcs. simpl.
    destruct (beforeStart filters r);
      [split; [discriminate | intros [? _]; discriminate]|].
    destruct (afterEnd filters r);
      [split; [discriminate | intros [_ ?]; discriminate]|].
    done. }
  rewrite Hk. reflexivity.
Qed.

(** X6.  The switch [useRegex] decides which text field is read: with it
    on, the keywords make no difference; with it off or absent, the
    pattern makes none. *)
Theorem filterMessages_one_text_mode
    (messages : list RosoutMessage) (filters : Filters)
    (ks : option (list (option string))) (pattern : option string) :
  filterMessages messages
    (if useRegex_truthy filters then withMessageKeywords ks filters
     else withMessageRegex pattern filters)
  = filterMessages messages filters.
Proof.
  unfold useRegex_truthy at 1.
  destruct (useRegex filters) as [[|]|] eqn:Hswitch;
    apply filterMessages_ext; intros msg;
    unfold keepMessage, conditionsOf, messageCondition, regexBranch,
      keywordBranch, useRegex_truthy; simpl; rewrite Hswitch; reflexivity.
Qed.

Lemma severityCondition_widen (filters : Filters) (wider : gset Z)
    (msg : RosoutMessage) :
  match severityLevels filters with
  | Some levels => (0 < size levels)%nat /\ levels ⊆ wider
  | None => False
  end ->
  exists b b',
    severityCondition filters msg = [b] /\
    severityCondition (withSeverityLevels (Some wider) filters) msg = [b'] /\
    (b = true -> b' = true).
Proof.
  unfold severityCondition. simpl.
  destruct (severityLevels filters) as [levels|]; [|done].
  intros [Hpos Hsub].
  assert (Hwide : (0 < size wider)%nat).
  { eapply Nat.lt_le_trans; [exact Hpos|]. by apply subseteq_size. }
  apply Nat.ltb_lt in Hpos, Hwide. rewrite Hpos, Hwide.
  do 2 eexists. split; [reflexivity|]. split; [reflexivity|].
  intros Hb. apply bool_decide_eq_true in Hb.
  apply bool_decide_eq_true. by apply Hsub.
Qed.

Lemma nodeCondition_widen (filters : Filters) (wider : gset string)
    (msg : RosoutMessage) :
  match nodeNames filters with
  | Some names => (0 < size names)%nat /\ names ⊆ wider
  | None => False
  end ->
  exists b b',
    nodeCondition filters msg = [b] /\
    nodeCondition (withNodeNames (Some wider) filters) msg = [b'] /\
    (b = true -> b' = true).
Proof.
  unfold nodeCondition. simpl.
  destruct (nodeNames filters) as [names|]; [|done].
  intros [Hpos Hsub].
  assert (Hwide : (0 < size wider)%nat).
  { eapply Nat.lt_le_trans; [exact Hpos|]. by apply subseteq_size. }
  apply Nat.ltb_lt in Hpos, Hwide. rewrite Hpos, Hwide.
  do 2 eexists. split; [reflexivity|]. split; [reflexivity|].
  intros Hb. apply bool_decide_eq_true in Hb.
  apply bool_decide_eq_true. by apply Hsub.
Qed.

(** What line 205 onwards answers for given conditions. *)
Lemma verdict_monotone (and_mode : bool) (pre post : list bool) (b b' : bool) :
  (b = true -> b' = true) ->
  (if and_mode then forallb (fun c => c) (pre ++ b :: post)
   else existsb (fun c => c) (pre ++ b :: post)) = true ->
  (if and_mode then forallb (fun c => c) (pre ++ b' :: post)
   else existsb (fun c => c) (pre ++ b' :: post)) = true.
Proof.
  intros Hb. destruct and_mode.
  - rewrite !forallb_app. simpl. rewrite !andb_true_iff. tauto.
  - rewrite !existsb_app. simpl. rewrite !orb_true_iff. tauto.
Qed.

Lemma filter_sublist_mono {A} (p q : A -> bool) (l : list A) :
  (forall x, p x = true -> q x = true) ->
  sublist (List.filter p l) (List.filter q l).
Proof.
  intros Hpq. induction l as [|x l IH]; simpl; [constructor|].
  destruct (p x) eqn:Hp.
  - rewrite (Hpq x Hp). by constructor.
  - destruct (q x); [by constructor | exact IH].
Qed.

(** X7.  Selecting more severities never loses a record: when some
    severities are selected and the selection is widened, what was kept is
    still kept, in either mode. *)
Theorem filterMessages_more_severities
    (messages : list RosoutMessage) (filters : Filters)
    (levels wider : gset Z) :
  severityLevels filters = Some levels ->
  (0 < size levels)%nat ->
  levels ⊆ wider ->
  exists out out',
    filterMessages messages filters = Return out /\
    filterMessages messages (withSeverityLevels (Some wider) filters)
      = Return out' /\
    sublist out out'.
Proof.
  intros Hlevels Hpos Hsub. do 2 eexists.
  split; [apply filterMessages_filter|].
  split; [apply filterMessages_filter|].
  apply filter_sublist_mono. intros r.
  destruct (severityCondition_widen filters wider r) as (b & b' & Hc & Hc' & Hb).
  { rewrite Hlevels. done. }
  unfold keeps, keepMessage, conditionsOf.
  change (messageCondition (withSeverityLevels (Some wider) filters) r)
    with (messageCondition filters r).
  destruct (messageCondition_total filters r) as [ms ->]. simpl.
  change (nodeCondition (withSeverityLevels (Some wider) filters) r)
    with (nodeCondition filters r).
  change (beforeStart (withSeverityLevels (Some wider) filters) r)
    with (beforeStart filters r).
  change (afterEnd (withSeverityLevels (Some wider) filters) r)
    with (afterEnd filters r).
  rewrite Hc, Hc'.
  destruct (beforeStart filters r); [done|].
  destruct (afterEnd filters r); [done|].
  simpl.
  pose proof (verdict_monotone
    (bool_decide (filterMode filters = Some "AND")) [] (nodeCondition filters r ++ ms)
    b b' Hb) as Hv.
  simpl in Hv.
  destruct (bool_decide (filterMode filters = Some "AND")); exact Hv.
Qed.

(** X8.  Selecting more node names never loses a record: when some
    nodes are selected and the selection is widened, what was kept is
    still kept, in either mode. *)
Theorem filterMessages_more_nodes
    (messages : list RosoutMessage) (filters : Filters)
    (names wider : gset string) :
  nodeNames filters = Some names ->
  (0 < size names)%nat ->
  names ⊆ wider ->
  exists out out',
    filterMessages messages filters = Return out /\
    filterMessages messages (withNodeNames (Some wider) filters)
      = Return out' /\
    sublist out out'.
Proof.
  intros Hnames Hpos Hsub. do 2 eexists.
  split; [apply filterMessages_filter|].
  split; [apply filterMessages_filter|].
  apply filter_sublist_mono. intros r.
  destruct (nodeCondition_widen filters wider r) as (b & b' & Hc & Hc' & Hb).
  { rewrite Hnames. done. }
  unfold keeps, keepMessage, conditionsOf.
  change (messageCondition (withNodeNames (Some wider) filters) r)
    with (messageCondition filters r).
  destruct (messageCondition_total filters r) as [ms ->]. simpl.
  change (severityCondition (withNodeNames (Some wider) filters) r)
    with (severityCondition filters r).
  change (beforeStart (withNodeNames (Some wider) filters) r)
    with (beforeStart filters r).
  change (afterEnd (withNodeNames (Some wider) filters) r)
    with (afterEnd filters r).
  rewrite Hc, Hc'.
  destruct (beforeStart filters r); [done|].
  destruct (afterEnd filters r); [done|].
  assert (Hlen : forall x, (length (severityCondition filters r ++ [x] ++ ms) =? 0)%nat
                           = false).
  { intros x. rewrite length_app, length_app. simpl.
    apply Nat.eqb_neq. lia. }
  rewrite !Hlen.
  pose proof (verdict_monotone
    (bool_decide (filterMode filters = Some "AND"))
    (severityCondition filters r) ms b b' Hb) as Hv.
  simpl in Hv.
  destruct (bool_decide (filterMode filters = Some "AND")); exact Hv.
Qed.

(** X9.  Keywords are matched whatever their case: two keyword lists that
    agree entry by entry up to case give the same result. *)
Theorem filterMessages_keyword_case
    (messages : list RosoutMessage) (filters : Filters)
    (ks ks' : list (option string)) :
  Forall2 (fun k k' => toLowerCase (default EmptyString k)
                       = toLowerCase (default EmptyString k')) ks ks' ->
  filterMessages messages (withMessageKeywords (Some ks) filters)
  = filterMessages messages (withMessageKeywords (Some ks') filters).
Proof.
  intros Hcase.
  assert (Hnorm : normalizeKeywords ks = normalizeKeywords ks').
  { rewrite !normalizeKeywords_lower. f_equal.
    induction Hcase as [|k k' l l' Hk _ IH]; [reflexivity|].
    simpl. rewrite Hk. f_equal. apply IH. }
  assert (Hlen : length ks = length ks') by exact (Forall2_length _ _ _ Hcase).
  apply filterMessages_ext; intros msg.
  unfold keepMessage, conditionsOf, messageCondition, regexBranch,
    keywordBranch, useRegex_truthy. simpl.
  destruct (useRegex filters) as [[|]|]; simpl; rewrite ?Hlen;
    try destruct (0 <? length ks')%nat; rewrite ?Hnorm; reflexivity.
Qed.

End FilterMore.

(** ** More on loadRosbagMessages *)

Lemma recordOf_shape (result : rosbag.ReadResult) (r : RosoutMessage) :
  recordOf result = Some r ->
  node r <> EmptyString /\ is_Some (file r) /\ is_Some (line r) /\
  is_Some (function r) /\ is_Some (topics r).
Proof.
  unfold recordOf.
  destruct (rosbag.result_message result) as [payload|]; [|discriminate].
  destruct (rosbag.level payload) as [level|]; [|discriminate].
  destruct (rosbag.msg payload) as [text|]; [|discriminate].
  intros [= <-]. simpl. repeat split; eauto.
  unfold or_string. destruct (rosbag.name payload) as [n|]; [|discriminate].
  destruct (truthy n) eqn:Hn; [by apply truthy_nonempty | discriminate].
Qed.

(** A result whose time is a time value of [Date] and whose level and
    line are safe integers gives a record that is [asLoaded]. *)
Lemma recordOf_asLoaded (result : rosbag.ReadResult) (payload : rosbag.Payload)
    (r : RosoutMessage) :
  rosbag.result_message result = Some payload ->
  recordOf result = Some r ->
  Date_new
    (PrimFloat.mul
       (PrimFloat.add (rosbag.sec (rosbag.result_timestamp result))
          (PrimFloat.div (rosbag.nsec (rosbag.result_timestamp result))
             1e9%float))
       1000%float) <> None ->
  isSafeInteger (default 0 (rosbag.level payload)) = true ->
  isSafeInteger (default 0 (rosbag.line payload)) = true ->
  asLoaded r = true.
Proof.
  intros Hpayload Hrec Hvalid Hlevel Hline. unfold recordOf in Hrec.
  rewrite Hpayload in Hrec.
  destruct (rosbag.level payload) as [level|]; [|discriminate].
  destruct (rosbag.msg payload) as [text|]; [|discriminate].
  injection Hrec as <-. unfold asLoaded, hasValidTime. simpl in *.
  destruct (Date_new _); [|congruence]. rewrite Hlevel. simpl.
  destruct (rosbag.line payload) as [l|]; [|reflexivity]. simpl in *.
  destruct (Z.eqb_spec l 0); [reflexivity | exact Hline].
Qed.

Lemma fold_onResult_no_empty_node (results : list rosbag.ReadResult) :
  forall acc,
    EmptyString ∉ uniqueNodes acc ->
    EmptyString ∉ uniqueNodes (fold_left onResult results acc).
Proof.
  induction results as [|result results IH]; intros acc Hacc; [exact Hacc|].
  simpl. apply IH. unfold onResult.
  destruct (rosbag.result_message result) as [payload|]; [|exact Hacc].
  destruct (rosbag.level payload) as [level|]; [|exact Hacc].
  destruct (rosbag.msg payload) as [text|]; [|exact Hacc].
  simpl. destruct (rosbag.name payload) as [n|]; [|exact Hacc].
  destruct (truthy n) eqn:Hn; [|exact Hacc].
  apply truthy_nonempty in Hn.
  intros Hin. apply elem_of_union in Hin as [Hin | Hin]; [by apply Hacc|].
  apply elem_of_singleton in Hin. congruence.
Qed.

Lemma findRosoutTopics_spec (bag : rosbag.Bag) (t : string) :
  In t (findRosoutTopics bag) <->
  exists id c, In (id, c) (rosbag.connections bag) /\
               rosbag.topic c = t /\ isRosoutConnection c = true.
Proof.
  unfold findRosoutTopics. rewrite in_map_iff. split.
  - intros ([id c] & Ht & Hin). apply filter_In in Hin as [Hin Hq].
    by exists id, c.
  - intros (id & c & Hin & Ht & Hq). exists (id, c).
    split; [exact Ht|]. apply filter_In. by split.
Qed.

Section LoadMore.
Context `{reader : rosbag.Reader}.

(** X10.  An indexed bag none of whose connections is on a topic that
    contains ["rosout"] or of type ["rosgraph_msgs/Log"] is refused with
    the error that lists every connection of the bag, in the order of the
    bag; the connections are enumerated twice and no message is read. *)
Theorem loadRosbagMessages_no_rosout_topic
    (file : rosbag.File) (bag : rosbag.Bag) :
  rosbag.Bag_open file = Return bag ->
  isUnindexed bag = false ->
  (forall id c, In (id, c) (rosbag.connections bag) ->
                includes (rosbag.topic c) "rosout" = false /\
                rosbag.type c <> Some "rosgraph_msgs/Log") ->
  loadRosbagMessages file
  = ([rosbag.CallOpen; rosbag.CallConnections; rosbag.CallConnections],
     Throw (NoMatchingChannelsError
              (List.map (fun '(_, c) => (rosbag.topic c, rosbag.type c))
                 (rosbag.connections bag)))).
Proof.
  intros Hopen Hindexed Hnone.
  unfold loadRosbagMessages. rewrite Hopen, Hindexed.
  assert (Hempty : findRosoutTopics bag = []).
  { destruct (findRosoutTopics bag) as [|t ts] eqn:Htopics; [reflexivity|].
    assert (Hin : In t (findRosoutTopics bag)) by (rewrite Htopics; by left).
    apply findRosoutTopics_spec in Hin as (id & c & Hin & _ & Hq).
    destruct (Hnone id c Hin) as [Htopic Htype].
    unfold isRosoutConnection in Hq. rewrite Htopic in Hq. simpl in Hq.
    apply bool_decide_eq_true in Hq. contradiction. }
  rewrite Hempty. reflexivity.
Qed.

(** X11.  Messages are read at most once, from an opened and indexed bag,
    and on a list of topics that is never empty: the topics of the
    connections that qualify, one entry per connection, in the order of
    the bag. *)
Theorem loadRosbagMessages_reads_rosout_topics
    (file : rosbag.File) (topics : list string) :
  In (rosbag.CallReadMessages topics) (fst (loadRosbagMessages file)) ->
  topics <> [] /\
  exists bag,
    rosbag.Bag_open file = Return bag /\
    isUnindexed bag = false /\
    fst (loadRosbagMessages file)
      = [rosbag.CallOpen; rosbag.CallConnections;
         rosbag.CallReadMessages topics] /\
    topics = List.map (fun '(_, c) => rosbag.topic c)
               (List.filter (fun '(_, c) => isRosoutConnection c)
                  (rosbag.connections bag)) /\
    forall t, In t topics <->
              exists id c, In (id, c) (rosbag.connections bag) /\
                           rosbag.topic c = t /\
                           (includes t "rosout" = true \/
                            rosbag.type c = Some "rosgraph_msgs/Log").
Proof.
  unfold loadRosbagMessages.
  destruct (rosbag.Bag_open file) as [bag|e];
    [|simpl; intros [[=] | []]].
  destruct (isUnindexed bag) eqn:Hindexed; [simpl; intros [[=] | []]|].
  destruct (length (findRosoutTopics bag) =? 0)%nat eqn:Hlen;
    [simpl; intros [[=] | [[=] | [[=] | []]]]|].
  destruct (rosbag.readMessages bag (findRosoutTopics bag)) as [results failure].
  simpl. intros [[=] | [[=] | [[= <-] | []]]].
  split.
  { intros Hnil. rewrite Hnil in Hlen. discriminate. }
  exists bag. repeat split; try reflexivity; try exact Hindexed.
  - intros Hin. apply findRosoutTopics_spec in Hin as (id & c & Hin & <- & Hq).
    exists id, c. repeat split; [exact Hin|].
    unfold isRosoutConnection in Hq. apply orb_true_iff in Hq as [Hq | Hq];
      [by left | right]. by apply bool_decide_eq_true in Hq.
  - intros (id & c & Hin & <- & Hq). apply findRosoutTopics_spec.
    exists id, c. repeat split; [exact Hin|].
    unfold isRosoutConnection. apply orb_true_iff.
    destruct Hq as [Hq | Hq]; [by left | right].
    by apply bool_decide_eq_true.
Qed.

(** X12.  What a successful load returns: the reader delivered its
    results without failing, and [messages] holds, in the order of
    delivery, one record for each result whose payload has a [level] and a
    [msg], and none for the others. *)
Theorem loadRosbagMessages_records
    (file : rosbag.File) (calls : list rosbag.ReaderCall) (loaded : Loaded) :
  loadRosbagMessages file = (calls, Return loaded) ->
  exists bag results,
    rosbag.Bag_open file = Return bag /\
    rosbag.readMessages bag (findRosoutTopics bag) = (results, None) /\
    messages loaded = omap recordOf results /\
    (length (messages loaded) <= length results)%nat.
Proof.
  unfold loadRosbagMessages.
  destruct (rosbag.Bag_open file) as [bag|e]; [|intros [=]].
  destruct (isUnindexed bag); [intros [=]|].
  destruct (length (findRosoutTopics bag) =? 0)%nat; [intros [=]|].
  destruct (rosbag.readMessages bag (findRosoutTopics bag))
    as [results [e|]] eqn:Hread; intros [= _ <-].
  exists bag, results. rewrite fold_onResult_recordOf. simpl.
  repeat split; try reflexivity; try exact Hread.
  clear Hread. induction results as [|result results IH]; [reflexivity|].
  change (omap recordOf (result :: results))
    with (match recordOf result with
          | Some r => r :: omap recordOf results
          | None => omap recordOf results
          end).
  destruct (recordOf result); simpl; lia.
Qed.

(** X13.  A failure of the reader is the failure of the load, whether the
    bag does not open or the reading stops on an error after some results:
    the records made before the error are not returned. *)
Theorem loadRosbagMessages_reader_failure
    (file : rosbag.File) (e : Error) :
  rosbag.Bag_open file = Throw e \/
  (exists bag results,
      rosbag.Bag_open file = Return bag /\
      isUnindexed bag = false /\
      findRosoutTopics bag <> [] /\
      rosbag.readMessages bag (findRosoutTopics bag) = (results, Some e)) ->
  snd (loadRosbagMessages file) = Throw e.
Proof.
  unfold loadRosbagMessages.
  intros [-> | (bag & results & -> & -> & Htopics & Hread)]; [reflexivity|].
  destruct (findRosoutTopics bag) as [|t ts] eqn:Ht; [done|].
  simpl. rewrite Hread. reflexivity.
Qed.

(** X14.  Every record of a successful load has a node name that is not
    empty and has its four optional fields set; and the empty string is
    no member of [uniqueNodes]. *)
Theorem loadRosbagMessages_record_shape
    (input : rosbag.File) (calls : list rosbag.ReaderCall) (loaded : Loaded) :
  loadRosbagMessages input = (calls, Return loaded) ->
  Forall (fun r => node r <> EmptyString /\ is_Some (file r) /\
                   is_Some (line r) /\ is_Some (function r) /\
                   is_Some (topics r))
         (messages loaded) /\
  EmptyString ∉ uniqueNodes loaded.
Proof.
  unfold loadRosbagMessages.
  destruct (rosbag.Bag_open input) as [bag|e]; [|intros [=]].
  destruct (isUnindexed bag); [intros [=]|].
  destruct (length (findRosoutTopics bag) =? 0)%nat; [intros [=]|].
  destruct (rosbag.readMessages bag (findRosoutTopics bag))
    as [results [e|]]; intros [= _ <-].
  split.
  - rewrite fold_onResult_recordOf. simpl.
    rewrite List.Forall_forall. intros r Hr.
    apply list_elem_of_In, list_elem_of_omap in Hr as (result & _ & Hrec).
    exact (recordOf_shape result r Hrec).
  - apply fold_onResult_no_empty_node. simpl. apply not_elem_of_empty.
Qed.

End LoadMore.

(** ** The handlers of the filter panel *)

Lemma trimStart_head (s : string) :
  match trimStart s with
  | EmptyString => True
  | String c _ => isWhiteSpace c = false
  end.
Proof.
  induction s as [|c s IH]; simpl; [exact I|].
  destruct (isWhiteSpace c) eqn:Hc; [exact IH | exact Hc].
Qed.

Lemma trimEnd_idempotent (s : string) : trimEnd (trimEnd s) = trimEnd s.
Proof.
  induction s as [|c s IH]; simpl; [reflexivity|].
  destruct (trimEnd s) as [|d t] eqn:Hend.
  - destruct (isWhiteSpace c) eqn:Hc; simpl; [reflexivity | by rewrite Hc].
  - change (trimEnd (String c (String d t)))
      with (match trimEnd (String d t) with
            | EmptyString =>
                if isWhiteSpace c then EmptyString else String c EmptyString
            | r => String c r
            end).
    by rewrite IH.
Qed.

Lemma trimStart_trimEnd (s : string) :
  match s with
  | EmptyString => True
  | String c _ => isWhiteSpace c = false
  end ->
  trimStart (trimEnd s) = trimEnd s.
Proof.
  destruct s as [|c s]; [reflexivity|]. intros Hc. simpl.
  destruct (trimEnd s); rewrite ?Hc; simpl; by rewrite Hc.
Qed.

(** Trimming twice is trimming once. *)
Lemma trim_idempotent (s : string) : trim (trim s) = trim s.
Proof.
  unfold trim. rewrite trimStart_trimEnd by apply trimStart_head.
  apply trimEnd_idempotent.
Qed.

(** Removing a member, adding a non-member. *)
Lemma toggle_member `{Countable A} (selected : gset A) (x y : A) :
  y ∈ (if bool_decide (x ∈ selected) then selected ∖ {[ x ]}
       else selected ∪ {[ x ]})
  <-> (if bool_decide (y = x) then y ∉ selected else y ∈ selected).
Proof.
  destruct (decide (x ∈ selected)) as [Hin | Hout].
  - rewrite (bool_decide_eq_true_2 _ Hin), elem_of_difference,
      elem_of_singleton.
    destruct (decide (y = x)) as [-> | Hne].
    + rewrite bool_decide_eq_true_2 by reflexivity. tauto.
    + rewrite (bool_decide_eq_false_2 _ Hne). tauto.
  - rewrite (bool_decide_eq_false_2 _ Hout), elem_of_union, elem_of_singleton.
    destruct (decide (y = x)) as [-> | Hne].
    + rewrite bool_decide_eq_true_2 by reflexivity. tauto.
    + rewrite (bool_decide_eq_false_2 _ Hne). tauto.
Qed.

Lemma toggle_twice `{Countable A} (toggle : gset A -> A -> gset A)
    (selected : gset A) (x : A) :
  (forall s y, y ∈ toggle s x
               <-> (if bool_decide (y = x) then y ∉ s else y ∈ s)) ->
  toggle (toggle selected x) x = selected.
Proof.
  intros Hmember. apply set_eq. intros y. rewrite Hmember.
  destruct (decide (y = x)) as [-> | Hne].
  - rewrite bool_decide_eq_true_2 by reflexivity. rewrite Hmember.
    rewrite bool_decide_eq_true_2 by reflexivity.
    destruct (decide (x ∈ selected)); tauto.
  - rewrite (bool_decide_eq_false_2 _ Hne). rewrite Hmember.
    rewrite (bool_decide_eq_false_2 _ Hne). reflexivity.
Qed.

Section Panel.
Context `{engine : RegExpEngine}.

Lemma toggleNode_flips (selected : gset string) (node : string) :
  (node ∈ AppState.toggleNode selected node <-> node ∉ selected) /\
  (forall other, other <> node ->
     (other ∈ AppState.toggleNode selected node <-> other ∈ selected)) /\
  AppState.toggleNode (AppState.toggleNode selected node) node = selected.
Proof.
  split; [|split].
  - unfold AppState.toggleNode. rewrite toggle_member.
    by rewrite bool_decide_eq_true_2 by reflexivity.
  - intros other Hne. unfold AppState.toggleNode. rewrite toggle_member.
    by rewrite (bool_decide_eq_false_2 _ Hne).
  - apply (toggle_twice AppState.toggleNode). intros s y.
    apply toggle_member.
Qed.

Lemma toggleSeverity_flips (selected : gset Z) (severity : Z) :
  (severity ∈ AppState.toggleSeverity selected severity
   <-> severity ∉ selected) /\
  (forall other, other <> severity ->
     (other ∈ AppState.toggleSeverity selected severity
      <-> other ∈ selected)) /\
  AppState.toggleSeverity (AppState.toggleSeverity selected severity) severity
  = selected.
Proof.
  split; [|split].
  - unfold AppState.toggleSeverity. rewrite toggle_member.
    by rewrite bool_decide_eq_true_2 by reflexivity.
  - intros other Hne. unfold AppState.toggleSeverity. rewrite toggle_member.
    by rewrite (bool_decide_eq_false_2 _ Hne).
  - apply (toggle_twice AppState.toggleSeverity). intros s y.
    apply toggle_member.
Qed.

(** X15.  [toggleNode] and [toggleSeverity] flip the membership of the
    node, or of the severity, they are given and of no other; toggling the
    same one twice gives the selection back. *)
Theorem toggles_flip_membership
    (nodes : gset string) (node : string)
    (severities : gset Z) (severity : Z) :
  ((node ∈ AppState.toggleNode nodes node <-> node ∉ nodes) /\
   (forall other, other <> node ->
      (other ∈ AppState.toggleNode nodes node <-> other ∈ nodes)) /\
   AppState.toggleNode (AppState.toggleNode nodes node) node = nodes) /\
  ((severity ∈ AppState.toggleSeverity severities severity
    <-> severity ∉ severities) /\
   (forall other, other <> severity ->
      (other ∈ AppState.toggleSeverity severities severity
       <-> other ∈ severities)) /\
   AppState.toggleSeverity (AppState.toggleSeverity severities severity)
     severity = severities).
Proof.
  split; [apply toggleNode_flips | apply toggleSeverity_flips].
Qed.

(** X16.  The button that clears the filters shows every message, and
    that is what [applyFilters] gives on the state it sets, whatever the
    mode and the regex switch it leaves. *)
Theorem applyFilters_after_clearFilters
    (messages : list RosoutMessage) (st : AppState.FilterState) :
  AppState.applyFilters messages (fst (AppState.clearFilters messages st))
  = Return (snd (AppState.clearFilters messages st)) /\
  snd (AppState.clearFilters messages st) = messages.
Proof.
  split; [|reflexivity].
  unfold AppState.applyFilters. rewrite filterMessages_filter. f_equal.
  simpl. induction messages as [|m ms IH]; simpl; [reflexivity|].
  assert (Hkeep : keeps (AppState.filtersOf
                           (fst (AppState.clearFilters (m :: ms) st))) m = true).
  { unfold keeps, keepMessage, conditionsOf, messageCondition, regexBranch,
      keywordBranch, useRegex_truthy. simpl.
    by destruct (AppState.useRegex st). }
  simpl in Hkeep. rewrite Hkeep. f_equal. exact IH.
Qed.

(** X17.  A keyword text that holds nothing but commas and white space
    filters as the empty text does. *)
Theorem applyFilters_blank_keywords
    (messages : list RosoutMessage) (st : AppState.FilterState)
    (text : string) :
  Forall (fun piece => allWhiteSpace piece = true) (String_split text ",") ->
  AppState.applyFilters messages (AppState.withKeywords text st)
  = AppState.applyFilters messages (AppState.withKeywords EmptyString st).
Proof.
  intros Hblank. unfold AppState.applyFilters.
  apply filterMessages_ext. intros msg.
  unfold keepMessage, conditionsOf.
  destruct (truthy text) eqn:Htext; [|by destruct text].
  rewrite (messageCondition_blank_keywords _ msg
             (List.map (fun k => Some (trim k)) (String_split text ","))).
  - reflexivity.
  - unfold AppState.filtersOf. simpl. by rewrite Htext.
  - apply normalizeKeywords_blank.
    induction Hblank as [|piece pieces Hpiece _ IH]; constructor; [|exact IH].
    by rewrite trim_idempotent, trim_allWhiteSpace.
Qed.

(** X18.  [applyFilters] trims the pieces of the keyword text, and
    [filterMessages] trims its keywords: the first trim makes no
    difference to the result. *)
Theorem applyFilters_trims_once
    (messages : list RosoutMessage) (st : AppState.FilterState) :
  AppState.applyFilters messages st
  = filterMessages messages
      (withMessageKeywords
         (if truthy (AppState.keywords st)
          then Some (List.map Some (String_split (AppState.keywords st) ","))
          else None)
         (AppState.filtersOf st)).
Proof.
  unfold AppState.applyFilters. apply filterMessages_ext. intros msg.
  unfold keepMessage, conditionsOf, messageCondition, regexBranch,
    keywordBranch, useRegex_truthy. simpl.
  destruct (truthy (AppState.keywords st)); [|reflexivity].
  rewrite !length_map.
  assert (Hnorm :
    normalizeKeywords
      (List.map (fun k => Some (trim k)) (String_split (AppState.keywords st) ","))
    = normalizeKeywords
        (List.map Some (String_split (AppState.keywords st) ","))).
  { unfold normalizeKeywords. rewrite !List.map_map. do 2 f_equal.
    apply map_ext. intros k. apply trim_idempotent. }
  destruct (AppState.useRegex st); simpl; [reflexivity|].
  destruct (0 <? length (String_split (AppState.keywords st) ","))%nat;
    [|reflexivity].
  rewrite Hnorm. reflexivity.
Qed.

End Panel.

(** X19.  [formatTime] of the message table and [formatTimestamp] of the
    exports print a timestamp alike in either time-zone mode, and throw
    alike. *)
Theorem formatTime_formatTimestamp `{zone : TimeZone}
    (timezone : Timezone) (t : float) :
  AppState.formatTime timezone t = formatTimestamp t timezone.
Proof. destruct timezone; reflexivity. Qed.

(** ** Numerals and severities *)

Lemma digits_of_N_inj (n m : N) : digits_of_N n = digits_of_N m -> n = m.
Proof.
  rewrite !digits_of_N_NilEmpty. intros Heq.
  apply DecimalN.Unsigned.to_uint_inj.
  assert (Hsome : Some (N.to_uint n) = Some (N.to_uint m)).
  { rewrite <- !NilEmpty.usu. by rewrite Heq. }
  congruence.
Qed.

Lemma String_of_Z_sign (z : Z) :
  String_of_Z z
  = (if z <? 0 then "-" else EmptyString) +:+ digits_of_N (Z.abs_N z).
Proof.
  unfold String_of_Z, Numeral_toString, Numeral_of_Z. simpl.
  by rewrite !append_nil_r.
Qed.

(** Two integers that print alike are equal. *)
Lemma String_of_Z_inj (z w : Z) : String_of_Z z = String_of_Z w -> z = w.
Proof.
  rewrite !String_of_Z_sign.
  destruct (digits_of_N_head (Z.abs_N z)) as (c & s & Hz & Hc).
  destruct (digits_of_N_head (Z.abs_N w)) as (d & t & Hw & Hd).
  destruct (Z.ltb_spec z 0), (Z.ltb_spec w 0); simpl; intros Heq.
  - injection Heq as Heq. apply digits_of_N_inj in Heq. lia.
  - exfalso. rewrite Hw in Heq. injection Heq as <- _.
    simpl in Hd. intuition discriminate.
  - exfalso. rewrite Hz in Heq. injection Heq as -> _.
    simpl in Hc. intuition discriminate.
  - apply digits_of_N_inj in Heq. lia.
Qed.

Lemma severityName_cases (z : Z) (name : string) :
  severityName z = Some name ->
  (z = 1 /\ name = "DEBUG") \/ (z = 2 /\ name = "INFO") \/
  (z = 4 /\ name = "WARN") \/ (z = 8 /\ name = "ERROR") \/
  (z = 16 /\ name = "FATAL").
Proof.
  unfold severityName.
  destruct (SEVERITY_NAMES !! z) as [n|] eqn:Hn; [|discriminate].
  destruct (truthy n); [|discriminate]. intros [= ->].
  unfold SEVERITY_NAMES in Hn.
  repeat (apply lookup_insert_Some in Hn as [[<- <-] | [_ Hn]]; [tauto|]).
  apply lookup_singleton_Some in Hn as [<- <-]. tauto.
Qed.

Lemma severityText_inj (z w : Z) :
  severityText z = severityText w -> z = w.
Proof.
  unfold severityText.
  destruct (severityName z) as [n|] eqn:Hz, (severityName w) as [m|] eqn:Hw.
  - intros ->. apply severityName_cases in Hz, Hw.
    destruct Hz as [[-> Hn] | [[-> Hn] | [[-> Hn] | [[-> Hn] | [-> Hn]]]]],
             Hw as [[-> Hm] | [[-> Hm] | [[-> Hm] | [[-> Hm] | [-> Hm]]]]];
      congruence.
  - intros Heq. exfalso. unfold severityName in Hz.
    destruct (SEVERITY_NAMES !! z) as [k|] eqn:Hk; [|discriminate].
    destruct (truthy k); [|discriminate]. injection Hz as ->.
    by apply (String_of_Z_not_a_name w z n Hk).
  - intros Heq. exfalso. unfold severityName in Hw.
    destruct (SEVERITY_NAMES !! w) as [k|] eqn:Hk; [|discriminate].
    destruct (truthy k); [|discriminate]. injection Hw as ->.
    by apply (String_of_Z_not_a_name z w m Hk).
  - apply String_of_Z_inj.
Qed.

(** X20.  The text shown for a severity tells the severities apart: two
    severities have the same text exactly when they are the same
    severity, named or not. *)
Theorem severityText_injective (z w : Z) :
  severityText z = severityText w <-> z = w.
Proof. split; [apply severityText_inj | by intros ->]. Qed.

(** ** More on getStatistics *)

Lemma occurrences_map_inj {A} (f : A -> string) (key : A -> Z)
    (l : list A) (z : Z) (k : string) :
  (forall x, String.eqb k (f x) = (key x =? z)) ->
  occurrences (List.map f l) k
  = Z.of_nat (length (List.filter (fun x => key x =? z) l)).
Proof.
  intros Hkey. unfold occurrences. f_equal.
  induction l as [|x l IH]; simpl; [reflexivity|].
  rewrite Hkey. destruct (key x =? z); simpl; by rewrite IH.
Qed.

Lemma getStatistics_counted (R : list RosoutMessage) :
  Forall (fun r => isInherited (node r) = false) R ->
  getStatistics R
  = Some {| severityCount :=
              counted (List.map (fun r => String_of_Z (severity r)) R);
            topNodes :=
              firstn 5
                (Array_sort (fun '(_, a) '(_, b) => b - a)
                   (Object_entries (counted (List.map node R)))) |}.
Proof.
  intros Hnodes. unfold getStatistics. rewrite fold_countMessage.
  rewrite !countKeys_counted; [reflexivity|..].
  - rewrite List.Forall_forall in Hnodes |- *. intros n Hn.
    apply in_map_iff in Hn as (r & <- & Hr). by apply Hnodes.
  - rewrite List.Forall_forall. intros k Hk.
    apply in_map_iff in Hk as (r & <- & _). apply isInherited_numeral.
Qed.

Lemma occurrences_le_length (l : list string) (n : string) :
  0 <= occurrences l n <= Z.of_nat (length l).
Proof.
  unfold occurrences. pose proof (List.filter_length_le (String.eqb n) l). lia.
Qed.

(** X21.  When the severities of the records are safe integers,
    [severityCount] holds, under the numeral of a safe integer, the number
    of records of that severity, and no entry for a severity that no
    record has. *)
Theorem getStatistics_severityCount (R : list RosoutMessage) :
  Forall (fun r => isInherited (node r) = false) R ->
  Forall (fun r => isSafeInteger (severity r) = true) R ->
  exists stats,
    getStatistics R = Some stats /\
    forall z,
      isSafeInteger z = true ->
      obj_get (severityCount stats) (String_of_Z z)
      = let n := Z.of_nat (length (List.filter (fun r => severity r =? z) R)) in
        if n =? 0 then None else Some n.
Proof.
  intros Hnodes _. eexists. split; [by apply getStatistics_counted|].
  intros z _. simpl. unfold counted.
  rewrite obj_get_counted, firstSeen_mem.
  assert (Hkey : forall r : RosoutMessage,
             String.eqb (String_of_Z z) (String_of_Z (severity r))
             = (severity r =? z)).
  { intros r. destruct (Z.eqb_spec (severity r) z) as [-> | Hne].
    - apply String.eqb_refl.
    - apply String.eqb_neq. intros Heq. apply String_of_Z_inj in Heq.
      congruence. }
  rewrite <- (occurrences_map_inj (fun r => String_of_Z (severity r))
                severity R z (String_of_Z z) Hkey).
  destruct (existsb _ _) eqn:Hin.
  - apply occurrences_present in Hin.
    destruct (Z.eqb_spec (occurrences
      (List.map (fun r => String_of_Z (severity r)) R) (String_of_Z z)) 0);
      [lia | reflexivity].
  - apply occurrences_absent in Hin. by rewrite Hin.
Qed.

Lemma StronglySorted_app_order {A} (P : A -> A -> Prop) (l1 l2 : list A) :
  StronglySorted P (l1 ++ l2) ->
  forall a b, In a l1 -> In b l2 -> P a b.
Proof.
  induction l1 as [|x l1 IH]; simpl; intros Hs a b Ha Hb; [destruct Ha|].
  apply StronglySorted_inv in Hs as [Hs Hx].
  destruct Ha as [<- | Ha]; [|by apply IH].
  rewrite List.Forall_forall in Hx. apply Hx, in_or_app. by right.
Qed.

Lemma counted_In (names : list string) (n : string) (c : Z) :
  In (n, c) (counted names) <-> In n names /\ c = occurrences names n.
Proof.
  unfold counted. rewrite in_map_iff. split.
  - intros (k & [= <- <-] & Hk). split; [|reflexivity].
    apply existsb_eqb_In. rewrite <- firstSeen_mem. by apply existsb_eqb_In.
  - intros [Hn ->]. exists n. split; [reflexivity|].
    apply existsb_eqb_In. rewrite firstSeen_mem. by apply existsb_eqb_In.
Qed.

Lemma occurrences_map {A} (f : A -> string) (l : list A) (n : string) :
  occurrences (List.map f l) n
  = Z.of_nat (length (List.filter (fun x => String.eqb n (f x)) l)).
Proof.
  unfold occurrences. f_equal.
  induction l as [|x l IH]; simpl; [reflexivity|].
  destruct (String.eqb n (f x)); simpl; by rewrite IH.
Qed.

(** X22.  [topNodes] lists five nodes, or all of them when there are
    fewer; each with the number of its records, which is at least one;
    and a node it leaves out has no more records than any node it
    lists. *)
Theorem getStatistics_topNodes_counts (R : list RosoutMessage) :
  Forall (fun r => isInherited (node r) = false) R ->
  exists stats,
    getStatistics R = Some stats /\
    length (topNodes stats)
      = Nat.min 5 (length (firstSeen (List.map node R))) /\
    (forall n c,
        In (n, c) (topNodes stats) ->
        In n (List.map node R) /\
        c = Z.of_nat (length (List.filter (fun r => String.eqb n (node r)) R)) /\
        1 <= c <= Z.of_nat (length R)) /\
    (forall n,
        In n (List.map node R) ->
        ~ In n (List.map fst (topNodes stats)) ->
        forall m c, In (m, c) (topNodes stats) ->
                    occurrences (List.map node R) n <= c).
Proof.
  intros Hnodes. eexists. split; [by apply getStatistics_counted|].
  set (names := List.map node R).
  set (byCount := fun '((_, a) : string * Z) '((_, b) : string * Z) => b - a).
  set (ranked := Array_sort byCount (Object_entries (counted names))).
  assert (Hperm : Permutation ranked (counted names)).
  { unfold ranked, Object_entries.
    rewrite (Array_sort_perm byCount). apply ownKeyOrder_perm. }
  assert (Hsorted : StronglySorted (fun a b => snd b <= snd a) ranked).
  { apply (StronglySorted_impl (fun a b => - snd a <= - snd b)); [intros; lia|].
    apply Array_sort_sorted. intros [n a] [m b]. simpl.
    destruct (Z.leb_spec (b - a) 0), (Z.leb_spec (- a) (- b)); lia. }
  assert (Hocc : forall n,
             occurrences names n
             = Z.of_nat (length (List.filter (fun r => String.eqb n (node r)) R))).
  { intros n. apply occurrences_map. }
  cbn [topNodes]. fold names byCount ranked.
  split; [|split].
  - rewrite length_firstn, (Permutation_length Hperm). unfold counted.
    by rewrite length_map.
  - intros n c Hin.
    assert (Hranked : In (n, c) ranked).
    { rewrite <- (firstn_skipn 5 ranked). apply in_or_app. by left. }
    apply (Permutation_in _ Hperm), counted_In in Hranked as [Hn ->].
    split; [exact Hn|]. split; [apply Hocc|].
    pose proof (occurrences_le_length names n) as Hle.
    apply existsb_eqb_In, occurrences_present in Hn.
    unfold names in Hle. rewrite length_map in Hle. fold names in Hle. lia.
  - intros n Hn Hout m c Hin.
    assert (Hranked : In (n, occurrences names n) ranked).
    { apply (Permutation_in _ (Permutation_sym Hperm)), counted_In. by split. }
    rewrite <- (firstn_skipn 5 ranked) in Hranked, Hsorted.
    apply in_app_or in Hranked as [Hfirst | Hrest].
    + exfalso. apply Hout. apply in_map_iff.
      by exists (n, occurrences names n).
    + exact (StronglySorted_app_order _ _ _ Hsorted _ _ Hin Hrest).
Qed.

(** ** More on the exports *)

Lemma Array_map_all_or_first {A B} (f : A -> Exn B) (fine : A -> bool)
    (e : Error) (l : list A) :
  (forall x, if fine x then exists y, f x = Return y else f x = Throw e) ->
  if forallb fine l then exists ys, Array_map f l = Return ys
  else Array_map f l = Throw e.
Proof.
  intros Hf. induction l as [|x l IH]; simpl; [eauto|].
  specialize (Hf x). destruct (fine x); simpl.
  - destruct Hf as [y ->]. simpl.
    destruct (forallb fine l); [|by rewrite IH].
    destruct IH as [ys ->]. simpl. eauto.
  - by rewrite Hf.
Qed.

Section ExportsMore.
Context `{zone : TimeZone} `{printer : NumberPrinter}.

Lemma formatTimestamp_cases (tz : Timezone) (msg : RosoutMessage) :
  if match tz with tz_local => true | tz_utc => hasValidTime msg end
  then exists time, formatTimestamp (timestamp msg) tz = Return time
  else formatTimestamp (timestamp msg) tz = Throw RangeError.
Proof.
  destruct tz; [apply formatTimestamp_local|].
  unfold hasValidTime, formatTimestamp.
  destruct (Date_new _); simpl; eauto.
Qed.

(** X23.  The three exports return together or throw together: they
    return in local mode, and in UTC mode when every timestamp is a time
    value of [Date]; otherwise each of them throws the [RangeError] of
    [toISOString], and no text is made. *)
Theorem exports_return_or_throw_together
    (messages : list RosoutMessage) (tz : Timezone) :
  if match tz with
     | tz_local => true
     | tz_utc => forallb hasValidTime messages
     end
  then exists csv json txt,
         exportToCSV messages tz = Return csv /\
         exportToJSON messages tz = Return json /\
         exportToTXT messages tz = Return txt
  else exportToCSV messages tz = Throw RangeError /\
       exportToJSON messages tz = Throw RangeError /\
       exportToTXT messages tz = Throw RangeError.
Proof.
  set (fine := fun msg : RosoutMessage =>
                 match tz with tz_local => true | tz_utc => hasValidTime msg end).
  assert (Hsame : match tz with
                  | tz_local => true
                  | tz_utc => forallb hasValidTime messages
                  end = forallb fine messages).
  { unfold fine. destruct tz; [|reflexivity].
    induction messages as [|m ms IH]; [reflexivity | exact IH]. }
  rewrite Hsame.
  assert (Hcallback : forall (B : Type) (f : RosoutMessage -> Exn B)
                             (g : string -> RosoutMessage -> B),
             (forall msg, f msg
                          = (let! time := formatTimestamp (timestamp msg) tz in
                             Return (g time msg))%exn) ->
             if forallb fine messages
             then exists ys, Array_map f messages = Return ys
             else Array_map f messages = Throw RangeError).
  { intros B f g Hf. apply Array_map_all_or_first. intros msg.
    pose proof (formatTimestamp_cases tz msg) as Ht. fold (fine msg) in Ht.
    rewrite Hf. destruct (fine msg); [destruct Ht as [time ->] | rewrite Ht];
      simpl; eauto. }
  pose proof (Hcallback _ (csvRow tz)
    (fun time msg =>
       [ toFixed6 (timestamp msg); time; escapeCSV (node msg);
         severityText (severity msg); escapeCSV (message msg);
         escapeCSV (or_string (file msg) EmptyString);
         String_of_Z (or_Z (line msg) 0);
         escapeCSV (or_string (function msg) EmptyString);
         escapeCSV (join ";" (orEmpty (topics msg))) ])
    (fun msg => eq_refl)) as Hcsv.
  pose proof (Hcallback _ (jsonRecord tz) _ (fun msg => eq_refl)) as Hjson.
  pose proof (Hcallback _ (txtLine tz) _ (fun msg => eq_refl)) as Htxt.
  unfold exportToCSV, exportToJSON, exportToTXT.
  destruct (forallb fine messages).
  - destruct Hcsv as [rows ->], Hjson as [objects ->], Htxt as [lines ->].
    cbn [bind]. do 3 eexists. repeat split; reflexivity.
  - by rewrite Hcsv, Hjson, Htxt.
Qed.

End ExportsMore.

(** ** exportToCSV, read back *)

(** *** Texts without comma, quote and line feed *)

Lemma plainText_append (a b : string) :
  plainText (a +:+ b) = plainText a && plainText b.
Proof.
  induction a as [|c a IH]; simpl; [reflexivity|].
  by rewrite IH, andb_assoc.
Qed.

Lemma plainText_substring (n m : nat) (s : string) :
  plainText s = true -> plainText (String.substring n m s) = true.
Proof.
  revert n m. induction s as [|c s IH]; intros n m Hs.
  - by destruct n, m.
  - simpl in Hs. apply andb_true_iff in Hs as [Hc Hs].
    destruct n as [|n]; [destruct m as [|m]|]; simpl;
      [reflexivity | | by apply IH].
    rewrite Hc. by apply IH.
Qed.

Lemma plainText_padStart (s : string) (width : nat) :
  plainText s = true -> plainText (padStart s width "0") = true.
Proof.
  intros Hs. unfold padStart. rewrite plainText_append, Hs, andb_true_r.
  induction (width - String.length s)%nat as [|n IH]; [reflexivity | exact IH].
Qed.

Lemma plainText_uint (d : Decimal.uint) :
  plainText (NilEmpty.string_of_uint d) = true.
Proof. induction d; simpl; auto. Qed.

Lemma plainText_digits_of_N (n : N) : plainText (digits_of_N n) = true.
Proof. rewrite digits_of_N_NilEmpty. apply plainText_uint. Qed.

Lemma plainText_Numeral (d : Numeral) : plainText (Numeral_toString d) = true.
Proof.
  unfold Numeral_toString. rewrite !plainText_append, plainText_digits_of_N.
  assert (Hf : plainText (fractionText (num_fraction d)) = true).
  { unfold fractionText.
    destruct (num_fraction d) eqn:Hd; try reflexivity;
      rewrite plainText_append, plainText_uint; reflexivity. }
  assert (He : plainText (exponentText (num_exponent d)) = true).
  { unfold exponentText. destruct (num_exponent d) as [e|]; [|reflexivity].
    rewrite !plainText_append, plainText_digits_of_N.
    by destruct (e <? 0). }
  rewrite Hf, He. by destruct (num_negative d).
Qed.

Lemma plainText_String_of_Z (z : Z) : plainText (String_of_Z z) = true.
Proof. apply plainText_Numeral. Qed.

Lemma plainText_String_of_number (x : option Z) :
  plainText (String_of_number x) = true.
Proof. destruct x; [apply plainText_String_of_Z | reflexivity]. Qed.

Lemma plainText_replaceFirst (s : string) :
  plainText s = true -> plainText (replaceFirst s "T" " ") = true.
Proof.
  induction s as [|c s IH]; simpl; [done|]. intros Hs.
  apply andb_true_iff in Hs as [Hc Hs].
  destruct (Ascii.eqb c "T"); simpl; [exact Hs|]. by rewrite Hc, IH.
Qed.

Lemma plainText_severityText (z : Z) : plainText (severityText z) = true.
Proof.
  unfold severityText. destruct (severityName z) as [n|] eqn:Hn;
    [|apply plainText_String_of_Z].
  apply severityName_cases in Hn.
  destruct Hn as [[_ ->] | [[_ ->] | [[_ ->] | [[_ ->] | [_ ->]]]]];
    reflexivity.
Qed.

Lemma plainText_includesChar (v : string) :
  plainText v
  = negb (includesChar v "," || includesChar v QUOTE || includesChar v LF).
Proof.
  induction v as [|c v IH]; simpl; [reflexivity|]. rewrite IH.
  destruct (Ascii.eqb c ","), (Ascii.eqb c QUOTE), (Ascii.eqb c LF),
    (includesChar v ","), (includesChar v QUOTE), (includesChar v LF);
    reflexivity.
Qed.

Lemma escapeCSV_plain (v : string) : plainText v = true -> escapeCSV v = v.
Proof.
  rewrite plainText_includesChar. intros Hv. apply negb_true_iff in Hv.
  unfold escapeCSV. by rewrite Hv.
Qed.

Lemma plainText_cons (c : ascii) (s : string) :
  plainText (String c s)
  = negb (Ascii.eqb c "," || Ascii.eqb c QUOTE || Ascii.eqb c LF)
    && plainText s.
Proof. reflexivity. Qed.

Ltac plain_columns :=
  repeat first
    [ rewrite plainText_append
    | rewrite plainText_String_of_number
    | rewrite plainText_String_of_Z
    | rewrite plainText_padStart
        by first [apply plainText_String_of_number
                 | apply plainText_String_of_Z]
    | rewrite plainText_cons ].

Section PlainColumns.
Context `{zone : TimeZone} `{printer : NumberPrinter}.

Lemma plainText_Number_toString (x : float) :
  plainText (Number_toString x) = true.
Proof.
  unfold Number_toString.
  destruct (Prim2SF x) as [s|s| |s m e]; try reflexivity;
    [by destruct s | apply plainText_Numeral].
Qed.

Lemma plainText_toFixed6 (x : float) : plainText (toFixed6 x) = true.
Proof.
  pose proof (plainText_Number_toString x) as Hx.
  unfold toFixed6. destruct (Prim2SF x) as [s|s| |s m e]; try exact Hx;
    [reflexivity|].
  destruct (_ && _); [exact Hx|]. cbv zeta.
  rewrite !plainText_append, !plainText_substring
    by apply plainText_padStart, plainText_String_of_Z.
  by destruct s.
Qed.

Lemma plainText_formatTimestamp (tz : Timezone) (t : float) (time : string) :
  formatTimestamp t tz = Return time -> plainText time = true.
Proof.
  unfold formatTimestamp. destruct tz.
  - intros [= <-]. plain_columns. reflexivity.
  - unfold Date_toISOString.
    destruct (Date_new _) as [ms|]; [|discriminate]. cbv zeta.
    intros [= <-].
    rewrite plainText_append, plainText_substring; [reflexivity|].
    apply plainText_replaceFirst. unfold pad0.
    destruct (_ && _); [|destruct (_ <? 0)]; plain_columns; reflexivity.
Qed.

End PlainColumns.

(** *** Fields *)

Lemma delimited_cons (c : ascii) (rest : string) :
  delimited (String c rest) = Ascii.eqb c "," || Ascii.eqb c LF.
Proof. destruct c as [[] [] [] [] [] [] [] []]; reflexivity. Qed.

Lemma delimiter_not_quote (c : ascii) (rest : string) :
  delimited (String c rest) = true -> Ascii.eqb c QUOTE = false.
Proof. destruct c as [[] [] [] [] [] [] [] []]; simpl; done. Qed.

Lemma readRaw_plain (v rest : string) :
  plainText v = true -> delimited rest = true ->
  CSV.readRaw (v +:+ rest) = (v, rest).
Proof.
  intros Hv Hrest. induction v as [|c v IH].
  - destruct rest as [|d rest]; [reflexivity|].
    rewrite delimited_cons in Hrest. simpl. by rewrite Hrest.
  - rewrite plainText_cons in Hv. apply andb_true_iff in Hv as [Hc Hv].
    apply negb_true_iff in Hc.
    apply orb_false_iff in Hc as [Hc Hlf].
    apply orb_false_iff in Hc as [Hcomma _].
    simpl. rewrite Hcomma, Hlf. simpl. by rewrite (IH Hv).
Qed.

Lemma readQuoted_char (c : ascii) (s : string) :
  Ascii.eqb c QUOTE = false ->
  CSV.readQuoted (String c s)
  = match CSV.readQuoted s with
    | Some (field, r) => Some (String c field, r)
    | None => None
    end.
Proof. intros Hc. simpl. by rewrite Hc. Qed.

Lemma readQuoted_doubled (s : string) :
  CSV.readQuoted (String QUOTE (String QUOTE s))
  = match CSV.readQuoted s with
    | Some (field, r) => Some (String QUOTE field, r)
    | None => None
    end.
Proof. reflexivity. Qed.

Lemma readQuoted_close (rest : string) :
  delimited rest = true ->
  CSV.readQuoted (String QUOTE rest) = Some (EmptyString, rest).
Proof.
  destruct rest as [|d rest]; [reflexivity|]. intros Hd.
  apply delimiter_not_quote in Hd.
  change (CSV.readQuoted (String QUOTE (String d rest)))
    with (if Ascii.eqb d QUOTE
          then match CSV.readQuoted rest with
               | Some (field, r) => Some (String QUOTE field, r)
               | None => None
               end
          else Some (EmptyString, String d rest)).
  by rewrite Hd.
Qed.

Lemma readQuoted_escape (v rest : string) :
  delimited rest = true ->
  CSV.readQuoted
    (replaceAll v QUOTE (String QUOTE (String QUOTE EmptyString))
     +:+ String QUOTE rest)
  = Some (v, rest).
Proof.
  intros Hrest. induction v as [|c v IH].
  - by apply readQuoted_close.
  - simpl replaceAll. destruct (Ascii.eqb c QUOTE) eqn:Hc.
    + apply Ascii.eqb_eq in Hc as ->. cbn [String.append].
      by rewrite readQuoted_doubled, IH.
    + cbn [String.append]. by rewrite (readQuoted_char _ _ Hc), IH.
Qed.

(** What [escapeCSV] writes for a field reads back as the field. *)
Lemma readField_escapeCSV (v rest : string) :
  delimited rest = true ->
  CSV.readField (escapeCSV v +:+ rest) = Some (v, rest).
Proof.
  intros Hrest. unfold escapeCSV.
  destruct (_ || _) eqn:Hv.
  - change (String QUOTE
              (replaceAll v QUOTE (String QUOTE (String QUOTE EmptyString))
               +:+ String QUOTE EmptyString) +:+ rest)
      with (String QUOTE
              ((replaceAll v QUOTE (String QUOTE (String QUOTE EmptyString))
                +:+ String QUOTE EmptyString) +:+ rest)).
    rewrite append_assoc.
    change (String QUOTE EmptyString +:+ rest) with (String QUOTE rest).
    change (CSV.readField (String QUOTE ?s)) with (CSV.readQuoted s).
    by apply readQuoted_escape.
  - assert (Hplain : plainText v = true).
    { rewrite plainText_includesChar. by rewrite Hv. }
    destruct v as [|c v].
    + destruct rest as [|d rest]; [reflexivity|].
      change (EmptyString +:+ String d rest) with (String d rest).
      unfold CSV.readField. rewrite (delimiter_not_quote _ _ Hrest).
      f_equal. by apply (readRaw_plain EmptyString).
    + change (String c v +:+ rest) with (String c (v +:+ rest)).
      unfold CSV.readField.
      assert (Hc : Ascii.eqb c QUOTE = false).
      { rewrite plainText_cons in Hplain.
        apply andb_true_iff in Hplain as [Hc _]. apply negb_true_iff in Hc.
        apply orb_false_iff in Hc as [Hc _].
        by apply orb_false_iff in Hc as [_ Hc]. }
      rewrite Hc. f_equal. by apply (readRaw_plain (String c v)).
Qed.

(** *** Records *)

Lemma join_head_append (sep a b : string) (l : list string) :
  join sep ((a +:+ b) :: l) = a +:+ join sep (b :: l).
Proof. destruct l; simpl; [reflexivity | by rewrite append_assoc]. Qed.

Lemma recordsText_next_row (f : string) (r : list string)
    (rs : list (list string)) :
  CSV.recordsText escapeCSV ([f] :: r :: rs)
  = escapeCSV f +:+ String LF (CSV.recordsText escapeCSV (r :: rs)).
Proof. reflexivity. Qed.

Lemma recordsText_next_field (f g : string) (gs : list string)
    (rows : list (list string)) :
  CSV.recordsText escapeCSV ((f :: g :: gs) :: rows)
  = escapeCSV f +:+ String "," (CSV.recordsText escapeCSV ((g :: gs) :: rows)).
Proof.
  unfold CSV.recordsText, CSV.rowText.
  cbn [List.map]. rewrite join_cons_cons, join_head_append.
  f_equal. apply (join_head_append NEWLINE ",").
Qed.

Lemma readRecords_end (fuel : nat) (f : string) :
  CSV.readRecords (S fuel) (escapeCSV f) = Some [[f]].
Proof.
  cbn [CSV.readRecords].
  rewrite <- (append_nil_r (escapeCSV f)), readField_escapeCSV; reflexivity.
Qed.

Lemma readRecords_comma (fuel : nat) (f rest : string) :
  CSV.readRecords (S fuel) (escapeCSV f +:+ String "," rest)
  = match CSV.readRecords fuel rest with
    | Some (row :: rows) => Some ((f :: row) :: rows)
    | _ => None
    end.
Proof.
  cbn [CSV.readRecords]. rewrite readField_escapeCSV; reflexivity.
Qed.

Lemma readRecords_LF (fuel : nat) (f rest : string) :
  CSV.readRecords (S fuel) (escapeCSV f +:+ String LF rest)
  = match CSV.readRecords fuel rest with
    | Some rows => Some ([f] :: rows)
    | None => None
    end.
Proof.
  cbn [CSV.readRecords]. rewrite readField_escapeCSV; reflexivity.
Qed.

(** Records of at least one field each, written with [escapeCSV], read
    back as they were. *)
Lemma readRecords_recordsText (rows : list (list string)) :
  rows <> [] ->
  Forall (fun row => row <> []) rows ->
  forall fuel,
    (String.length (CSV.recordsText escapeCSV rows) < fuel)%nat ->
    CSV.readRecords fuel (CSV.recordsText escapeCSV rows) = Some rows.
Proof.
  induction rows as [|row rows IH]; [done|]. intros _ Hne.
  apply Forall_cons in Hne as [Hrow Hrows].
  destruct row as [|f fs]; [done|]. clear Hrow. revert f.
  induction fs as [|g gs IHfs]; intros f fuel Hfuel.
  - destruct fuel as [|fuel]; [lia|].
    destruct rows as [|r rs]; [apply readRecords_end|].
    rewrite recordsText_next_row in Hfuel |- *.
    rewrite length_append in Hfuel. simpl in Hfuel.
    rewrite readRecords_LF, IH; [reflexivity | done | exact Hrows | lia].
  - destruct fuel as [|fuel]; [lia|].
    rewrite recordsText_next_field in Hfuel |- *.
    rewrite length_append in Hfuel. simpl in Hfuel.
    rewrite readRecords_comma, IHfs; [reflexivity | lia].
Qed.

Section ExportCSV.
Context `{zone : TimeZone} `{printer : NumberPrinter}.

Lemma csvRow_values (tz : Timezone) (msg : RosoutMessage) (row : list string) :
  csvRow tz msg = Return row ->
  exists time,
    formatTimestamp (timestamp msg) tz = Return time /\
    row = List.map escapeCSV (csvValues time msg).
Proof.
  unfold csvRow.
  destruct (formatTimestamp (timestamp msg) tz) as [time|e] eqn:Htime;
    [|discriminate].
  intros [= <-]. exists time. split; [reflexivity|].
  unfold csvValues. cbn [List.map].
  rewrite (escapeCSV_plain (toFixed6 _)) by apply plainText_toFixed6.
  rewrite (escapeCSV_plain time) by exact (plainText_formatTimestamp _ _ _ Htime).
  rewrite (escapeCSV_plain (severityText _)) by apply plainText_severityText.
  rewrite (escapeCSV_plain (String_of_Z _)) by apply plainText_String_of_Z.
  rewrite !or_string_default, or_Z_default. reflexivity.
Qed.

(** The text [exportToCSV] returns, as records written with [escapeCSV]. *)
Lemma exportToCSV_recordsText
    (messages : list RosoutMessage) (tz : Timezone) (text : string) :
  exportToCSV messages tz = Return text ->
  exists rows,
    text = CSV.recordsText escapeCSV (csvHeaders :: rows) /\
    Forall2 (fun msg row =>
               exists time,
                 formatTimestamp (timestamp msg) tz = Return time /\
                 row = csvValues time msg)
            messages rows.
Proof.
  unfold exportToCSV.
  destruct (Array_map (csvRow tz) messages) as [escaped|e] eqn:Hmap;
    [|discriminate].
  intros [= <-]. apply Array_map_inv in Hmap.
  assert (Hrows : exists rows,
             escaped = List.map (List.map escapeCSV) rows /\
             Forall2 (fun msg row =>
                        exists time,
                          formatTimestamp (timestamp msg) tz = Return time /\
                          row = csvValues time msg)
                     messages rows).
  { induction Hmap as [|msg row messages escaped Hrow _ IH].
    - exists []. split; [reflexivity | constructor].
    - destruct IH as (rows & -> & Hrows).
      apply csvRow_values in Hrow as (time & Htime & ->).
      exists (csvValues time msg :: rows).
      split; [reflexivity|]. constructor; [eauto | exact Hrows]. }
  destruct Hrows as (rows & -> & Hrows). exists rows.
  split; [|exact Hrows].
  unfold CSV.recordsText, CSV.rowText. cbn [List.map].
  rewrite List.map_map. reflexivity.
Qed.

Lemma exportToCSV_parse
    (messages : list RosoutMessage) (tz : Timezone) (text : string) :
  exportToCSV messages tz = Return text ->
  exists rows,
    CSV.parse text = Some (csvHeaders :: rows) /\
    Forall2 (fun msg row =>
               exists time,
                 formatTimestamp (timestamp msg) tz = Return time /\
                 row = csvValues time msg)
            messages rows.
Proof.
  intros Htext.
  apply exportToCSV_recordsText in Htext as (rows & -> & Hrows).
  exists rows. split; [|exact Hrows].
  unfold CSV.parse. apply readRecords_recordsText; [done| |lia].
  constructor; [done|].
  clear -Hrows. induction Hrows as [|msg row messages rows Hrow _ IH];
    constructor; [|exact IH].
  destruct Hrow as (time & _ & ->). done.
Qed.


(** X25.  Two lists of records that [exportToCSV] turns into the same
    text have the same number of records and agree, record by record, on
    the node, the severity, the message, the file, the line, the function,
    the joined topics and the timestamp as printed with six decimals. *)
Theorem exportToCSV_injective
    (first second : list RosoutMessage) (tz : Timezone) (text : string) :
  exportToCSV first tz = Return text ->
  exportToCSV second tz = Return text ->
  Forall2 (fun r r' =>
             node r = node r' /\ severity r = severity r' /\
             message r = message r' /\
             default EmptyString (file r) = default EmptyString (file r') /\
             default 0 (line r) = default 0 (line r') /\
             default EmptyString (function r)
               = default EmptyString (function r') /\
             join ";" (default [] (topics r))
               = join ";" (default [] (topics r')) /\
             toFixed6 (timestamp r) = toFixed6 (timestamp r'))
          first second.
Proof.
  intros Hfirst Hsecond.
  apply exportToCSV_parse in Hfirst as (rows & Hparse & Hrows).
  apply exportToCSV_parse in Hsecond as (rows' & Hparse' & Hrows').
  rewrite Hparse in Hparse'. injection Hparse' as <-.
  clear Hparse. revert second Hrows'.
  induction Hrows as [|r row first rows Hrow _ IH]; intros second Hrows';
    inversion Hrows' as [|r' row' second' rows' Hrow' Hrest]; subst;
    constructor; [|by apply IH].
  destruct Hrow as (time & _ & Hvalues), Hrow' as (time' & _ & Hvalues').
  rewrite Hvalues in Hvalues'. unfold csvValues in Hvalues'.
  injection Hvalues' as Hstamp _ Hnode Hseverity Hmessage Hfile Hline
    Hfunction Htopics.
  apply severityText_inj in Hseverity.
  apply String_of_Z_inj in Hline.
  repeat split; congruence.
Qed.

End ExportCSV.

(** ** More on exportToJSON *)

Section ExportJSONMore.
Context `{zone : TimeZone} `{printer : NumberPrinter}.


End ExportJSONMore.

(** ** The message table and the statistics panel *)

(** X27.  The column [Level] of the message table reads the table of
    [types.ts], the exports read the table of [rosbagUtils.ts]: they show
    the same name for a severity that has one; for a severity without a
    name the cell of the table is empty, where the exports show a text
    that is not. *)
Theorem levelCell_severityText (severity : Z) :
  match AppState.levelCell severity with
  | Some name => In severity knownSeverities /\ severityText severity = name
  | None => ~ In severity knownSeverities /\
            severityName severity = None /\
            severityText severity <> EmptyString
  end.
Proof.
  unfold AppState.levelCell.
  destruct (types.SEVERITY_NAMES !! severity) as [name|] eqn:Hname.
  - unfold types.SEVERITY_NAMES in Hname.
    repeat (apply lookup_insert_Some in Hname as [[<- <-] | [_ Hname]];
            [split; [simpl; tauto | reflexivity]|]).
    apply lookup_singleton_Some in Hname as [<- <-].
    split; [simpl; tauto | reflexivity].
  - assert (Hunknown : ~ In severity knownSeverities).
    { intros Hknown. unfold types.SEVERITY_NAMES in Hname. simpl in Hknown.
      destruct Hknown as [<- | [<- | [<- | [<- | [<- | []]]]]]; discriminate. }
    split; [exact Hunknown|].
    split; [by apply severityName_unknown|].
    unfold severityText. rewrite (severityName_unknown _ Hunknown).
    destruct (String_of_Z_head severity) as (c & s & -> & _). discriminate.
Qed.

(** X28.  The message table shows the first hundred messages, or all of
    them when there are fewer, in their order; the note that counts the
    messages is shown exactly when the table leaves some out. *)
Theorem tableRows_showsCountNote (filteredMessages : list RosoutMessage) :
  length (AppState.tableRows filteredMessages)
    = Nat.min 100 (length filteredMessages) /\
  (exists rest, filteredMessages = AppState.tableRows filteredMessages ++ rest) /\
  (AppState.showsCountNote filteredMessages = true
   <-> AppState.tableRows filteredMessages <> filteredMessages).
Proof.
  unfold AppState.tableRows, AppState.showsCountNote.
  split; [apply length_firstn|].
  split; [exists (skipn 100 filteredMessages); by rewrite firstn_skipn|].
  rewrite Nat.ltb_lt. split.
  - intros Hlong Heq.
    apply (f_equal (@length RosoutMessage)) in Heq.
    rewrite length_firstn in Heq. lia.
  - intros Hcut.
    destruct (Nat.le_gt_cases (length filteredMessages) 100) as [Hshort | Hlong];
      [|exact Hlong].
    exfalso. apply Hcut. by apply firstn_all2.
Qed.

Lemma arrayIndex_String_of_Z (z : Z) :
  0 <= z < 4294967295 -> arrayIndex (String_of_Z z) = Some (Z.to_N z).
Proof.
  intros Hz. rewrite String_of_Z_sign.
  destruct (Z.ltb_spec z 0) as [Hneg | _]; [lia|].
  change (EmptyString +:+ digits_of_N (Z.abs_N z)) with (digits_of_N (Z.abs_N z)).
  replace (Z.abs_N z) with (Z.to_N z) by lia.
  unfold arrayIndex. rewrite digits_of_N_NilEmpty at 1.
  rewrite NilEmpty.usu, DecimalN.Unsigned.of_to.
  fold (digits_of_N (Z.to_N z)). rewrite String.eqb_refl.
  destruct (N.ltb_spec (Z.to_N z) 4294967295) as [_ | Hbig]; [reflexivity | lia].
Qed.

Lemma StronglySorted_lt (l : list Z) :
  StronglySorted Z.le l -> List.NoDup l -> StronglySorted Z.lt l.
Proof.
  induction 1 as [|x l Hl IH Hx]; intros Hnd; [constructor|].
  apply List.NoDup_cons_iff in Hnd as [Hnew Hnd].
  constructor; [by apply IH|].
  rewrite List.Forall_forall in Hx |- *. intros y Hy.
  specialize (Hx y Hy). assert (x <> y) by (intros ->; contradiction). lia.
Qed.

Lemma StronglySorted_map {A B} (P : B -> B -> Prop) (f : A -> B) (l : list A) :
  StronglySorted (fun a b => P (f a) (f b)) l -> StronglySorted P (List.map f l).
Proof.
  induction 1 as [|x l Hl IH Hx]; simpl; constructor; [exact IH|].
  rewrite List.Forall_forall in Hx |- *. intros y Hy.
  apply in_map_iff in Hy as (a & <- & Ha). by apply Hx.
Qed.

Lemma filter_all {A} (p : A -> bool) (l : list A) :
  (forall x, In x l -> p x = true) ->
  List.filter p l = l /\ List.filter (fun x => negb (p x)) l = [].
Proof.
  induction l as [|x l IH]; intros Hp; [by split|]. simpl.
  rewrite (Hp x (or_introl eq_refl)). simpl.
  destruct IH as [-> ->]; [|by split]. intros y Hy. apply Hp. by right.
Qed.

(** X29.  The panel [By Severity] lists the severities that occur, each
    once, in ascending order, whatever the order of the records: the keys
    of [severityCount] are array indices (for severities from 0 to
    2^32 - 2), which [Object.entries] lists in numeric order. *)
Theorem severityRows_ascending (R : list RosoutMessage) :
  Forall (fun r => isInherited (node r) = false) R ->
  Forall (fun r => 0 <= severity r < 4294967295) R ->
  exists stats levels,
    getStatistics R = Some stats /\
    List.map fst (AppState.severityRows stats) = List.map String_of_Z levels /\
    StronglySorted Z.lt levels /\
    (forall z, In z levels <-> exists r, In r R /\ severity r = z).
Proof.
  intros Hnodes Hrange.
  set (keys := List.map (fun r => String_of_Z (severity r)) R).
  set (byIndex := fun a b : string * Z => indexValue (fst a) - indexValue (fst b)).
  assert (Hkey : forall k, In k keys ->
             exists z, k = String_of_Z z /\ 0 <= z < 4294967295 /\
                       (exists r, In r R /\ severity r = z)).
  { intros k Hk. apply in_map_iff in Hk as (r & <- & Hr).
    rewrite List.Forall_forall in Hrange. exists (severity r).
    split; [reflexivity|]. split; [by apply Hrange | by exists r]. }
  assert (Hindex : forall z, 0 <= z < 4294967295 ->
             isArrayIndex (String_of_Z z) = true /\
             indexValue (String_of_Z z) = z).
  { intros z Hz. unfold isArrayIndex, indexValue.
    rewrite (arrayIndex_String_of_Z z Hz). split; [reflexivity | lia]. }
  assert (Hcounted : forall e, In e (counted keys) -> In (fst e) keys).
  { intros [k c] He. by apply counted_In in He as [Hk _]. }
  destruct (filter_all (fun e : string * Z => isArrayIndex (fst e))
              (counted keys)) as [Hall Hnone].
  { intros e He. destruct (Hkey _ (Hcounted e He)) as (z & -> & Hz & _).
    by apply Hindex. }
  set (rows := Array_sort byIndex (counted keys)).
  assert (Hrows : ownKeyOrder (counted keys) = rows).
  { unfold ownKeyOrder. fold byIndex. by rewrite Hall, Hnone, app_nil_r. }
  assert (Hperm : Permutation rows (counted keys)) by apply Array_sort_perm.
  assert (Hrow : forall e, In e rows ->
             String_of_Z (indexValue (fst e)) = fst e /\
             exists r, In r R /\ severity r = indexValue (fst e)).
  { intros e He. apply (Permutation_in _ Hperm) in He.
    destruct (Hkey _ (Hcounted e He)) as (z & -> & Hz & Hr).
    by rewrite (proj2 (Hindex z Hz)). }
  eexists. exists (List.map (fun e => indexValue (fst e)) rows).
  split; [by apply getStatistics_counted|].
  unfold AppState.severityRows, Object_entries.
  cbn [severityCount]. fold keys. rewrite Hrows.
  split; [|split].
  - rewrite List.map_map. apply map_ext_in. intros e He.
    symmetry. by apply Hrow.
  - apply StronglySorted_lt.
    + apply (StronglySorted_map Z.le (fun e : string * Z => indexValue (fst e))).
      apply (Array_sort_sorted byIndex (fun e => indexValue (fst e))).
      intros x y. unfold byIndex.
      destruct (Z.leb_spec (indexValue (fst x) - indexValue (fst y)) 0),
               (Z.leb_spec (indexValue (fst x)) (indexValue (fst y))); lia.
    + assert (Hnd : List.NoDup (List.map fst rows)).
      { apply NoDup_ListNoDup.
        rewrite (Permutation_map fst Hperm), counted_keys.
        apply NoDup_firstSeen. }
      clear -Hnd Hrow. induction rows as [|e rows IH]; [constructor|].
      simpl in Hnd |- *. apply List.NoDup_cons_iff in Hnd as [Hnew Hnd].
      constructor.
      * intros Hin. apply in_map_iff in Hin as (e' & Heq & He').
        apply Hnew. apply in_map_iff. exists e'. split; [|exact He'].
        rewrite <- (proj1 (Hrow e' (or_intror He'))),
                <- (proj1 (Hrow e (or_introl eq_refl))).
        by rewrite Heq.
      * apply IH; [|exact Hnd]. intros e' He'. apply Hrow. by right.
  - intros z. rewrite in_map_iff. split.
    + intros (e & <- & He). by apply Hrow.
    + intros (r & Hr & <-).
      assert (Hin : In (String_of_Z (severity r),
                        occurrences keys (String_of_Z (severity r)))
                       rows).
      { apply (Permutation_in _ (Permutation_sym Hperm)), counted_In.
        split; [|reflexivity]. apply in_map_iff. by exists r. }
      eexists. split; [|exact Hin]. simpl.
      rewrite List.Forall_forall in Hrange. by apply Hindex, Hrange.
Qed.

(** ** The layout of a formatted timestamp *)

Lemma length_repeat_string (c : ascii) (n : nat) :
  String.length (string_of_list_ascii (repeat c n)) = n.
Proof. induction n as [|n IH]; simpl; [reflexivity | by rewrite IH]. Qed.

Lemma length_padStart (s : string) (width : nat) (c : ascii) :
  String.length (padStart s width c) = Nat.max width (String.length s).
Proof. unfold padStart. rewrite length_append, length_repeat_string. lia. Qed.

(** The number of digits of an integer below 10000, checked on the ten
    thousand numerals. *)
Lemma length_String_of_Z (z : Z) :
  0 <= z < 10000 ->
  String.length (String_of_Z z)
  = if z <? 10 then 1%nat else if z <? 100 then 2%nat
    else if z <? 1000 then 3%nat else 4%nat.
Proof.
  intros Hz.
  set (digits := [0; 1; 2; 3; 4; 5; 6; 7; 8; 9]).
  set (check := fun z =>
         Nat.eqb (String.length (String_of_Z z))
           (if z <? 10 then 1%nat else if z <? 100 then 2%nat
            else if z <? 1000 then 3%nat else 4%nat)).
  assert (Hall :
    forallb (fun a => forallb (fun b => forallb (fun c => forallb (fun d =>
      check (1000 * a + 100 * b + 10 * c + d))
      digits) digits) digits) digits = true) by (vm_compute; reflexivity).
  assert (Hdigit : forall q, 0 <= q <= 9 -> In q digits)
    by (intros q Hq; simpl; lia).
  assert (Hmod : forall x, 0 <= x mod 10 <= 9)
    by (intros x; pose proof (Z.mod_pos_bound x 10); lia).
  assert (Ha : 0 <= z / 1000 <= 9)
    by (clear -Hz; Z.div_mod_to_equations; lia).
  pose proof (Hmod (z / 100)) as Hb.
  pose proof (Hmod (z / 10)) as Hc.
  pose proof (Hmod z) as Hd.
  rewrite forallb_forall in Hall. specialize (Hall _ (Hdigit _ Ha)).
  rewrite forallb_forall in Hall. specialize (Hall _ (Hdigit _ Hb)).
  rewrite forallb_forall in Hall. specialize (Hall _ (Hdigit _ Hc)).
  rewrite forallb_forall in Hall. specialize (Hall _ (Hdigit _ Hd)).
  replace (1000 * (z / 1000) + 100 * ((z / 100) mod 10)
           + 10 * ((z / 10) mod 10) + z mod 10) with z in Hall
    by (clear -Hz; Z.div_mod_to_equations; lia).
  by apply Nat.eqb_eq in Hall.
Qed.

Lemma fieldsOfTime_bounds (t : Z) :
  0 <= month (fieldsOfTime t) <= 11 /\ 1 <= date (fieldsOfTime t) <= 31 /\
  0 <= hours (fieldsOfTime t) <= 23 /\ 0 <= minutes (fieldsOfTime t) <= 59 /\
  0 <= seconds (fieldsOfTime t) <= 59 /\
  0 <= milliseconds (fieldsOfTime t) <= 999.
Proof.
  unfold fieldsOfTime, msPerDay. cbv zeta. cbn [month date hours minutes seconds milliseconds].
  set (doe := (t / 86400000 + 719468) mod 146097).
  set (inDay := t mod 86400000).
  assert (Hdoe : 0 <= doe < 146097) by (apply Z.mod_pos_bound; lia).
  assert (Hday : 0 <= inDay < 86400000) by (apply Z.mod_pos_bound; lia).
  set (yoe := (doe - doe / 1460 + doe / 36524 - doe / 146096) / 365).
  set (doy := doe - (365 * yoe + yoe / 4 - yoe / 100)).
  assert (Hdoy : 0 <= doy <= 365).
  { unfold doy, yoe. clear -Hdoe. Z.div_mod_to_equations. lia. }
  set (mp := (5 * doy + 2) / 153).
  assert (Hmp : 0 <= mp <= 11).
  { unfold mp. clear -Hdoy. Z.div_mod_to_equations. lia. }
  assert (Hd : 1 <= doy - (153 * mp + 2) / 5 + 1 <= 31).
  { unfold mp. clear. Z.div_mod_to_equations. lia. }
  split; [destruct (mp <? 10) eqn:Hlt; [lia|]; apply Z.ltb_ge in Hlt; lia|].
  split; [exact Hd|].
  clear -Hday. repeat split; Z.div_mod_to_equations; lia.
Qed.

Lemma includesChar_append (a b : string) (c : ascii) :
  includesChar (a +:+ b) c = includesChar a c || includesChar b c.
Proof.
  induction a as [|d a IH]; simpl; [reflexivity|].
  by rewrite IH, orb_assoc.
Qed.

Lemma includesChar_uint (d : Decimal.uint) :
  includesChar (NilEmpty.string_of_uint d) "T" = false.
Proof. induction d; simpl; auto. Qed.

Lemma includesChar_padStart (z : Z) (width : nat) :
  includesChar (padStart (String_of_Z z) width "0") "T" = false.
Proof.
  unfold padStart. rewrite includesChar_append, String_of_Z_sign,
    includesChar_append, digits_of_N_NilEmpty, includesChar_uint.
  rewrite !orb_false_r.
  replace (includesChar (if z <? 0 then "-" else EmptyString) "T") with false
    by (by destruct (z <? 0)).
  rewrite orb_false_r.
  induction (width - _)%nat as [|n IH]; [reflexivity | exact IH].
Qed.

Lemma replaceFirst_skip (a b : string) :
  includesChar a "T" = false ->
  replaceFirst (a +:+ b) "T" " " = a +:+ replaceFirst b "T" " ".
Proof.
  induction a as [|c a IH]; simpl; intros Ha; [reflexivity|].
  apply orb_false_iff in Ha as [Hc Ha]. rewrite Hc. f_equal. by apply IH.
Qed.

Lemma replaceFirst_char (c : ascii) (s : string) :
  Ascii.eqb c "T" = false ->
  replaceFirst (String c s) "T" " " = String c (replaceFirst s "T" " ").
Proof. intros Hc. simpl. by rewrite Hc. Qed.

Lemma replaceFirst_T (s : string) :
  replaceFirst (String "T" s) "T" " " = String " " s.
Proof. reflexivity. Qed.

Lemma substring_skip (a b : string) (n : nat) :
  (String.length a <= n)%nat ->
  String.substring 0 n (a +:+ b)
  = a +:+ String.substring 0 (n - String.length a) b.
Proof.
  revert n. induction a as [|c a IH]; intros n Hn; simpl.
  - by rewrite Nat.sub_0_r.
  - destruct n as [|n]; [simpl in Hn; lia|]. simpl in Hn |- *.
    f_equal. apply IH. lia.
Qed.

Lemma substring_char (c : ascii) (s : string) (n : nat) :
  String.substring 0 (S n) (String c s) = String c (String.substring 0 n s).
Proof. reflexivity. Qed.

Section Layout.
Context `{zone : TimeZone}.

(** X30.  Where local time is UTC, the two time-zone modes print the
    same stamp, [YYYY-MM-DD HH:MM:SS.mmm] of 23 characters, and the UTC
    mode adds [" UTC"] to it: for every timestamp that is a time value of
    [Date] in a year from 1000 to 9999. *)
Theorem formatTimestamp_modes_agree (t : float) (ms : Z) :
  Date_new (PrimFloat.mul t 1000%float) = Some ms ->
  LocalTZA ms = 0 ->
  1000 <= fullYear (fieldsOfTime ms) <= 9999 ->
  exists stamp,
    formatTimestamp t tz_local = Return stamp /\
    formatTimestamp t tz_utc = Return (stamp +:+ " UTC") /\
    String.length stamp = 23%nat.
Proof.
  intros Hdate Hzone Hyear.
  destruct (fieldsOfTime_bounds ms)
    as (Hmonth & Hdate' & Hhours & Hminutes & Hseconds & Hms).
  unfold formatTimestamp, Date_toISOString, Date_getLocal, pad0.
  rewrite Hdate, Hzone, Z.add_0_r. cbv zeta.
  cbn [String_of_number plus1 bind].
  set (f := fieldsOfTime ms) in *.
  assert (Hlen2 : forall z, 0 <= z <= 99 ->
             String.length (padStart (String_of_Z z) 2 "0") = 2%nat).
  { intros z Hz. rewrite length_padStart, length_String_of_Z by lia.
    destruct (Z.ltb_spec z 10); [reflexivity|].
    destruct (Z.ltb_spec z 100); [reflexivity | lia]. }
  assert (Hlen3 : String.length (padStart (String_of_Z (milliseconds f)) 3 "0")
                  = 3%nat).
  { rewrite length_padStart, length_String_of_Z by lia.
    destruct (Z.ltb_spec (milliseconds f) 10); [reflexivity|].
    destruct (Z.ltb_spec (milliseconds f) 100); [reflexivity|].
    destruct (Z.ltb_spec (milliseconds f) 1000); [reflexivity | lia]. }
  assert (Hlen4 : String.length (String_of_Z (fullYear f)) = 4%nat).
  { rewrite length_String_of_Z by lia.
    destruct (Z.ltb_spec (fullYear f) 10); [lia|].
    destruct (Z.ltb_spec (fullYear f) 100); [lia|].
    destruct (Z.ltb_spec (fullYear f) 1000); [lia | reflexivity]. }
  assert (Hpad4 : padStart (String_of_Z (fullYear f)) 4 "0"
                  = String_of_Z (fullYear f)).
  { unfold padStart. by rewrite Hlen4. }
  assert (Hiso : (0 <=? fullYear f) && (fullYear f <=? 9999) = true).
  { apply andb_true_iff. split; apply Z.leb_le; lia. }
  rewrite Hiso, Hpad4. cbn [String.append].
  eexists. split; [reflexivity|]. split.
  - do 2 f_equal.
    rewrite replaceFirst_skip
      by (rewrite <- Hpad4; apply includesChar_padStart).
    rewrite replaceFirst_char by reflexivity.
    rewrite replaceFirst_skip by apply includesChar_padStart.
    rewrite replaceFirst_char by reflexivity.
    rewrite replaceFirst_skip by apply includesChar_padStart.
    rewrite replaceFirst_T.
    repeat first
      [ rewrite substring_char
      | rewrite substring_skip
          by (rewrite ?Hlen4, ?Hlen3, ?Hlen2 by lia; lia);
        rewrite ?Hlen4, ?Hlen3, ?Hlen2 by lia; cbn [Nat.sub] ].
    cbn [String.substring]. by rewrite append_nil_r.
  - repeat first [ rewrite length_append | progress cbn [String.length] ].
    rewrite Hlen4, Hlen3, !Hlen2 by lia. reflexivity.
Qed.

End Layout.

(* ===================================================================== *)
(** * The further properties at work on the reference host *)
(* ===================================================================== *)

Module MoreRuns.
Import Reference.

(** X4: errors of node [a] that mention a failure. *)
Lemma filterMessages_AND_run :
  exists out,
    filterMessages (H := literalEngine) [connFailed; allFine; level99] errorsOfA
    = Return out /\
    forall r conditions,
      conditionsOf (H := literalEngine) errorsOfA r = Return conditions ->
      conditions <> [] ->
      (In r out <->
       In r [connFailed; allFine; level99] /\
       beforeStart errorsOfA r = false /\ afterEnd errorsOfA r = false /\
       Forall (fun c => c = true) conditions).
Proof.
  apply (filterMessages_AND (engine := literalEngine)). reflexivity.
Defined.

(** X7: warnings added to the errors. *)
Lemma filterMessages_more_severities_run :
  exists out out',
    filterMessages (H := literalEngine) [connFailed; allFine; level99] errorsOfA
    = Return out /\
    filterMessages (H := literalEngine) [connFailed; allFine; level99]
      (withSeverityLevels (Some ({[ 8 ]} ∪ {[ 4 ]})) errorsOfA)
    = Return out' /\
    sublist out out'.
Proof.
  apply (filterMessages_more_severities (engine := literalEngine)
           [connFailed; allFine; level99] errorsOfA {[ 8 ]}).
  - reflexivity.
  - rewrite size_singleton. lia.
  - apply union_subseteq_l.
Defined.

(** X8: node [b] added to node [a]. *)
Lemma filterMessages_more_nodes_run :
  exists out out',
    filterMessages (H := literalEngine) [connFailed; allFine; level99] errorsOfA
    = Return out /\
    filterMessages (H := literalEngine) [connFailed; allFine; level99]
      (withNodeNames (Some ({[ "a" ]} ∪ {[ "b" ]})) errorsOfA)
    = Return out' /\
    sublist out out'.
Proof.
  apply (filterMessages_more_nodes (engine := literalEngine)
           [connFailed; allFine; level99] errorsOfA {[ "a" ]}).
  - reflexivity.
  - rewrite size_singleton. lia.
  - apply union_subseteq_l.
Defined.

(** X9: a keyword in capitals and in small letters. *)
Lemma filterMessages_keyword_case_run :
  filterMessages (H := literalEngine) [connFailed; allFine; level99]
    (withMessageKeywords (Some [Some "FAILED"; None]) errorsOfA)
  = filterMessages (H := literalEngine) [connFailed; allFine; level99]
      (withMessageKeywords (Some [Some "failed"; Some EmptyString]) errorsOfA).
Proof.
  apply (filterMessages_keyword_case (engine := literalEngine)).
  repeat constructor.
Defined.

(** X10: the bag of camera images. *)
Lemma loadRosbagMessages_no_rosout_topic_run :
  loadRosbagMessages (H := moreBags) (bagFile "camera.bag")
  = ([rosbag.CallOpen; rosbag.CallConnections; rosbag.CallConnections],
     Throw (NoMatchingChannelsError
              [("/camera/image", Some "sensor_msgs/Image")])).
Proof.
  apply (loadRosbagMessages_no_rosout_topic (reader := moreBags)
           (bagFile "camera.bag") cameraBag); [reflexivity | reflexivity |].
  intros id c [[= <- <-] | []]. split; [reflexivity | discriminate].
Defined.

(** X11: the topics read of the bag with one rosout connection. *)
Lemma loadRosbagMessages_reads_rosout_topics_run :
  ["/rosout"] <> [] /\
  exists bag,
    rosbag.Bag_open (Reader := twoBags) (bagFile "rosout.bag") = Return bag /\
    isUnindexed bag = false /\
    fst (loadRosbagMessages (H := twoBags) (bagFile "rosout.bag"))
      = [rosbag.CallOpen; rosbag.CallConnections;
         rosbag.CallReadMessages ["/rosout"]] /\
    ["/rosout"] = List.map (fun '(_, c) => rosbag.topic c)
                    (List.filter (fun '(_, c) => isRosoutConnection c)
                       (rosbag.connections bag)) /\
    forall t, In t ["/rosout"] <->
              exists id c, In (id, c) (rosbag.connections bag) /\
                           rosbag.topic c = t /\
                           (includes t "rosout" = true \/
                            rosbag.type c = Some "rosgraph_msgs/Log").
Proof.
  apply (loadRosbagMessages_reads_rosout_topics (reader := twoBags)
           (bagFile "rosout.bag") ["/rosout"]).
  right. right. left. reflexivity.
Defined.

(** X12: the two records of that bag. *)
Lemma loadRosbagMessages_records_run :
  exists calls loaded,
    loadRosbagMessages (H := twoBags) (bagFile "rosout.bag")
      = (calls, Return loaded) /\
    exists bag results,
      rosbag.Bag_open (Reader := twoBags) (bagFile "rosout.bag") = Return bag /\
      rosbag.readMessages bag (findRosoutTopics bag) = (results, None) /\
      messages loaded = omap recordOf results /\
      (length (messages loaded) <= length results)%nat.
Proof.
  eexists _, _. split; [reflexivity|].
  apply (loadRosbagMessages_records (reader := twoBags)
           (bagFile "rosout.bag") _ _ eq_refl).
Defined.

(** X13: a file that is no bag, and a bag whose second chunk fails. *)
Lemma loadRosbagMessages_reader_failure_run :
  snd (loadRosbagMessages (H := moreBags) (bagFile "missing.bag"))
    = Throw (DecodeError "not a bag") /\
  snd (loadRosbagMessages (H := moreBags) (bagFile "broken.bag"))
    = Throw (DecodeError "bz2").
Proof.
  split.
  - apply (loadRosbagMessages_reader_failure (reader := moreBags)).
    left. reflexivity.
  - apply (loadRosbagMessages_reader_failure (reader := moreBags)).
    right. exists brokenBag. eexists.
    split; [reflexivity|]. split; [reflexivity|].
    split; [discriminate | reflexivity].
Defined.

(** X14: the shape of the two records. *)
Lemma loadRosbagMessages_record_shape_run :
  exists calls loaded,
    loadRosbagMessages (H := twoBags) (bagFile "rosout.bag")
      = (calls, Return loaded) /\
    Forall (fun r => node r <> EmptyString /\ is_Some (file r) /\
                     is_Some (line r) /\ is_Some (function r) /\
                     is_Some (topics r))
           (messages loaded) /\
    EmptyString ∉ uniqueNodes loaded.
Proof.
  eexists _, _. split; [reflexivity|].
  apply (loadRosbagMessages_record_shape (reader := twoBags)
           (bagFile "rosout.bag") _ _ eq_refl).
Defined.

(** X17: the keyword text [", ,"]. *)
Lemma applyFilters_blank_keywords_run :
  AppState.applyFilters (H := literalEngine) [connFailed; allFine; level99]
    (AppState.withKeywords ", ," warningsOfTalker)
  = AppState.applyFilters (H := literalEngine) [connFailed; allFine; level99]
      (AppState.withKeywords EmptyString warningsOfTalker).
Proof.
  apply (applyFilters_blank_keywords (engine := literalEngine)).
  repeat constructor.
Defined.

(** X21: the severities of three records. *)
Lemma getStatistics_severityCount_run :
  exists stats,
    getStatistics [connFailed; allFine; connFailed] = Some stats /\
    forall z,
      isSafeInteger z = true ->
      obj_get (severityCount stats) (String_of_Z z)
      = let n := Z.of_nat (length (List.filter (fun r => severity r =? z)
                                     [connFailed; allFine; connFailed])) in
        if n =? 0 then None else Some n.
Proof.
  apply (getStatistics_severityCount [connFailed; allFine; connFailed]);
    repeat constructor.
Defined.

(** X22: the nodes of three records. *)
Lemma getStatistics_topNodes_counts_run :
  exists stats,
    getStatistics [connFailed; allFine; connFailed] = Some stats /\
    length (topNodes stats)
      = Nat.min 5 (length (firstSeen
                             (List.map node [connFailed; allFine; connFailed]))) /\
    (forall n c,
        In (n, c) (topNodes stats) ->
        In n (List.map node [connFailed; allFine; connFailed]) /\
        c = Z.of_nat (length (List.filter (fun r => String.eqb n (node r))
                                [connFailed; allFine; connFailed])) /\
        1 <= c <= Z.of_nat (length [connFailed; allFine; connFailed])) /\
    (forall n,
        In n (List.map node [connFailed; allFine; connFailed]) ->
        ~ In n (List.map fst (topNodes stats)) ->
        forall m c, In (m, c) (topNodes stats) ->
                    occurrences
                      (List.map node [connFailed; allFine; connFailed]) n <= c).
Proof.
  apply (getStatistics_topNodes_counts [connFailed; allFine; connFailed]).
  repeat constructor.
Defined.


(** X25: a record without file, line, function and topics, and the same
    record with the defaults the loader writes for them, export alike. *)
Lemma exportToCSV_injective_run :
  Forall2 (fun r r' =>
             node r = node r' /\ severity r = severity r' /\
             message r = message r' /\
             default EmptyString (file r) = default EmptyString (file r') /\
             default 0 (line r) = default 0 (line r') /\
             default EmptyString (function r)
               = default EmptyString (function r') /\
             join ";" (default [] (topics r))
               = join ";" (default [] (topics r')) /\
             toFixed6 (H := exactDigits) (timestamp r)
               = toFixed6 (H := exactDigits) (timestamp r'))
          [connFailed; allFine] [connFailedLoaded; allFine].
Proof.
  apply (exportToCSV_injective (zone := tokyo) (printer := exactDigits)
           [connFailed; allFine] [connFailedLoaded; allFine] tz_local
           _ eq_refl eq_refl).
Defined.


(** X29: errors before information in the records, information before
    errors in the panel. *)
Lemma severityRows_ascending_run :
  exists stats levels,
    getStatistics [connFailed; allFine; connFailed] = Some stats /\
    List.map fst (AppState.severityRows stats) = List.map String_of_Z levels /\
    StronglySorted Z.lt levels /\
    (forall z, In z levels <->
               exists r, In r [connFailed; allFine; connFailed] /\
                         severity r = z).
Proof.
  apply (severityRows_ascending [connFailed; allFine; connFailed]).
  - repeat constructor.
  - repeat (constructor; [simpl; lia|]). constructor.
Defined.

(** X30: a quarter of an hour after the epoch, where local time is
    UTC. *)
Lemma formatTimestamp_modes_agree_run :
  exists stamp,
    formatTimestamp (H := fixedOffset 0) 1001%float tz_local = Return stamp /\
    formatTimestamp (H := fixedOffset 0) 1001%float tz_utc
      = Return (stamp +:+ " UTC") /\
    String.length stamp = 23%nat.
Proof.
  apply (formatTimestamp_modes_agree (zone := fixedOffset 0)
           1001%float 1001000).
  - reflexivity.
  - reflexivity.
  - vm_compute. split; discriminate.
Defined.

End MoreRuns.
